(** * KREIOS-150 areaDetector driver: Prodigy client and acquisition worker

    A shallow embedding of [kreiosApp/src/kreios.cpp] (with the constants of
    [kreios.h]): the request/reply exchange ([commandResponse]), the spectrum
    definition and validation commands, the acquisition worker
    ([kreiosTask]) with its chunk distribution loops, and the integer write
    handler ([writeInt32]).

    Conventions of the embedding.
    - A C++ [int] is a [Z].  Signed overflow has no meaning in C++, so the
      model follows the executions in which the worker's [int] arithmetic
      stays in range; the one place where the source converts a wider
      unsigned value back to [int] ([nbytes]) has its wrap-around written out.
    - An [epicsFloat64] scalar parameter is a binary64 [float]; the sample
      values of the acquisition buffers are counts and are kept exact, in [Z].
      The two C++ library conversions between text and [double]
      ([operator<<] and [std::stod]) enter as section variables.
    - The asyn parameter library is a keyed store; a parameter that was
      never set is undefined and a read of it leaves the destination as it
      was.
    - The Prodigy server and the control-system clients are scripts held in
      the driver state: one transport result per request, and one batch of
      client writes per point where the worker releases the driver lock. *)

From Stdlib Require Import ZArith String Ascii List Bool Lia DecimalString.
From Stdlib Require Import PrimFloat SpecFloat FloatOps.
From Stdlib Require Uint63 DecimalPos.
From stdpp Require Import base option list gmap strings.

Open Scope string_scope.
Open Scope list_scope.
Open Scope Z_scope.

(** ** asyn status codes and areaDetector constants *)

Inductive asynStatus :=
  | asynSuccess | asynTimeout | asynOverflow | asynError
  | asynDisconnected | asynDisabled.

Definition is_success (s : asynStatus) : bool :=
  match s with asynSuccess => true | _ => false end.

(** [ADStatus_t] of ADDriver.h. *)
Definition ADStatusIdle : Z := 0.
Definition ADStatusAcquire : Z := 1.
Definition ADStatusError : Z := 6.
Definition ADStatusInitializing : Z := 8.
Definition ADStatusAborted : Z := 10.

(** Constants of kreios.h. *)
Definition KREIOS_OK_STRING : string := "OK".
Definition KREIOS_ERROR_STRING : string := "ERROR".
Definition KREIOS_RUN_FAT : Z := 0.
Definition KREIOS_RUN_SFAT : Z := 1.
Definition KREIOS_RUN_FRR : Z := 2.
Definition KREIOS_RUN_FE : Z := 3.
Definition KREIOS_RUN_LVS : Z := 4.

Definition KREIOS_CMD_DEFINE_FAT : string := "DefineSpectrumFAT".
Definition KREIOS_CMD_DEFINE_SFAT : string := "DefineSpectrumSFAT".
Definition KREIOS_CMD_DEFINE_FRR : string := "DefineSpectrumFRR".
Definition KREIOS_CMD_DEFINE_FE : string := "DefineSpectrumFE".
Definition KREIOS_CMD_DEFINE_LVS : string := "DefineSpectrumLVS".
Definition KREIOS_CMD_VALIDATE : string := "ValidateSpectrum".
Definition KREIOS_CMD_START : string := "Start".
Definition KREIOS_CMD_PAUSE : string := "Pause".
Definition KREIOS_CMD_RESUME : string := "Resume".
Definition KREIOS_CMD_ABORT : string := "Abort".
Definition KREIOS_CMD_GET_STATUS : string := "GetAcquisitionStatus".
Definition KREIOS_CMD_GET_DATA : string := "GetAcquisitionData".
Definition KREIOS_CMD_CLEAR : string := "ClearSpectrum".
Definition KREIOS_CMD_GET_VISNAME : string := "GetAnalyzerVisibleName".
Definition KREIOS_CMD_GET_VALUE : string := "GetAnalyzerParameterValue".
Definition KREIOS_CMD_GET_DATA_INFO : string := "GetSpectrumDataInfo".

Definition INT_MIN : Z := - 2 ^ 31.
Definition INT_MAX : Z := 2 ^ 31 - 1.

(** Conversion of an unsigned 64-bit value to [int]. *)
Definition wrap32 (n : Z) : Z := (n + 2 ^ 31) mod 2 ^ 32 - 2 ^ 31.

(** ** Text helpers: the C++ string operations the driver uses *)

Definition LF : ascii := "010"%char.

Fixpoint mem_char (c : ascii) (set : string) : bool :=
  match set with
  | EmptyString => false
  | String d set' => Ascii.eqb c d || mem_char c set'
  end.

Fixpoint drop_leading (search s : string) : string :=
  match s with
  | EmptyString => EmptyString
  | String c s' => if mem_char c search then drop_leading search s' else s
  end.

Fixpoint rev_string (s acc : string) : string :=
  match s with
  | EmptyString => acc
  | String c s' => rev_string s' (String c acc)
  end.

(** [Kreios::cleanString]: the substring from the first to the last
    character outside [search]; empty when there is none. *)
Definition cleanString_with (search str : string) : string :=
  rev_string (drop_leading search (rev_string (drop_leading search str) "")) "".

(** The default [search] argument of the declaration in kreios.h. *)
Definition KREIOS_CLEAN_SET : string := String ":" (String " " (String LF "")).

Definition cleanString (str : string) : string :=
  cleanString_with KREIOS_CLEAN_SET str.

(** The token sequence of [while (std::getline(ss, token, delim))]: a last
    segment that is empty is not produced. *)
Fixpoint getline_tokens (delim : ascii) (s tok : string) : list string :=
  match s with
  | EmptyString => if String.eqb tok "" then [] else [tok]
  | String c s' =>
      if Ascii.eqb c delim then tok :: getline_tokens delim s' ""
      else getline_tokens delim s' (tok +:+ String c "")
  end.

(** [token.find(ch)] with the two [substr] around the position found. *)
Fixpoint find_split (ch : ascii) (s : string) : option (string * string) :=
  match s with
  | EmptyString => None
  | String c s' =>
      if Ascii.eqb c ch then Some ("", s')
      else match find_split ch s' with
           | Some (k, v) => Some (String c k, v)
           | None => None
           end
  end.

(** [std::stoi]: leading white space, an optional sign, decimal digits; it
    throws when there is no digit or the value does not fit an [int]. *)
Definition isspace (c : ascii) : bool :=
  let n := nat_of_ascii c in
  (Nat.eqb n 32 || (Nat.leb 9 n && Nat.leb n 13))%nat.

Definition digit_of (c : ascii) : option Z :=
  let n := Z.of_nat (nat_of_ascii c) in
  if (48 <=? n) && (n <=? 57) then Some (n - 48) else None.

Fixpoint skip_space (s : string) : string :=
  match s with
  | String c s' => if isspace c then skip_space s' else s
  | EmptyString => EmptyString
  end.

Fixpoint take_digits (s : string) (acc : Z) (seen : bool) : option Z :=
  match s with
  | String c s' =>
      match digit_of c with
      | Some d => take_digits s' (10 * acc + d) true
      | None => if seen then Some acc else None
      end
  | EmptyString => if seen then Some acc else None
  end.

Definition stoi (s : string) : option Z :=
  let s1 := skip_space s in
  let '(neg, s2) :=
    match s1 with
    | String "-" r => (true, r)
    | String "+" r => (false, r)
    | _ => (false, s1)
    end in
  match take_digits s2 0 false with
  | Some n =>
      let v := if neg : bool then - n else n in
      if (INT_MIN <=? v) && (v <=? INT_MAX) then Some v else None
  | None => None
  end.

(** [operator<<] of an [int] on a fresh stream. *)
Definition show_int (n : Z) : string := NilZero.string_of_int (Z.to_int n).

(** ** The parameter library *)

Inductive param :=
  (* ADDriver and asynNDArrayDriver parameters the driver uses *)
  | ADAcquire | ADStatus | ADStatusMessage | ADNumExposures
  | ADNumExposuresCounter | ADNumImages | ADNumImagesCounter | ADImageMode
  | ADAcquireTime | ADAcquirePeriod | ADModel
  | NDArraySizeX | NDArraySizeY | NDArraySize | NDDataType
  | NDArrayCallbacks | NDArrayCounter | NDArrayData
  (* parameters created by the Kreios constructor *)
  | KREIOSConnect_ | KREIOSConnected_ | KREIOSPauseAcq_ | KREIOSMsgCounter_
  | KREIOSStartEnergy_ | KREIOSEndEnergy_ | KREIOSRetardingRatio_
  | KREIOSKineticEnergy_ | KREIOSStepWidth_ | KREIOSPassEnergy_
  | KREIOSSamples_ | KREIOSSamplesIteration_ | KREIOSCurrentSample_
  | KREIOSPercentComplete_ | KREIOSCurrentSampleIteration_
  | KREIOSPercentCompleteIteration_
  | KREIOSAcqSpectrum_ | KREIOSAcqImage_ | KREIOSAcqVolume_
  | KREIOSRunMode_ | KREIOSOperatingMode_ | KREIOSDefine_ | KREIOSValidate_
  | KREIOSLensMode_ | KREIOSScanRange_
  | KREIOSValuesPerSample_ | KREIOSNumSlices_ | KREIOSNonEnergyChannels_
  | KREIOSNonEnergyUnits_ | KREIOSNonEnergyMin_ | KREIOSNonEnergyMax_
  | KREIOSSafeState_ | KREIOSDataDelayMax_.

#[global] Instance param_eq_dec : EqDecision param.
Proof. solve_decision. Defined.

(** [function < FIRST_KREIOS_PARAM]: the parameters of the base classes
    are created before [KREIOSConnect_]. *)
Definition before_FIRST_KREIOS_PARAM (p : param) : bool :=
  match p with
  | ADAcquire | ADStatus | ADStatusMessage | ADNumExposures
  | ADNumExposuresCounter | ADNumImages | ADNumImagesCounter | ADImageMode
  | ADAcquireTime | ADAcquirePeriod | ADModel
  | NDArraySizeX | NDArraySizeY | NDArraySize | NDDataType
  | NDArrayCallbacks | NDArrayCounter | NDArrayData => true
  | _ => false
  end.

(** ** Driver state *)

Record driver := mkDriver {
  ints : param -> option Z;
  dbls : param -> option float;
  strs : param -> option string;
  lensModes_ : list string;
  scanRanges_ : list string;
  firstConnect_ : bool;
  (** [startEventId_] and [stopEventId_]: binary events, [true] when full. *)
  startEvent : bool;
  stopEvent : bool;
  (** Requests written to the asyn port, oldest first. *)
  sent : list string;
  (** Transport results to come, one per [writeRead]. *)
  port : list (asynStatus * string);
  (** Results of the port connect and disconnect calls to come. *)
  portCtl : list asynStatus;
  (** Client integer writes to come, one batch per release of the lock. *)
  inbox : list (list (param * Z));
  (** Array callbacks made so far, oldest first. *)
  published : list (param * list Z)
}.

Definition with_ints f d := mkDriver f (dbls d) (strs d) (lensModes_ d)
  (scanRanges_ d) (firstConnect_ d) (startEvent d) (stopEvent d) (sent d)
  (port d) (portCtl d) (inbox d) (published d).
Definition with_dbls f d := mkDriver (ints d) f (strs d) (lensModes_ d)
  (scanRanges_ d) (firstConnect_ d) (startEvent d) (stopEvent d) (sent d)
  (port d) (portCtl d) (inbox d) (published d).
Definition with_strs f d := mkDriver (ints d) (dbls d) f (lensModes_ d)
  (scanRanges_ d) (firstConnect_ d) (startEvent d) (stopEvent d) (sent d)
  (port d) (portCtl d) (inbox d) (published d).
Definition with_firstConnect b d := mkDriver (ints d) (dbls d) (strs d)
  (lensModes_ d) (scanRanges_ d) b (startEvent d) (stopEvent d) (sent d)
  (port d) (portCtl d) (inbox d) (published d).
Definition with_startEvent b d := mkDriver (ints d) (dbls d) (strs d)
  (lensModes_ d) (scanRanges_ d) (firstConnect_ d) b (stopEvent d) (sent d)
  (port d) (portCtl d) (inbox d) (published d).
Definition with_stopEvent b d := mkDriver (ints d) (dbls d) (strs d)
  (lensModes_ d) (scanRanges_ d) (firstConnect_ d) (startEvent d) b (sent d)
  (port d) (portCtl d) (inbox d) (published d).
Definition with_sent l d := mkDriver (ints d) (dbls d) (strs d)
  (lensModes_ d) (scanRanges_ d) (firstConnect_ d) (startEvent d)
  (stopEvent d) l (port d) (portCtl d) (inbox d) (published d).
Definition with_port l d := mkDriver (ints d) (dbls d) (strs d)
  (lensModes_ d) (scanRanges_ d) (firstConnect_ d) (startEvent d)
  (stopEvent d) (sent d) l (portCtl d) (inbox d) (published d).
Definition with_portCtl l d := mkDriver (ints d) (dbls d) (strs d)
  (lensModes_ d) (scanRanges_ d) (firstConnect_ d) (startEvent d)
  (stopEvent d) (sent d) (port d) l (inbox d) (published d).
Definition with_inbox l d := mkDriver (ints d) (dbls d) (strs d)
  (lensModes_ d) (scanRanges_ d) (firstConnect_ d) (startEvent d)
  (stopEvent d) (sent d) (port d) (portCtl d) l (published d).
Definition with_published l d := mkDriver (ints d) (dbls d) (strs d)
  (lensModes_ d) (scanRanges_ d) (firstConnect_ d) (startEvent d)
  (stopEvent d) (sent d) (port d) (portCtl d) (inbox d) l.

Definition upd {A} (p : param) (v : A) (f : param -> option A) : param -> option A :=
  fun q => if decide (q = p) then Some v else f q.

Definition setIntegerParam (p : param) (v : Z) (d : driver) : driver :=
  with_ints (upd p v (ints d)) d.
Definition setDoubleParam (p : param) (v : float) (d : driver) : driver :=
  with_dbls (upd p v (dbls d)) d.
Definition setStringParam (p : param) (v : string) (d : driver) : driver :=
  with_strs (upd p v (strs d)) d.

(** [getIntegerParam(p, &x)]: [x] keeps its content [old] when [p] is
    undefined. *)
Definition getIntegerParam (d : driver) (p : param) (old : Z) : Z :=
  default old (ints d p).
Definition getDoubleParam (d : driver) (p : param) (old : float) : float :=
  default old (dbls d p).

(** [doCallbacksFloat64Array(buffer, n, reason, 0)]. *)
Definition doCallbacksFloat64Array (buffer : list Z) (n : Z) (reason : param)
    (d : driver) : driver :=
  with_published (published d ++ [(reason, take (Z.to_nat n) buffer)]) d.

(** ** The request/reply exchange *)

(** [Kreios::asynWriteRead]: one [writeRead] on the port.  The port appends
    the output terminator set in [Kreios::connect] and strips the input one. *)
Definition asynWriteRead (command : string) (d : driver)
    : asynStatus * string * driver :=
  let d1 := with_sent (sent d ++ [command]) d in
  match port d with
  | [] => (asynTimeout, "", d1)
  | (st, response) :: rest => (st, response, with_port rest d1)
  end.

(** The bytes of a request on the connection. *)
Definition on_wire (command : string) : string := command +:+ String LF "".

(** One turn of the token loop of [commandResponse]. *)
Definition parse_token (acc : asynStatus * gmap string string) (token : string)
    : asynStatus * gmap string string :=
  let '(status, data) := acc in
  match find_split "=" token with
  | Some (key, value) => (status, <[cleanString key := cleanString value]> data)
  | None =>
      if String.eqb (cleanString token) KREIOS_ERROR_STRING
      then (asynError, data) else (status, data)
  end.

Definition parse_response (response : string) : asynStatus * gmap string string :=
  fold_left parse_token (getline_tokens ":" response "") (asynSuccess, ∅).

(** [Kreios::commandResponse].  [data] is the caller's map: it is replaced
    when the transport succeeds and left alone otherwise. *)
Definition commandResponse (command : string) (data : gmap string string)
    (d : driver) : asynStatus * gmap string string * driver :=
  let msgCounter := getIntegerParam d KREIOSMsgCounter_ 0 in
  let d := setIntegerParam KREIOSMsgCounter_ (msgCounter + 1) d in
  let '(status, responseBuffer, d) := asynWriteRead command d in
  if is_success status then
    let '(status, data) := parse_response responseBuffer in
    (status, data, d)
  else (status, data, d).

(** [Kreios::readIntegerData]: the destination changes only when the key
    is present and converts. *)
Definition readIntegerData (data : gmap string string) (name : string)
    (value : Z) : asynStatus * Z :=
  match data !! name with
  | Some text =>
      match stoi text with
      | Some v => (asynSuccess, v)
      | None => (asynError, value)
      end
  | None => (asynError, value)
  end.

(** [data[key]] of a [std::map<std::string, std::string>] as an rvalue. *)
Definition data_at (data : gmap string string) (key : string) : string :=
  default "" (data !! key).

(** [Kreios::sendSimpleCommand]; [keep] says whether the caller passed a map
    to receive the reply ([data != NULL]). *)
Definition sendSimpleCommand (command : string) (keep : bool)
    (data : gmap string string) (d : driver)
    : asynStatus * gmap string string * driver :=
  if keep then commandResponse command data d
  else let '(status, _, d) := commandResponse command ∅ d in (status, data, d).

(** [Kreios::sendStartCommand]. *)
Definition sendStartCommand (safeAfter : bool) (d : driver) : asynStatus * driver :=
  let cmd := KREIOS_CMD_START +:+ (if safeAfter then "" else ":SafeAfter=false") in
  let '(status, _, d) := commandResponse cmd ∅ d in
  (status, d).

(** [Kreios::getAnalyserParameter(name, int&)]. *)
Definition getAnalyserParameter_int (name : string) (value : Z) (d : driver)
    : asynStatus * Z * driver :=
  let cmd := KREIOS_CMD_GET_VALUE +:+ ":Name=" +:+ name in
  let '(status, data, d) := commandResponse cmd ∅ d in
  if is_success status then
    match data !! "Value" with
    | Some text =>
        match stoi text with
        | Some v => (status, v, d)
        | None => (asynError, value, d)
        end
    | None => (status, value, d)
    end
  else (status, value, d).

(** [Kreios::validateSpectrum]. *)
Definition validateSpectrum (d : driver) : asynStatus * driver :=
  let '(status, data, d) := commandResponse KREIOS_CMD_VALIDATE ∅ d in
  if is_success status then
    let samples := snd (readIntegerData data "Samples" 0) in
    let d := setIntegerParam KREIOSSamplesIteration_ samples d in
    let valuesPerSample := snd (readIntegerData data "ValuesPerSample" 1) in
    let d := setIntegerParam KREIOSValuesPerSample_ valuesPerSample d in
    let numSlices := snd (readIntegerData data "NumberOfSlices" 1) in
    let d := setIntegerParam KREIOSNumSlices_ numSlices d in
    (status, setIntegerParam KREIOSValidate_ 1 d)
  else (status, setIntegerParam KREIOSValidate_ 0 d).

Section Driver.

(** [operator<<] of a [double], and [std::stod] at its two uses: for a scalar
    field of a reply, and for one sample of an acquisition data array. *)
Variable show_double : float -> string.
Variable stod : string -> option float.
Variable stod_sample : string -> option Z.

(** The optional [LensMode] and [ScanRange] arguments shared by the five
    definition commands. *)
Definition mode_args (d : driver) : string :=
  let lensMode := getIntegerParam d KREIOSLensMode_ 0 in
  let scanRange := getIntegerParam d KREIOSScanRange_ 0 in
  (if lensMode <? Z.of_nat (length (lensModes_ d))
   then ":LensMode=" +:+ nth (Z.to_nat lensMode) (lensModes_ d) "" else "") +:+
  (if scanRange <? Z.of_nat (length (scanRanges_ d))
   then ":ScanRange=" +:+ nth (Z.to_nat scanRange) (scanRanges_ d) "" else "").

Definition dbl_arg (d : driver) (key : string) (p : param) : string :=
  key +:+ show_double (getDoubleParam d p 0%float).

Definition defineSpectrumFAT (d : driver) : asynStatus * driver :=
  let cmd := KREIOS_CMD_DEFINE_FAT
    +:+ dbl_arg d ":StartEnergy=" KREIOSStartEnergy_
    +:+ dbl_arg d ":EndEnergy=" KREIOSEndEnergy_
    +:+ dbl_arg d ":StepWidth=" KREIOSStepWidth_
    +:+ dbl_arg d ":PassEnergy=" KREIOSPassEnergy_
    +:+ dbl_arg d ":DwellTime=" ADAcquireTime
    +:+ mode_args d in
  let '(status, _, d) := commandResponse cmd ∅ d in (status, d).

Definition defineSpectrumSFAT (d : driver) : asynStatus * driver :=
  let cmd := KREIOS_CMD_DEFINE_SFAT
    +:+ dbl_arg d ":StartEnergy=" KREIOSStartEnergy_
    +:+ dbl_arg d ":EndEnergy=" KREIOSEndEnergy_
    +:+ dbl_arg d ":StepWidth=" KREIOSStepWidth_
    +:+ dbl_arg d ":PassEnergy=" KREIOSPassEnergy_
    +:+ dbl_arg d ":DwellTime=" ADAcquireTime
    +:+ mode_args d in
  let '(status, _, d) := commandResponse cmd ∅ d in (status, d).

Definition defineSpectrumFRR (d : driver) : asynStatus * driver :=
  let cmd := KREIOS_CMD_DEFINE_FRR
    +:+ dbl_arg d ":StartEnergy=" KREIOSStartEnergy_
    +:+ dbl_arg d ":EndEnergy=" KREIOSEndEnergy_
    +:+ dbl_arg d ":StepWidth=" KREIOSStepWidth_
    +:+ dbl_arg d ":RetardingRatio=" KREIOSRetardingRatio_
    +:+ dbl_arg d ":DwellTime=" ADAcquireTime
    +:+ mode_args d in
  let '(status, _, d) := commandResponse cmd ∅ d in (status, d).

Definition defineSpectrumFE (d : driver) : asynStatus * driver :=
  let cmd := KREIOS_CMD_DEFINE_FE
    +:+ dbl_arg d ":KineticEnergy=" KREIOSKineticEnergy_
    +:+ dbl_arg d ":PassEnergy=" KREIOSPassEnergy_
    +:+ dbl_arg d ":DwellTime=" ADAcquireTime
    +:+ ":Samples=" +:+ show_int (getIntegerParam d KREIOSSamples_ 0)
    +:+ mode_args d in
  let '(status, _, d) := commandResponse cmd ∅ d in (status, d).

Definition defineSpectrumLVS (d : driver) : asynStatus * driver :=
  let cmd := KREIOS_CMD_DEFINE_LVS
    +:+ dbl_arg d ":DwellTime=" ADAcquireTime
    +:+ mode_args d in
  let '(status, _, d) := commandResponse cmd ∅ d in (status, d).

(** The [while (std::getline(ss, token, ','))] loop of
    [readAcquisitionData]: a token that does not convert is skipped. *)
Definition parse_samples (dataStr : string) : list Z :=
  omap stod_sample (getline_tokens "," dataStr "").

(** [Kreios::readAcquisitionData]: [values] is replaced only when the reply
    is accepted and carries a [Data] field. *)
Definition readAcquisitionData (startIndex endIndex : Z) (values : list Z)
    (d : driver) : asynStatus * list Z * driver :=
  let cmd := KREIOS_CMD_GET_DATA
    +:+ ":FromIndex=" +:+ show_int startIndex
    +:+ ":ToIndex=" +:+ show_int endIndex in
  let '(status, data, d) := commandResponse cmd ∅ d in
  if is_success status then
    match data !! "Data" with
    | Some dataStr => (status, parse_samples dataStr, d)
    | None => (status, values, d)
    end
  else (status, values, d).

(** [Kreios::readDoubleData]. *)
Definition readDoubleData (data : gmap string string) (name : string)
    (value : float) : asynStatus * float :=
  match data !! name with
  | Some text =>
      match stod text with
      | Some v => (asynSuccess, v)
      | None => (asynError, value)
      end
  | None => (asynError, value)
  end.

(** [Kreios::readSpectrumDataInfo(KREIOSOrdinateRange)]. *)
Definition readSpectrumDataInfo (d : driver) : asynStatus * driver :=
  let '(status, data, d) :=
    commandResponse (KREIOS_CMD_GET_DATA_INFO +:+ ":Name=OrdinateRange") ∅ d in
  if is_success status then
    let min := snd (readDoubleData data "Min" 0%float) in
    let max := snd (readDoubleData data "Max" 0%float) in
    let units := data_at data "Units" in
    let d := setDoubleParam KREIOSNonEnergyMin_ min d in
    let d := setDoubleParam KREIOSNonEnergyMax_ max d in
    (status, setStringParam KREIOSNonEnergyUnits_ units d)
  else (status, d).

End Driver.

(** ** Connection management and the integer write handler *)

(** The three port calls of [Kreios::asynPortConnect] taken as one result of
    the environment, and likewise [Kreios::asynPortDisconnect]. *)
Definition asynPortConnect (d : driver) : asynStatus * driver :=
  match portCtl d with
  | [] => (asynDisconnected, d)
  | st :: rest => (st, with_portCtl rest d)
  end.

Definition asynPortDisconnect (d : driver) : asynStatus * driver :=
  match portCtl d with
  | [] => (asynDisconnected, d)
  | st :: rest => (st, with_portCtl rest d)
  end.

(** [Kreios::connect]. *)
Definition connect (d : driver) : asynStatus * driver :=
  let '(status, d) := asynPortConnect d in
  if is_success status then
    let d := setIntegerParam KREIOSConnected_ 1 d in
    let d := setStringParam ADStatusMessage "Connected to KREIOS" d in
    (status, setIntegerParam ADStatus ADStatusIdle d)
  else
    let d := setIntegerParam KREIOSConnected_ 0 d in
    (status, setIntegerParam ADStatus ADStatusError d).

(** [Kreios::disconnect]. *)
Definition disconnect (d : driver) : asynStatus * driver :=
  let connected := getIntegerParam d KREIOSConnected_ 0 in
  if connected =? 1 then asynPortDisconnect d else (asynSuccess, d).

(** [Kreios::readDeviceVisibleName]. *)
Definition readDeviceVisibleName (d : driver) : asynStatus * driver :=
  let '(status, data, d) := commandResponse KREIOS_CMD_GET_VISNAME ∅ d in
  if is_success status then
    match data !! "VisibleName" with
    | Some name => (status, setStringParam ADModel name d)
    | None => (status, d)
    end
  else (status, d).

(** [Kreios::makeConnection]; [setupEPICSParameters] only returns
    [asynSuccess]. *)
Definition makeConnection (d : driver) : asynStatus * driver :=
  let '(status, d) := connect d in
  if is_success status && firstConnect_ d then
    let '(status, d) := readDeviceVisibleName d in
    if is_success status then
      let '(_, nonEnergyChannels, d) :=
        getAnalyserParameter_int "NumNonEnergyChannels" 0 d in
      let d := setIntegerParam KREIOSNonEnergyChannels_ nonEnergyChannels d in
      (status, with_firstConnect false d)
    else (status, d)
  else (status, d).

(** [ADDriver::writeInt32] of the base class, for the base-class parameters
    listed in [param]: it stores the value. *)
Definition ADDriver_writeInt32 (function : param) (value : Z) (d : driver)
    : asynStatus * driver :=
  (asynSuccess, setIntegerParam function value d).

(** [Kreios::writeInt32]. *)
Definition writeInt32 (function : param) (value : Z) (d : driver)
    : asynStatus * driver :=
  let acquiring := getIntegerParam d ADAcquire 0 in
  let starts := negb (value =? 0) && (acquiring =? 0) in
  let stops := (value =? 0) && negb (acquiring =? 0) in
  let d :=
    if decide (function = ADAcquire) then
      let d := if starts then setStringParam ADStatusMessage "Acquiring data" d
               else d in
      if stops then
        setIntegerParam ADStatus ADStatusAborted
          (setStringParam ADStatusMessage "Acquisition stopped" d)
      else d
    else d in
  let d := setIntegerParam function value d in
  if decide (function = ADAcquire) then
    let d := if starts then with_startEvent true d else d in
    let d := if stops then with_stopEvent true d else d in
    (asynSuccess, d)
  else if decide (function = KREIOSConnect_) then
    if value =? 1 then makeConnection d else disconnect d
  else if before_FIRST_KREIOS_PARAM function then
    ADDriver_writeInt32 function value d
  else (asynSuccess, d).

(** The driver lock is released and taken again: the next batch of client
    writes runs in between. *)
Definition apply_writes (batch : list (param * Z)) (d : driver) : driver :=
  fold_left (fun d w => snd (writeInt32 (fst w) (snd w) d)) batch d.

Definition unlocked (d : driver) : driver :=
  match inbox d with
  | [] => d
  | batch :: rest => apply_writes batch (with_inbox rest d)
  end.

(** [epicsEventWait(startEventId_)] between [unlock] and [lock]: the worker
    resumes once the event is full, and empties it; [None] when no client
    write ever fills it. *)
Fixpoint epicsEventWait_start (n : nat) (d : driver) : option driver :=
  let d := unlocked d in
  if startEvent d then Some (with_startEvent false d)
  else match n with
       | O => None
       | S n' => epicsEventWait_start n' d
       end.

(** ** Buffers and loops *)

(** What ends a run of the model before the code returns: an access of the
    received vector or of a buffer outside its bounds, a null buffer, and the
    model's own loop bound. *)
Inductive stop :=
  | ValuesOutOfRange | BufferOutOfRange | NullPointer | OutOfFuel.

Inductive res (A : Type) :=
  | Ok (a : A)
  | Stop (why : stop).
Arguments Ok {A} a.
Arguments Stop {A} why.

Definition bind {A B} (r : res A) (k : A -> res B) : res B :=
  match r with
  | Ok a => k a
  | Stop why => Stop why
  end.

Notation "'do' x <- r ; k" := (bind r (fun x => k))
  (at level 10, x binder, r at level 100, k at level 200).

(** [for (int x = lo; x < hi; x++) body], the loop variable left alone by
    the body. *)
Fixpoint for_range {St} (n : nat) (x : Z) (body : Z -> St -> res St) (s : St)
    : res St :=
  match n with
  | O => Ok s
  | S n' => do s' <- body x s; for_range n' (x + 1) body s'
  end.

Definition for_loop {St} (lo hi : Z) (body : Z -> St -> res St) (s : St)
    : res St :=
  for_range (Z.to_nat (hi - lo)) lo body s.

(** A buffer is a pointer to doubles: null, or a block of cells. *)
Definition buffer := option (list Z).

(** [values[index]] on the received vector. *)
Definition values_at (values : list Z) (index : Z) : res Z :=
  if (0 <=? index) && (index <? Z.of_nat (length values))
  then Ok (nth (Z.to_nat index) values 0)
  else Stop ValuesOutOfRange.

Definition cell (b : buffer) (i : Z) : res Z :=
  match b with
  | None => Stop NullPointer
  | Some l =>
      if (0 <=? i) && (i <? Z.of_nat (length l))
      then Ok (nth (Z.to_nat i) l 0)
      else Stop BufferOutOfRange
  end.

(** [b[i] = v]. *)
Definition assign (b : buffer) (i v : Z) : res buffer :=
  match b with
  | None => Stop NullPointer
  | Some l =>
      if (0 <=? i) && (i <? Z.of_nat (length l))
      then Ok (Some (<[Z.to_nat i := v]> l))
      else Stop BufferOutOfRange
  end.

(** [b[i] += v]. *)
Definition add_to (b : buffer) (i v : Z) : res buffer :=
  do old <- cell b i; assign b i (old + v).

(** [malloc(count * sizeof(epicsFloat64))] for an [int] element count: the
    byte count is computed in [size_t]; the allocator refuses a request
    above [PTRDIFF_MAX].  The cells of a new block are indeterminate and
    appear as zeros. *)
Definition malloc_doubles (count : Z) : buffer :=
  let bytes := ((count mod 2 ^ 64) * 8) mod 2 ^ 64 in
  if bytes <=? 2 ^ 63 - 1 then Some (replicate (Z.to_nat (bytes / 8)) 0)
  else None.

(** The accumulators of the worker and the data of the pool array. *)
Record bufs := mkBufs {
  spectrum : buffer;
  image : buffer;
  volume : buffer;
  pNDData : buffer
}.

(** ** Distribution of a received chunk (the three branches on [ndims]) *)

(** The 1-D branch: samples [currentDataPoint .. readEndDataPoint). *)
Definition store1D_body (iteration : Z) (values : list Z) (x : Z)
    (s : Z * bufs) : res (Z * bufs) :=
  let '(index, b) := s in
  do v <- values_at values index;
  if iteration =? 0 then
    do sp <- assign (spectrum b) x v;
    do nd <- assign (pNDData b) x v;
    Ok (index + 1, mkBufs sp (image b) (volume b) nd)
  else
    do sp <- add_to (spectrum b) x v;
    do nd <- add_to (pNDData b) x v;
    Ok (index + 1, mkBufs sp (image b) (volume b) nd).

Definition store1D (iteration currentDataPoint readEndDataPoint : Z)
    (values : list Z) (s : Z * bufs) : res (Z * bufs) :=
  for_loop currentDataPoint readEndDataPoint (store1D_body iteration values) s.

(** The 2-D branch: [y] over the non-energy channels, [x] over the samples
    of the chunk. *)
Definition store2D_body (iteration energyChannels : Z) (values : list Z)
    (y x : Z) (s : Z * bufs) : res (Z * bufs) :=
  let '(index, b) := s in
  do v <- values_at values index;
  do ndim <-
    (if iteration =? 0 then
       do nd <- assign (pNDData b) (y * energyChannels + x) v;
       do im <- assign (image b) (y * energyChannels + x) v;
       Ok (nd, im)
     else
       do nd <- add_to (pNDData b) (y * energyChannels + x) v;
       do im <- add_to (image b) (y * energyChannels + x) v;
       Ok (nd, im));
  do sp <- add_to (spectrum b) x v;
  Ok (index + 1, mkBufs sp (snd ndim) (volume b) (fst ndim)).

Definition store2D (iteration energyChannels nonEnergyChannels
    currentDataPoint readEndDataPoint : Z) (values : list Z) (s : Z * bufs)
    : res (Z * bufs) :=
  for_loop 0 nonEnergyChannels
    (fun y => for_loop currentDataPoint readEndDataPoint
                (store2D_body iteration energyChannels values y)) s.

(** The 3-D branch, each access guarded by [index < numRxDataPoints]. *)
Definition store3D_body (iteration energyChannels nonEnergyChannels : Z)
    (values : list Z) (z y x : Z) (s : Z * bufs) : res (Z * bufs) :=
  let '(index, b) := s in
  let numRxDataPoints := Z.of_nat (length values) in
  let flatIdx := z * (energyChannels * nonEnergyChannels) + y * energyChannels + x in
  if index <? numRxDataPoints then
    do v <- values_at values index;
    do ndvo <-
      (if iteration =? 0 then
         do nd <- assign (pNDData b) flatIdx v;
         do vo <- assign (volume b) flatIdx v;
         Ok (nd, vo)
       else
         do nd <- add_to (pNDData b) flatIdx v;
         do vo <- add_to (volume b) flatIdx v;
         Ok (nd, vo));
    do sp <- add_to (spectrum b) x v;
    Ok (index + 1, mkBufs sp (image b) (snd ndvo) (fst ndvo))
  else Ok s.

Definition store3D (iteration energyChannels nonEnergyChannels numSlices
    currentDataPoint readEndDataPoint : Z) (values : list Z) (s : Z * bufs)
    : res (Z * bufs) :=
  for_loop 0 numSlices
    (fun z => for_loop 0 nonEnergyChannels
      (fun y => for_loop currentDataPoint readEndDataPoint
        (store3D_body iteration energyChannels nonEnergyChannels values z y))) s.

(** "Store data based on dimensionality": [index] starts at 0. *)
Definition distribute (ndims iteration energyChannels nonEnergyChannels
    numSlices currentDataPoint readEndDataPoint : Z) (values : list Z)
    (b : bufs) : res bufs :=
  if ndims =? 1 then
    do s <- store1D iteration currentDataPoint readEndDataPoint values (0, b);
    Ok (snd s)
  else if ndims =? 2 then
    do s <- store2D iteration energyChannels nonEnergyChannels
              currentDataPoint readEndDataPoint values (0, b);
    Ok (snd s)
  else if ndims =? 3 then
    do s <- store3D iteration energyChannels nonEnergyChannels numSlices
              currentDataPoint readEndDataPoint values (0, b);
    Ok (snd s)
  else Ok b.

(** ** Conversions between [int] and [double] *)

(** [(double)n]. *)
Definition double_of_int (n : Z) : float :=
  if n <? 0 then PrimFloat.opp (PrimFloat.of_uint63 (Uint63.of_Z (- n)))
  else PrimFloat.of_uint63 (Uint63.of_Z n).

(** The integer part of a finite double, rounded down or toward zero. *)
Definition floorZ (x : float) : option Z :=
  match Prim2SF x with
  | S754_zero _ => Some 0
  | S754_finite s m e =>
      let n := if s then Z.neg m else Z.pos m in
      Some (if 0 <=? e then n * 2 ^ e else n / 2 ^ (- e))
  | _ => None
  end.

Definition truncZ (x : float) : option Z :=
  match Prim2SF x with
  | S754_zero _ => Some 0
  | S754_finite s m e =>
      let a := if 0 <=? e then Z.pos m * 2 ^ e else Z.pos m / 2 ^ (- e) in
      Some (if s then - a else a)
  | _ => None
  end.

(** The result of a conversion to [int]: the value when it fits, and
    otherwise (where C++ defines nothing) the "integer indefinite" value that
    x86-64 produces. *)
Definition to_int (v : option Z) : Z :=
  match v with
  | Some n => if (INT_MIN <=? n) && (n <=? INT_MAX) then n else INT_MIN
  | None => INT_MIN
  end.

(** [(int)x] and [(int)floor(x)]. *)
Definition int_of_double (x : float) : Z := to_int (truncZ x).
Definition int_of_floor (x : float) : Z := to_int (floorZ x).

(** The sample count the worker computes in snapshot mode:
    [(int)floor(((end - start) / width) + 0.5) + 1]. *)
Definition sfat_samples (start end_ width : float) : Z :=
  int_of_floor (PrimFloat.add (PrimFloat.div (PrimFloat.sub end_ start) width) 0.5%float) + 1.

(** [(int)(((double)part / (double)whole) * 100.0)]. *)
Definition percent_of (part whole : Z) : Z :=
  int_of_double
    (PrimFloat.mul (PrimFloat.div (double_of_int part) (double_of_int whole)) 100%float).

(** ** The acquisition worker *)

(** The locals of [Kreios::kreiosTask] that live across turns of its
    [while (1)]. *)
Record task := mkTask {
  t_status : asynStatus;
  t_acquire : Z;
  t_iterations : Z;
  t_runMode : Z;
  t_safeState : Z;
  t_energyChannels : Z;
  t_nonEnergyChannels : Z;
  t_numSlices : Z;
  t_ndims : Z;
  t_dims : list Z;
  t_spectrum : buffer;
  t_image : buffer;
  t_volume : buffer;
  t_data : gmap string string
}.

(** Their values when the thread starts ([ndims] and [dims] are not
    initialised by the source; they appear as zeros). *)
Definition task_init : task :=
  mkTask asynSuccess 0 1 0 1 0 0 0 0 [0; 0; 0] None None None ∅.

(** "Determine data dimensionality and allocate buffers", after the three
    pointers were freed and nulled: the new [ndims], [dims], [spectrum],
    [image] and [volume]. *)
Definition allocate (energyChannels nonEnergyChannels numSlices : Z)
    (dims : list Z) : Z * list Z * buffer * buffer * buffer :=
  let spectrum := malloc_doubles energyChannels in
  if (1 <? nonEnergyChannels) && (numSlices =? 1) then
    (2, <[1%nat := nonEnergyChannels]> (<[0%nat := energyChannels]> dims),
     spectrum, malloc_doubles (nonEnergyChannels * energyChannels), None)
  else if (1 <? nonEnergyChannels) && (1 <? numSlices) then
    (3, <[2%nat := numSlices]> (<[1%nat := nonEnergyChannels]>
          (<[0%nat := energyChannels]> dims)),
     spectrum, None,
     malloc_doubles (numSlices * energyChannels * nonEnergyChannels))
  else
    (1, <[0%nat := energyChannels]> dims, spectrum, None, None).

(** [nbytes]: the product of the first [ndims] extents times
    [sizeof(double)], each step converted back to [int]. *)
Definition frame_bytes (ndims : Z) (dims : list Z) : Z :=
  wrap32 (fold_left Z.mul (take (Z.to_nat ndims) dims) 1 * 8).

Definition is_null (b : buffer) : bool :=
  match b with None => true | Some _ => false end.

(** What the inner loops read but do not change. *)
Record shape := mkShape {
  energyChannels : Z;
  nonEnergyChannels : Z;
  numSlices : Z;
  ndims : Z;
  iterations : Z;
  safeState : Z
}.

(** The state the loops of one acquisition change. *)
Record sess := mkSess {
  s_status : asynStatus;
  s_acquire : Z;
  s_data : gmap string string;
  s_currentDataPoint : Z;
  s_numDataPoints : Z;
  s_values : list Z;
  s_bufs : bufs;
  s_drv : driver
}.

Definition with_drv (d : driver) (s : sess) : sess :=
  mkSess (s_status s) (s_acquire s) (s_data s) (s_currentDataPoint s)
    (s_numDataPoints s) (s_values s) (s_bufs s) d.

Definition KREIOS_MAX_VALUES : Z := 1000000.

(** The condition of the acquisition polling loop. *)
Definition poll_continue (k : shape) (s : sess) : bool :=
  let state := data_at (s_data s) "ControllerState" in
  negb (s_acquire s =? 0) && is_success (s_status s) &&
  ((negb (String.eqb state "finished")
    || (s_currentDataPoint s <? energyChannels k))
   && negb (String.eqb state "aborted")
   && negb (String.eqb state "error")).

(** "Update progress" and "Check for abort request", the tail of a turn. *)
Definition poll_finish (k : shape) (iteration : Z) (s : sess) : sess :=
  let d := s_drv s in
  let cur := s_currentDataPoint s in
  let d := setIntegerParam KREIOSPercentCompleteIteration_
             (percent_of cur (energyChannels k)) d in
  let d := setIntegerParam KREIOSCurrentSampleIteration_ cur d in
  let totalSamples := energyChannels k * iterations k in
  let currentTotal := iteration * energyChannels k + cur in
  let d := setIntegerParam KREIOSPercentComplete_
             (percent_of currentTotal totalSamples) d in
  let d := setIntegerParam KREIOSCurrentSample_ currentTotal d in
  let acquire := getIntegerParam d ADAcquire (s_acquire s) in
  let d :=
    if acquire =? 0 then
      let '(_, _, d) := sendSimpleCommand KREIOS_CMD_ABORT false ∅ d in
      let d := setIntegerParam ADStatus ADStatusAborted d in
      setStringParam ADStatusMessage "Acquisition aborted" d
    else d in
  mkSess (s_status s) acquire (s_data s) cur (s_numDataPoints s)
    (s_values s) (s_bufs s) d.

(** "Received too few data points". *)
Definition short_read (s : sess) : sess :=
  let '(_, _, d) := sendSimpleCommand KREIOS_CMD_ABORT false ∅ (s_drv s) in
  let d := setIntegerParam ADAcquire 0 d in
  let d := setIntegerParam ADStatus ADStatusError d in
  let d := setStringParam ADStatusMessage "KREIOS Receive Error" d in
  mkSess asynError (s_acquire s) (s_data s) (s_currentDataPoint s)
    (s_numDataPoints s) (s_values s) (s_bufs s) d.

(** The three array callbacks after a chunk was stored. *)
Definition publish (k : shape) (iteration cur : Z) (b : bufs) (d : driver)
    : driver :=
  let d := doCallbacksFloat64Array (default [] (spectrum b))
             (if iteration =? 0 then cur else energyChannels k)
             KREIOSAcqSpectrum_ d in
  let d :=
    match image b with
    | Some im =>
        doCallbacksFloat64Array im
          (if iteration =? 0 then cur * nonEnergyChannels k
           else energyChannels k * nonEnergyChannels k)
          KREIOSAcqImage_ d
    | None => d
    end in
  match volume b with
  | Some vo =>
      doCallbacksFloat64Array vo
        (energyChannels k * nonEnergyChannels k * numSlices k)
        KREIOSAcqVolume_ d
  | None => d
  end.

(** The end of the sample range of the next read: "Limit read request
    size". *)
Definition read_end (k : shape) (cur numDataPoints : Z) : Z :=
  if KREIOS_MAX_VALUES <? (numDataPoints - cur) * nonEnergyChannels k
  then cur + Z.quot KREIOS_MAX_VALUES (nonEnergyChannels k)
  else numDataPoints.

Section Worker.

Variable show_double : float -> string.
Variable stod : string -> option float.
Variable stod_sample : string -> option Z.

(** The head of a turn of the polling loop: the sleep with the lock
    released, the status request, and the count of acquired points. *)
Definition poll_status (s : sess) : sess :=
  let d := unlocked (s_drv s) in
  let '(status, data, d) :=
    sendSimpleCommand KREIOS_CMD_GET_STATUS true (s_data s) d in
  let data :=
    match data !! "Code" with
    | Some _ => <["ControllerState" := "error"]> data
    | None => data
    end in
  let numDataPoints :=
    snd (readIntegerData data "NumberOfAcquiredPoints" (s_numDataPoints s)) in
  mkSess status (s_acquire s) data (s_currentDataPoint s) numDataPoints
    (s_values s) (s_bufs s) d.

(** "Check for available data" up to the read of the new samples: the end
    of the range asked for, and the state with the received vector. *)
Definition poll_fetch (k : shape) (s : sess) : Z * sess :=
  let cur := s_currentDataPoint s in
  let d := s_drv s in
  let d :=
    if cur =? 0 then
      let d := setIntegerParam ADStatus ADStatusAcquire d in
      let d := setStringParam ADStatusMessage "Acquiring data..." d in
      snd (readSpectrumDataInfo stod d)
    else d in
  let readEndDataPoint := read_end k cur (s_numDataPoints s) in
  let '(_, values, d) :=
    readAcquisitionData stod_sample cur (readEndDataPoint - 1) (s_values s) d in
  (readEndDataPoint,
   mkSess (s_status s) (s_acquire s) (s_data s) cur (s_numDataPoints s)
     values (s_bufs s) d).

(** The test on [numRxDataPoints]. *)
Definition is_short (k : shape) (readEndDataPoint : Z) (s : sess) : bool :=
  Z.of_nat (length (s_values s))
    <? (readEndDataPoint - s_currentDataPoint s) * nonEnergyChannels k.

(** "Store data based on dimensionality" and the callbacks. *)
Definition consume (k : shape) (iteration readEndDataPoint : Z) (s : sess)
    : res sess :=
  do b <- distribute (ndims k) iteration (energyChannels k)
            (nonEnergyChannels k) (numSlices k) (s_currentDataPoint s)
            readEndDataPoint (s_values s) (s_bufs s);
  Ok (mkSess (s_status s) (s_acquire s) (s_data s) readEndDataPoint
        (s_numDataPoints s) (s_values s) b
        (publish k iteration readEndDataPoint b (s_drv s))).

(** One turn of the acquisition polling loop. *)
Definition poll_body (k : shape) (iteration : Z) (s : sess) : res sess :=
  let s := poll_status s in
  if s_currentDataPoint s <? s_numDataPoints s then
    let '(readEndDataPoint, s) := poll_fetch k s in
    if is_short k readEndDataPoint s then Ok (short_read s)
    else
      do s <- consume k iteration readEndDataPoint s;
      Ok (poll_finish k iteration s)
  else Ok (poll_finish k iteration s).

Fixpoint pollLoop (fuel : nat) (k : shape) (iteration : Z) (s : sess)
    : res sess :=
  if poll_continue k s then
    match fuel with
    | O => Stop OutOfFuel
    | S fuel' =>
        do s' <- poll_body k iteration s;
        pollLoop fuel' k iteration s'
    end
  else Ok s.

(** The head of a turn of "Loop over iterations". *)
Definition begin_iteration (k : shape) (s : sess) : sess :=
  let '(_, _, d) := sendSimpleCommand KREIOS_CMD_CLEAR false ∅ (s_drv s) in
  let '(_, d) := sendStartCommand (negb (safeState k =? 0)) d in
  let '(_, data, d) :=
    sendSimpleCommand KREIOS_CMD_GET_STATUS true (s_data s) d in
  mkSess (s_status s) (s_acquire s) data 0 0 [] (s_bufs s) d.

(** A polling loop ends at the latest when the transport results run out:
    one more turn than there are results left is enough. *)
Definition poll_fuel (s : sess) : nat := S (length (port (s_drv s))).

(** "Loop over iterations", [n] turns from [iteration] on. *)
Fixpoint iterLoop (n : nat) (k : shape) (iteration : Z) (s : sess)
    : res sess :=
  match n with
  | O => Ok s
  | S n' =>
      if s_acquire s =? 1 then
        let s := begin_iteration k s in
        do s <- pollLoop (poll_fuel s) k iteration s;
        iterLoop n' k (iteration + 1) s
      else Ok s
  end.

(** The [switch (runMode)]; its [default] only logs "Invalid run mode
    specified" and leaves [status] as it is. *)
Definition define_spectrum (runMode : Z) (status : asynStatus) (d : driver)
    : asynStatus * driver :=
  if runMode =? KREIOS_RUN_FAT then defineSpectrumFAT show_double d
  else if runMode =? KREIOS_RUN_SFAT then defineSpectrumSFAT show_double d
  else if runMode =? KREIOS_RUN_FRR then defineSpectrumFRR show_double d
  else if runMode =? KREIOS_RUN_FE then defineSpectrumFE show_double d
  else if runMode =? KREIOS_RUN_LVS then defineSpectrumLVS show_double d
  else (status, d).

(** "Read energy channels from validation" and "Handle snapshot mode energy
    channel calculation": the samples per iteration of the session. *)
Definition session_samples (runMode iterations old : Z) (d : driver)
    : Z * driver :=
  let energyChannels := getIntegerParam d KREIOSSamplesIteration_ old in
  let d := setIntegerParam KREIOSSamples_ (energyChannels * iterations) d in
  if runMode =? KREIOS_RUN_SFAT then
    let start := getDoubleParam d KREIOSStartEnergy_ 0%float in
    let end_ := getDoubleParam d KREIOSEndEnergy_ 0%float in
    let width := getDoubleParam d KREIOSStepWidth_ 0%float in
    let energyChannels := sfat_samples start end_ width in
    let d := setIntegerParam KREIOSSamplesIteration_ energyChannels d in
    (energyChannels, setIntegerParam KREIOSSamples_ (energyChannels * iterations) d)
  else (energyChannels, d).

(** "Set size parameters". *)
Definition publish_shape (energyChannels nonEnergyChannels ndims : Z)
    (dims : list Z) (d : driver) : driver :=
  let d := setIntegerParam NDArraySizeX energyChannels d in
  let d := if 2 <=? ndims then setIntegerParam NDArraySizeY nonEnergyChannels d
           else d in
  setIntegerParam NDArraySize (frame_bytes ndims dims) d.

(** The body of [if (!acquire)] after the start event arrived. *)
Definition prepare (t : task) (d : driver) : task * driver :=
  let acquire := getIntegerParam d ADAcquire (t_acquire t) in
  let d := setIntegerParam KREIOSPauseAcq_ 0 d in
  let iterations := getIntegerParam d ADNumExposures (t_iterations t) in
  let '(status, nonEnergyChannels, d) :=
    getAnalyserParameter_int "NumNonEnergyChannels" (t_nonEnergyChannels t) d in
  let d := if is_success status
           then setIntegerParam KREIOSNonEnergyChannels_ nonEnergyChannels d
           else d in
  let nonEnergyChannels :=
    getIntegerParam d KREIOSValuesPerSample_ nonEnergyChannels in
  let nonEnergyChannels :=
    if nonEnergyChannels <? 1 then 1 else nonEnergyChannels in
  let numSlices := getIntegerParam d KREIOSNumSlices_ (t_numSlices t) in
  let numSlices := if numSlices <? 1 then 1 else numSlices in
  let '(status, runMode, d) :=
    if is_success status then
      let '(_, _, d) := sendSimpleCommand KREIOS_CMD_CLEAR false ∅ d in
      let runMode := getIntegerParam d KREIOSRunMode_ (t_runMode t) in
      let '(status, d) := define_spectrum runMode status d in
      (status, runMode, d)
    else (status, t_runMode t, d) in
  let '(status, d) :=
    if is_success status then validateSpectrum d else (status, d) in
  if is_success status then
    let '(energyChannels, d) :=
      session_samples runMode iterations (t_energyChannels t) d in
    let '(ndims, dims, spectrum, image, volume) :=
      allocate energyChannels nonEnergyChannels numSlices (t_dims t) in
    let status :=
      if is_null spectrum || ((2 <=? ndims) && is_null image && is_null volume)
      then asynError else status in
    let d := publish_shape energyChannels nonEnergyChannels ndims dims d in
    (mkTask status acquire iterations runMode (t_safeState t) energyChannels
       nonEnergyChannels numSlices ndims dims spectrum image volume (t_data t),
     d)
  else
    (mkTask status acquire iterations runMode (t_safeState t)
       (t_energyChannels t) nonEnergyChannels numSlices (t_ndims t) (t_dims t)
       (t_spectrum t) (t_image t) (t_volume t) (t_data t),
     d).

(** The body of [if (!acquire)] up to the wait for the start event.  [None]:
    the event never comes and the worker stays in the wait. *)
Definition await_start (t : task) (d : driver) : option driver :=
  let d := setIntegerParam KREIOSPauseAcq_ 0 d in
  let d :=
    if is_success (t_status t) then
      let d := setStringParam ADStatusMessage "Waiting for acquire command" d in
      let adstatus := getIntegerParam d ADStatus 0 in
      if negb (adstatus =? ADStatusAborted) && negb (adstatus =? ADStatusError)
      then setIntegerParam ADStatus ADStatusIdle d
      else d
    else d in
  let d := setIntegerParam ADNumExposuresCounter 0 d in
  let d := setIntegerParam ADNumImagesCounter 0 d in
  epicsEventWait_start (length (inbox d)) d.

(** "Initialize buffers". *)
Definition zero_cells (n : Z) (b : buffer) : res buffer :=
  for_loop 0 n (fun x b => assign b x 0) b.

Definition zero_if_set (n : Z) (b : buffer) : res buffer :=
  if is_null b then Ok b else zero_cells n b.

(** [pNDArrayPool->alloc(ndims, dims, dataType, 0, NULL)] for the data type
    [NDFloat64]: a block of as many doubles as the extents multiply to. *)
Definition pool_alloc (ndims : Z) (dims : list Z) : buffer :=
  Some (replicate (Z.to_nat (fold_left Z.mul (take (Z.to_nat ndims) dims) 1)) 0).

(** "Acquisition complete". *)
Definition complete (s : sess) : driver :=
  let d := s_drv s in
  if negb (s_acquire s =? 0) && is_success (s_status s) then
    let d := setIntegerParam ADStatus ADStatusIdle d in
    let d := setStringParam ADStatusMessage "Acquisition complete" d in
    let d := setIntegerParam KREIOSPercentComplete_ 100 d in
    let d := setIntegerParam KREIOSPercentCompleteIteration_ 100 d in
    let arrayCallbacks := getIntegerParam d NDArrayCallbacks 0 in
    let imageCounter := getIntegerParam d NDArrayCounter 0 + 1 in
    let d := setIntegerParam NDArrayCounter imageCounter d in
    if arrayCallbacks =? 0 then d
    else with_published
           (published d ++ [(NDArrayData, default [] (pNDData (s_bufs s)))]) d
  else d.

(** The [else] of "Check for errors": one acquisition, from "Initialize
    buffers" to the reset of [ADAcquire]. *)
Definition acquire_session (t : task) (d : driver) : res (task * driver) :=
  let nS := t_energyChannels t in
  let nV := t_nonEnergyChannels t in
  let nN := t_numSlices t in
  do sp <- zero_cells nS (t_spectrum t);
  do im <- zero_if_set (nS * nV) (t_image t);
  do vo <- zero_if_set (nS * nV * nN) (t_volume t);
  let nd := pool_alloc (t_ndims t) (t_dims t) in
  let d := setIntegerParam KREIOSPercentCompleteIteration_ 0 d in
  let d := setIntegerParam KREIOSCurrentSampleIteration_ 0 d in
  let d := setIntegerParam KREIOSPercentComplete_ 0 d in
  let d := setIntegerParam KREIOSCurrentSample_ 0 d in
  let safeState := getIntegerParam d KREIOSSafeState_ (t_safeState t) in
  let d := setIntegerParam ADStatus ADStatusInitializing d in
  let d := setStringParam ADStatusMessage "Executing pre-scan..." d in
  let k := mkShape nS nV nN (t_ndims t) (t_iterations t) safeState in
  let s := mkSess (t_status t) (t_acquire t) (t_data t) 0 0 []
             (mkBufs sp im vo nd) d in
  do s <- iterLoop (Z.to_nat (t_iterations t)) k 0 s;
  let d := complete s in
  let d := setIntegerParam ADAcquire 0 d in
  Ok (mkTask (s_status s) (s_acquire s) (t_iterations t) (t_runMode t)
        safeState nS nV nN (t_ndims t) (t_dims t) (spectrum (s_bufs s))
        (image (s_bufs s)) (volume (s_bufs s)) (s_data s),
      d).

(** How one turn of [while (1)] ends. *)
Inductive outcome :=
  | Waiting
  | Returned (t : task) (d : driver)
  | Stopped (why : stop).

(** One turn of the [while (1)] of [Kreios::kreiosTask]. *)
Definition kreiosTask_pass (t : task) (d : driver) : outcome :=
  let acquire := getIntegerParam d ADAcquire (t_acquire t) in
  let ready :=
    if acquire =? 0 then
      match await_start t d with
      | Some d => Some (prepare t d)
      | None => None
      end
    else Some (t, d) in
  match ready with
  | None => Waiting
  | Some (t, d) =>
      if is_success (t_status t) then
        match acquire_session t d with
        | Ok (t, d) => Returned t d
        | Stop why => Stopped why
        end
      else
        let d := setIntegerParam ADAcquire 0 d in
        let d := setIntegerParam ADStatus ADStatusError d in
        Returned
          (mkTask (t_status t) 0 (t_iterations t) (t_runMode t) (t_safeState t)
             (t_energyChannels t) (t_nonEnergyChannels t) (t_numSlices t)
             (t_ndims t) (t_dims t) (t_spectrum t) (t_image t) (t_volume t)
             (t_data t))
          d
  end.

(** [Kreios::kreiosTask] for a number of turns. *)
Fixpoint kreiosTask (turns : nat) (t : task) (d : driver) : outcome :=
  match turns with
  | O => Returned t d
  | S n =>
      match kreiosTask_pass t d with
      | Returned t d => kreiosTask n t d
      | o => o
      end
  end.

End Worker.

(** ** Vocabulary of the statements *)

(** The command token of a request: its text before the first [:]. *)
Fixpoint cmd_name (c : string) : string :=
  match c with
  | EmptyString => EmptyString
  | String ch rest => if Ascii.eqb ch ":" then EmptyString else String ch (cmd_name rest)
  end.

Definition named (names : list string) (c : string) : bool :=
  existsb (String.eqb (cmd_name c)) names.

Definition names_incl (a b : list string) : bool :=
  forallb (fun x => existsb (String.eqb x) b) a.

Definition pmem (p : param) (ws : list param) : bool :=
  existsb (fun q => bool_decide (p = q)) ws.

Definition pincl (a b : list param) : bool :=
  forallb (fun p => pmem p b) a.

(** [io names d d']: from [d] to [d'] the driver wrote only requests whose
    command token is in [names], and used up transport results. *)
Record io (names : list string) (d d' : driver) : Prop := mk_io {
  io_sent : exists l, sent d' = sent d ++ l /\ forallb (named names) l = true;
  io_port : (length (port d') <= length (port d))%nat
}.

(** [evolves names ws d d']: moreover every parameter outside [ws] kept its
    value, and the events, the client writes to come and the array
    callbacks are as they were. *)
Record evolves (names : list string) (ws : list param) (d d' : driver) : Prop := mk_evolves {
  ev_io : io names d d';
  ev_ints : forall p, pmem p ws = false -> ints d' p = ints d p;
  ev_dbls : forall p, pmem p ws = false -> dbls d' p = dbls d p;
  ev_strs : forall p, pmem p ws = false -> strs d' p = strs d p;
  ev_start : startEvent d' = startEvent d;
  ev_inbox : inbox d' = inbox d;
  ev_published : published d' = published d
}.

(** Which stops a result may be. *)
Definition stops_only {A} (P : stop -> Prop) (r : res A) : Prop :=
  match r with
  | Ok _ => True
  | Stop why => P why
  end.

Definition buffer_stop (why : stop) : Prop :=
  why = BufferOutOfRange \/ why = NullPointer.

(** ** What each operation may write and send *)

(** The parameters an operation may change and the command tokens it may
    send, for the frame statements. *)
Definition validate_params : list param :=
  [KREIOSMsgCounter_; KREIOSSamplesIteration_; KREIOSValuesPerSample_;
   KREIOSNumSlices_; KREIOSValidate_].

Definition define_names : list string :=
  [KREIOS_CMD_DEFINE_FAT; KREIOS_CMD_DEFINE_SFAT; KREIOS_CMD_DEFINE_FRR;
   KREIOS_CMD_DEFINE_FE; KREIOS_CMD_DEFINE_LVS].

Definition data_info_params : list param :=
  [KREIOSMsgCounter_; KREIOSNonEnergyMin_; KREIOSNonEnergyMax_;
   KREIOSNonEnergyUnits_].

(** A turn of a store loop that finds its value in range either advances
    [index] by one or stops on a buffer. *)
Definition advances (index : Z) (r : res (Z * bufs)) : Prop :=
  match r with
  | Ok s => fst s = index + 1
  | Stop why => buffer_stop why
  end.

Definition connect_params : list param :=
  [KREIOSMsgCounter_; KREIOSConnected_; ADStatusMessage; ADStatus; ADModel;
   KREIOSNonEnergyChannels_].

Definition connect_names : list string :=
  [KREIOS_CMD_GET_VISNAME; KREIOS_CMD_GET_VALUE].

(** Every command token of the protocol the driver uses. *)
Definition all_names : list string :=
  [KREIOS_CMD_GET_VISNAME; KREIOS_CMD_GET_VALUE; KREIOS_CMD_GET_STATUS;
   KREIOS_CMD_GET_DATA_INFO; KREIOS_CMD_GET_DATA; KREIOS_CMD_ABORT;
   KREIOS_CMD_CLEAR; KREIOS_CMD_START; KREIOS_CMD_VALIDATE;
   KREIOS_CMD_DEFINE_FAT; KREIOS_CMD_DEFINE_SFAT; KREIOS_CMD_DEFINE_FRR;
   KREIOS_CMD_DEFINE_FE; KREIOS_CMD_DEFINE_LVS].

Definition fetch_params : list param :=
  [KREIOSMsgCounter_; KREIOSNonEnergyMin_; KREIOSNonEnergyMax_;
   KREIOSNonEnergyUnits_; ADStatus; ADStatusMessage].

Definition short_read_params : list param :=
  [KREIOSMsgCounter_; ADAcquire; ADStatus; ADStatusMessage].

Definition prepare_params : list param :=
  [KREIOSMsgCounter_; KREIOSNonEnergyChannels_;
   KREIOSSamplesIteration_; KREIOSValuesPerSample_; KREIOSNumSlices_;
   KREIOSValidate_; KREIOSSamples_; NDArraySizeX; NDArraySizeY; NDArraySize].

Definition prepare_names : list string :=
  [KREIOS_CMD_GET_VALUE; KREIOS_CMD_CLEAR; KREIOS_CMD_VALIDATE;
   KREIOS_CMD_DEFINE_FAT; KREIOS_CMD_DEFINE_SFAT; KREIOS_CMD_DEFINE_FRR;
   KREIOS_CMD_DEFINE_FE; KREIOS_CMD_DEFINE_LVS].

(** The worker is at the head of its loop with nothing to acquire, as it
    is when the thread starts and after every turn. *)
Definition idle (t : task) (d : driver) : Prop :=
  getIntegerParam d ADAcquire (t_acquire t) = 0.

(** ** Concrete driver states *)

(** The integer and double parameters after the constructor: the defaults
    [Kreios::Kreios] sets, over those of the ADDriver base class. *)
Definition ints_constructed (p : param) : option Z :=
  match p with
  | ADAcquire | ADNumExposuresCounter | ADNumImagesCounter | NDArrayCounter
  | KREIOSConnected_ | KREIOSPauseAcq_ | KREIOSMsgCounter_
  | KREIOSPercentComplete_ | KREIOSCurrentSample_ | KREIOSSamplesIteration_
  | KREIOSPercentCompleteIteration_ | KREIOSCurrentSampleIteration_ => Some 0
  | ADStatus => Some ADStatusIdle
  | ADNumExposures | ADNumImages | NDArrayCallbacks
  | KREIOSSafeState_ | KREIOSValuesPerSample_ | KREIOSNumSlices_
  | KREIOSNonEnergyChannels_ => Some 1
  | _ => None
  end.

Definition dbls_constructed (p : param) : option float :=
  match p with
  | KREIOSDataDelayMax_ => Some 5%float
  | ADAcquireTime => Some 1%float
  | _ => None
  end.

(** A driver with the given integer and double parameters, transport
    results and client writes to come. *)
Definition driver_with (iparams : param -> option Z)
    (dparams : param -> option float)
    (results : list string) (writes : list (list (param * Z))) : driver :=
  mkDriver iparams dparams (fun _ => None) [] [] true false false []
    (map (fun r => (asynSuccess, r)) results) [] writes [].

(** Whole-valued renderings for the text conversions of the examples. *)
Definition show_whole (x : float) : string := show_int (int_of_double x).
Definition stod_whole (s : string) : option float :=
  match stoi s with
  | Some n => Some (double_of_int n)
  | None => None
  end.

(** ** Predicates of the statements *)

(** A request in the framing [?HHHH Cmd ...] terminated by LF. *)
Definition is_hex (c : ascii) : bool :=
  let n := nat_of_ascii c in
  ((Nat.leb 48 n && Nat.leb n 57) || (Nat.leb 65 n && Nat.leb n 70)
   || (Nat.leb 97 n && Nat.leb n 102))%nat.

Fixpoint ends_with_LF (s : string) : bool :=
  match s with
  | EmptyString => false
  | String c EmptyString => Ascii.eqb c LF
  | String _ rest => ends_with_LF rest
  end.

Definition framed_request (w : string) : bool :=
  match w with
  | String "?" (String h1 (String h2 (String h3 (String h4 (String " " rest))))) =>
      is_hex h1 && is_hex h2 && is_hex h3 && is_hex h4 && ends_with_LF rest
  | _ => false
  end.



(** ** Scenarios: a scripted server and client *)

(** Replies to the four requests of a preparation: the analyser parameter,
    [ClearSpectrum], the definition, and the validation. *)
Definition setup_replies (validation : string) : list string :=
  ["OK:Value=1"; "OK"; "OK"; validation].

(** Replies to the requests of one iteration in which the server reports
    [points] samples at the first poll and delivers [data] for them. *)
Definition iteration_replies (points data : string) : list string :=
  ["OK"; "OK"; "OK:ControllerState=running:NumberOfAcquiredPoints=0";
   "OK:ControllerState=finished:NumberOfAcquiredPoints=" +:+ points;
   "OK:Min=0:Max=1"; "OK:Data=" +:+ data].

(** One client write of acquire = 1 while the worker waits. *)
Definition start_write : list (list (param * Z)) := [[(ADAcquire, 1)]].

(** A 1-D session of three iterations of two samples, every value 5. *)
Definition session_1d : driver :=
  driver_with (upd ADNumExposures 3 (upd KREIOSRunMode_ KREIOS_RUN_FAT ints_constructed))
    dbls_constructed
    (setup_replies "OK:Samples=2:ValuesPerSample=1:NumberOfSlices=1"
     ++ iteration_replies "2" "5,5" ++ iteration_replies "2" "5,5"
     ++ iteration_replies "2" "5,5")
    start_write.

(** A 2-D session of one iteration: two samples of two values. *)
Definition session_2d : driver :=
  driver_with (upd KREIOSValuesPerSample_ 2
                 (upd KREIOSRunMode_ KREIOS_RUN_FAT ints_constructed))
    dbls_constructed
    (setup_replies "OK:Samples=2:ValuesPerSample=2:NumberOfSlices=1"
     ++ iteration_replies "2" "10,20,30,40")
    start_write.

(** The worker's turn on a scenario, with the whole-valued conversions. *)
Definition turn (d : driver) : outcome :=
  kreiosTask_pass show_whole stod_whole stoi task_init d.


Definition stop_of_turn (o : outcome) : option stop :=
  match o with
  | Stopped why => Some why
  | _ => None
  end.



(** A 1-D session of three iterations of two samples whose first read
    returns one value for the two samples asked for. *)
Definition session_short : driver :=
  driver_with (upd ADNumExposures 3 (upd KREIOSRunMode_ KREIOS_RUN_FAT ints_constructed))
    dbls_constructed
    (setup_replies "OK:Samples=2:ValuesPerSample=1:NumberOfSlices=1"
     ++ iteration_replies "2" "5"
     ++ ["OK"; "OK"; "OK"; "OK:ControllerState=running";
         "OK"; "OK"; "OK:ControllerState=running"])
    start_write.


(** A session in snapshot mode from 100 to 110 in steps of 1 whose
    validation reports 7 samples. *)
Definition session_sfat : driver :=
  driver_with (upd KREIOSRunMode_ KREIOS_RUN_SFAT ints_constructed)
    (upd KREIOSStartEnergy_ 100%float
       (upd KREIOSEndEnergy_ 110%float
          (upd KREIOSStepWidth_ 1%float dbls_constructed)))
    (setup_replies "OK:Samples=7:ValuesPerSample=1:NumberOfSlices=1")
    start_write.




(** The worker's spectrum accumulator after a turn. *)
Definition final_spectrum (o : outcome) : buffer :=
  match o with
  | Returned t _ => t_spectrum t
  | _ => None
  end.

(** The content of cell [x] of a block. *)
Definition peek (l : list Z) (x : Z) : Z := nth (Z.to_nat x) l 0.

(** What a store of [v] leaves in a cell that held [old]. *)
Definition stored (iteration old v : Z) : Z :=
  if iteration =? 0 then v else old + v.

(** Cell [x] after the chunk of samples [[c, e)] went into a block. *)
Definition after_chunk (iteration c e : Z) (values l : list Z) (x : Z) : Z :=
  if (c <=? x) && (x <? e)
  then stored iteration (peek l x) (peek values (x - c))
  else peek l x.


(** The zeroed accumulators and frame data of a 2-D session of [nS] samples
    of [nV] values, and of a 3-D session of [nN] slices. *)
Definition zeroed_2d (nS nV : nat) : bufs :=
  mkBufs (Some (replicate nS 0)) (Some (replicate (nS * nV) 0)) None
    (Some (replicate (nS * nV) 0)).

Definition zeroed_3d (nS nV nN : nat) : bufs :=
  mkBufs (Some (replicate nS 0)) None (Some (replicate (nS * nV * nN) 0))
    (Some (replicate (nS * nV * nN) 0)).

(** The image accumulator after a turn. *)
Definition final_image (o : outcome) : buffer :=
  match o with
  | Returned t _ => t_image t
  | _ => None
  end.

(** A session whose run mode is none of the five of kreios.h; the server
    answers the analyser parameter, [ClearSpectrum] and the validation, and
    then one iteration of two samples. *)
Definition session_invalid_mode : driver :=
  driver_with (upd KREIOSRunMode_ 5 ints_constructed) dbls_constructed
    (["OK:Value=1"; "OK"; "OK:Samples=2:ValuesPerSample=1:NumberOfSlices=1"]
     ++ iteration_replies "2" "5,5")
    start_write.

(** The requests of a turn, oldest first. *)
Definition requests (o : outcome) : list string :=
  match o with
  | Returned _ d => sent d
  | _ => []
  end.

(** The status and message the turn leaves. *)
Definition final_state (o : outcome) : option Z * option string :=
  match o with
  | Returned _ d => (ints d ADStatus, strs d ADStatusMessage)
  | _ => (None, None)
  end.

(** Whether a request is one of the five spectrum definitions, and whether it
    is the start command. *)
Definition is_define (c : string) : bool :=
  named [KREIOS_CMD_DEFINE_FAT; KREIOS_CMD_DEFINE_SFAT; KREIOS_CMD_DEFINE_FRR;
         KREIOS_CMD_DEFINE_FE; KREIOS_CMD_DEFINE_LVS] c.

Definition is_start (c : string) : bool := named [KREIOS_CMD_START] c.

(** ** Vocabulary for the text helpers *)

(** Every character of [s] is in [search]; the first character of [s] is. *)
Fixpoint all_in (search s : string) : bool :=
  match s with
  | EmptyString => true
  | String c s' => mem_char c search && all_in search s'
  end.

Definition head_in (search s : string) : bool :=
  match s with
  | EmptyString => false
  | String c _ => mem_char c search
  end.

(** The tokens written back, each followed by the delimiter. *)
Fixpoint unsplit (delim : ascii) (tokens : list string) : string :=
  match tokens with
  | [] => ""
  | t :: rest => t +:+ String delim (unsplit delim rest)
  end.

(** A text that is empty or ends with the delimiter. *)
Fixpoint terminated (delim : ascii) (s : string) : bool :=
  match s with
  | EmptyString => true
  | String c EmptyString => Ascii.eqb c delim
  | String _ s' => terminated delim s'
  end.

(** The value of a decimal numeral read after [acc]. *)
Fixpoint uint_val (u : Decimal.uint) (acc : Z) : Z :=
  match u with
  | Decimal.Nil => acc
  | Decimal.D0 l => uint_val l (10 * acc + 0)
  | Decimal.D1 l => uint_val l (10 * acc + 1)
  | Decimal.D2 l => uint_val l (10 * acc + 2)
  | Decimal.D3 l => uint_val l (10 * acc + 3)
  | Decimal.D4 l => uint_val l (10 * acc + 4)
  | Decimal.D5 l => uint_val l (10 * acc + 5)
  | Decimal.D6 l => uint_val l (10 * acc + 6)
  | Decimal.D7 l => uint_val l (10 * acc + 7)
  | Decimal.D8 l => uint_val l (10 * acc + 8)
  | Decimal.D9 l => uint_val l (10 * acc + 9)
  end.

(** ** Vocabulary for replies *)

(** A token without [=] that reads [ERROR] once cleaned. *)
Definition bare_error (token : string) : bool :=
  match find_split "=" token with
  | Some _ => false
  | None => String.eqb (cleanString token) KREIOS_ERROR_STRING
  end.

(** The field a token with [=] adds to the map. *)
Definition store_field (data : gmap string string) (token : string)
    : gmap string string :=
  match find_split "=" token with
  | Some (key, value) => <[cleanString key := cleanString value]> data
  | None => data
  end.

(** A key or value as the reply parser leaves it. *)
Definition clean_field (k v : string) : Prop :=
  cleanString k = k /\ cleanString v = v /\
  mem_char ":" k = false /\ mem_char "=" k = false /\ mem_char ":" v = false.

(** ** The analyser parameter commands *)

Definition KREIOS_CMD_GET_INFO : string := "GetAnalyzerParameterInfo".
Definition KREIOS_CMD_SET_VALUE : string := "SetAnalyzerParameterValue".
Definition KREIOS_CMD_GET_SPECTRUM : string := "GetSpectrumParameterInfo".
Definition KREIOS_TYPE_DOUBLE : string := "double".
Definition KREIOS_TYPE_INTEGER : string := "integer".
Definition KREIOS_TYPE_STRING : string := "string".
Definition KREIOS_TYPE_BOOL : string := "bool".

Inductive KREIOSValueType_t :=
  | KREIOSTypeDouble | KREIOSTypeInteger | KREIOSTypeString | KREIOSTypeBool.

(** [Kreios::getAnalyserParameterType]. *)
Definition getAnalyserParameterType (name : string) (value : KREIOSValueType_t)
    (d : driver) : asynStatus * KREIOSValueType_t * driver :=
  let cmd := KREIOS_CMD_GET_INFO +:+ ":Name=" +:+ name in
  let '(status, data, d) := commandResponse cmd ∅ d in
  if is_success status then
    match data !! "Type" with
    | Some type =>
        (status,
         if String.eqb type KREIOS_TYPE_DOUBLE then KREIOSTypeDouble
         else if String.eqb type KREIOS_TYPE_INTEGER then KREIOSTypeInteger
         else if String.eqb type KREIOS_TYPE_STRING then KREIOSTypeString
         else if String.eqb type KREIOS_TYPE_BOOL then KREIOSTypeBool
         else value,
         d)
    | None => (status, value, d)
    end
  else (status, value, d).

(** [::tolower] in the C locale, and [std::transform] with it. *)
Definition tolower (c : ascii) : ascii :=
  let n := nat_of_ascii c in
  if (Nat.leb 65 n && Nat.leb n 90)%nat then ascii_of_nat (n + 32) else c.

Fixpoint lowercase (s : string) : string :=
  match s with
  | EmptyString => EmptyString
  | String c s' => String (tolower c) (lowercase s')
  end.

(** [Kreios::getAnalyserParameter(name, std::string&)]. *)
Definition getAnalyserParameter_string (name : string) (value : string)
    (d : driver) : asynStatus * string * driver :=
  let cmd := KREIOS_CMD_GET_VALUE +:+ ":Name=" +:+ name in
  let '(status, data, d) := commandResponse cmd ∅ d in
  if is_success status then
    match data !! "Value" with
    | Some text => (status, text, d)
    | None => (status, value, d)
    end
  else (status, value, d).

(** [Kreios::getAnalyserParameter(name, bool&)]. *)
Definition getAnalyserParameter_bool (name : string) (value : bool)
    (d : driver) : asynStatus * bool * driver :=
  let cmd := KREIOS_CMD_GET_VALUE +:+ ":Name=" +:+ name in
  let '(status, data, d) := commandResponse cmd ∅ d in
  if is_success status then
    match data !! "Value" with
    | Some text =>
        let val := lowercase text in
        (status, String.eqb val "true" || String.eqb val "1", d)
    | None => (status, value, d)
    end
  else (status, value, d).

(** [Kreios::setAnalyserParameter(name, int)] and
    [Kreios::setAnalyserParameter(name, std::string)]. *)
Definition setAnalyserParameter_int (name : string) (value : Z) (d : driver)
    : asynStatus * driver :=
  let cmd := KREIOS_CMD_SET_VALUE +:+ ":Name=" +:+ name
             +:+ ":Value=" +:+ show_int value in
  let '(status, _, d) := commandResponse cmd ∅ d in (status, d).

Definition setAnalyserParameter_string (name : string) (value : string)
    (d : driver) : asynStatus * driver :=
  let cmd := KREIOS_CMD_SET_VALUE +:+ ":Name=" +:+ name
             +:+ ":Value=" +:+ value in
  let '(status, _, d) := commandResponse cmd ∅ d in (status, d).

Section Parameters.

Variable show_double : float -> string.
Variable stod : string -> option float.

(** [Kreios::getAnalyserParameter(name, double&)]. *)
Definition getAnalyserParameter_double (name : string) (value : float)
    (d : driver) : asynStatus * float * driver :=
  let cmd := KREIOS_CMD_GET_VALUE +:+ ":Name=" +:+ name in
  let '(status, data, d) := commandResponse cmd ∅ d in
  if is_success status then
    match data !! "Value" with
    | Some text =>
        match stod text with
        | Some v => (status, v, d)
        | None => (asynError, value, d)
        end
    | None => (status, value, d)
    end
  else (status, value, d).

(** [Kreios::setAnalyserParameter(name, double)]. *)
Definition setAnalyserParameter_double (name : string) (value : float)
    (d : driver) : asynStatus * driver :=
  let cmd := KREIOS_CMD_SET_VALUE +:+ ":Name=" +:+ name
             +:+ ":Value=" +:+ show_double value in
  let '(status, _, d) := commandResponse cmd ∅ d in (status, d).

End Parameters.

(** ** The lists behind the enumerations *)

Definition with_lensModes l d := mkDriver (ints d) (dbls d) (strs d)
  l (scanRanges_ d) (firstConnect_ d) (startEvent d) (stopEvent d) (sent d)
  (port d) (portCtl d) (inbox d) (published d).
Definition with_scanRanges l d := mkDriver (ints d) (dbls d) (strs d)
  (lensModes_ d) l (firstConnect_ d) (startEvent d) (stopEvent d) (sent d)
  (port d) (portCtl d) (inbox d) (published d).

(** [runModes_] and [operatingModes_] as the constructor fills them; nothing
    else writes them. *)
Definition runModes_ : list string := ["FAT"; "SFAT"; "FRR"; "FE"; "LVS"].
Definition operatingModes_ : list string := ["Spectroscopy"; "Momentum"; "PEEM"].

(** The loop of [readSpectrumParameter] over the [Values] field: the tokens
    between commas, cleaned, the empty ones left out. *)
Definition parse_names (values : string) : list string :=
  List.filter (fun token => negb (String.eqb token ""))
    (map cleanString (getline_tokens "," values "")).

(** [Kreios::readSpectrumParameter]. *)
Definition readSpectrumParameter (p : param) (d : driver)
    : asynStatus * driver :=
  if decide (p = KREIOSLensMode_) then
    let '(status, data, d) :=
      commandResponse (KREIOS_CMD_GET_SPECTRUM +:+ ":Name=LensMode") ∅ d in
    if is_success status then
      match data !! "Values" with
      | Some values => (status, with_lensModes (parse_names values) d)
      | None => (status, d)
      end
    else (status, d)
  else if decide (p = KREIOSScanRange_) then
    let '(status, data, d) :=
      commandResponse (KREIOS_CMD_GET_SPECTRUM +:+ ":Name=ScanRange") ∅ d in
    if is_success status then
      match data !! "Values" with
      | Some values => (status, with_scanRanges (parse_names values) d)
      | None => (status, d)
      end
    else (status, d)
  else (asynSuccess, d).

(** The three arrays a client passes to [readEnum]; an entry of [strings] is
    a pointer, null or to a text. *)
Record enum_arrays := mkEnum {
  e_strings : list (option string);
  e_values : list Z;
  e_severities : list Z
}.

(** [a[i] = v] on an array of the caller. *)
Definition put {A} (a : list A) (i : nat) (v : A) : res (list A) :=
  if (i <? length a)%nat then Ok (<[i := v]> a) else Stop BufferOutOfRange.

(** [for (i = 0; (i < names.size()) && (i < nElements); i++)] from [i] on,
    [names] being what is left of the vector; the result is the final [i]. *)
Fixpoint enum_loop (names : list string) (i nElements : nat) (o : enum_arrays)
    : res (nat * enum_arrays) :=
  match names with
  | [] => Ok (i, o)
  | name :: rest =>
      if (i <? nElements)%nat then
        do s <- put (e_strings o) i (Some name);
        do v <- put (e_values o) i (Z.of_nat i);
        do sv <- put (e_severities o) i 0;
        enum_loop rest (S i) nElements (mkEnum s v sv)
      else Ok (i, o)
  end.

(** [Kreios::readEnum]: the status, [*nIn] and the arrays. *)
Definition readEnum (function : param) (nElements : nat) (o : enum_arrays)
    (d : driver) : res (asynStatus * nat * enum_arrays) :=
  let fill names :=
    do r <- enum_loop names 0 nElements o;
    Ok (asynSuccess, fst r, snd r) in
  if decide (function = KREIOSLensMode_) then fill (lensModes_ d)
  else if decide (function = KREIOSScanRange_) then fill (scanRanges_ d)
  else if decide (function = KREIOSRunMode_) then fill runModes_
  else if decide (function = KREIOSOperatingMode_) then fill operatingModes_
  else Ok (asynError, 0%nat, o).



(** The list an enumeration parameter shows, if it is one. *)
Definition enum_names (function : param) (d : driver) : option (list string) :=
  match function with
  | KREIOSLensMode_ => Some (lensModes_ d)
  | KREIOSScanRange_ => Some (scanRanges_ d)
  | KREIOSRunMode_ => Some runModes_
  | KREIOSOperatingMode_ => Some operatingModes_
  | _ => None
  end.

(** Three arrays of [n] entries as a record asks with: null pointers and
    zeros. *)
Definition enum_blank (n : nat) : enum_arrays :=
  mkEnum (replicate n None) (replicate n 0) (replicate n 0).

(** A client write that is neither a connect request nor a write of the
    connected flag itself. *)
Definition leaves_connection (w : param * Z) : bool :=
  negb (bool_decide (fst w = KREIOSConnected_))
  && negb (bool_decide (fst w = KREIOSConnect_) && (snd w =? 1)).

(** The integer a field of a reply holds, or [fallback]. *)
Definition field_or (fallback : Z) (data : gmap string string) (key : string)
    : Z :=
  default fallback (data !! key ≫= stoi).

(** A driver that was never connected, with a port that connects and a
    server that answers the two first requests. *)
Definition fresh_driver : driver :=
  with_portCtl [asynSuccess; asynSuccess]
    (driver_with ints_constructed dbls_constructed
       ["OK:VisibleName=KREIOS-A"; "OK:Value=3"] []).

(** A 1-D session validated for two samples whose server then reports three
    acquired points and delivers three values. *)
Definition session_overreport : driver :=
  driver_with (upd KREIOSRunMode_ KREIOS_RUN_FAT ints_constructed)
    dbls_constructed
    (setup_replies "OK:Samples=2:ValuesPerSample=1:NumberOfSlices=1"
     ++ iteration_replies "3" "5,5,5")
    start_write.

(** A 1-D session of one iteration whose server answers the first status
    request of the iteration with the controller state [aborted]. *)
Definition session_server_abort : driver :=
  driver_with (upd KREIOSRunMode_ KREIOS_RUN_FAT ints_constructed)
    dbls_constructed
    (setup_replies "OK:Samples=2:ValuesPerSample=1:NumberOfSlices=1"
     ++ ["OK"; "OK"; "OK:ControllerState=aborted:NumberOfAcquiredPoints=0"])
    start_write.

(** A 1-D session of two samples that arrive one at a time; the server
    refuses the read of the second. *)
Definition session_lost_read : driver :=
  driver_with (upd KREIOSRunMode_ KREIOS_RUN_FAT ints_constructed)
    dbls_constructed
    (setup_replies "OK:Samples=2:ValuesPerSample=1:NumberOfSlices=1"
     ++ ["OK"; "OK"; "OK:ControllerState=running:NumberOfAcquiredPoints=0";
         "OK:ControllerState=running:NumberOfAcquiredPoints=1";
         "OK:Min=0:Max=1"; "OK:Data=5";
         "OK:ControllerState=finished:NumberOfAcquiredPoints=2";
         "ERROR:Code=7"])
    start_write.

(** A 1-D session of three iterations in which a client writes acquire = 0
    during the first poll. *)
Definition session_user_stop : driver :=
  driver_with (upd ADNumExposures 3 (upd KREIOSRunMode_ KREIOS_RUN_FAT ints_constructed))
    dbls_constructed
    (setup_replies "OK:Samples=2:ValuesPerSample=1:NumberOfSlices=1"
     ++ ["OK"; "OK"; "OK:ControllerState=running:NumberOfAcquiredPoints=0";
         "OK:ControllerState=running:NumberOfAcquiredPoints=1";
         "OK:Min=0:Max=1"; "OK:Data=5"; "OK"; "OK"; "OK"; "OK"])
    [[(ADAcquire, 1)]; [(ADAcquire, 0)]].

(** The state of a 1-D session of two samples at the end of a turn of the
    polling loop, after a client wrote acquire = 0. *)
Definition polling_stopped : sess :=
  mkSess asynSuccess 1 (<["ControllerState" := "running"]> ∅) 1 1 [5]
    (mkBufs (Some [5; 0]) None None (Some [5; 0]))
    (driver_with (upd ADAcquire 0 ints_constructed) dbls_constructed
       ["OK"; "OK"; "OK"] []).

(** The state of a session before an iteration whose status request is
    answered with the controller state [aborted]. *)
Definition iteration_aborted : sess :=
  mkSess asynSuccess 1 ∅ 0 0 []
    (mkBufs (Some [0; 0]) None None (Some [0; 0]))
    (driver_with (upd ADAcquire 1 ints_constructed) dbls_constructed
       ["OK"; "OK"; "OK:ControllerState=aborted"] []).

(** The state of a session with one sample consumed, a second one reported,
    and a server that refuses the read. *)
Definition polling_lost_read : sess :=
  mkSess asynSuccess 1 (<["ControllerState" := "finished"]> ∅) 1 2 [5]
    (mkBufs (Some [5; 0]) None None (Some [5; 0]))
    (driver_with (upd ADAcquire 1 ints_constructed) dbls_constructed
       ["ERROR:Code=7"] []).

(** ** Vocabulary for the 2-D store *)




(** * Facts *)

(** ** The text helpers on examples *)

Example stoi_examples :
  stoi " 42" = Some 42 /\ stoi "-7x" = Some (-7) /\ stoi "x1" = None /\
  stoi "4294967296" = None /\ show_int (-12) = "-12" /\ show_int 0 = "0".
Proof. repeat split; reflexivity. Qed.

Example getline_examples :
  getline_tokens ":" "a:b:" "" = ["a"; "b"] /\
  getline_tokens ":" "" "" = [] /\
  getline_tokens ":" "a::b" "" = ["a"; ""; "b"] /\
  cleanString " OK " = "OK" /\ cleanString ": " = "".
Proof. repeat split; reflexivity. Qed.

Example parse_response_examples :
  parse_response "OK:Samples=21:ValuesPerSample=1"
    = (asynSuccess, <["ValuesPerSample" := "1"]> (<["Samples" := "21"]> ∅)) /\
  fst (parse_response "ERROR:Code=201:Message=bad") = asynError /\
  fst (parse_response "!0001 OK") = asynSuccess.
Proof. repeat split; vm_compute; reflexivity. Qed.

(** ** Facts about the helpers *)

Lemma names_incl_named a b c :
  names_incl a b = true -> named a c = true -> named b c = true.
Proof.
  unfold names_incl, named. rewrite forallb_forall, !existsb_exists.
  intros Hab (x & Hx & Hc). apply String.eqb_eq in Hc. subst x.
  specialize (Hab _ Hx). apply existsb_exists in Hab as (y & Hy & Hxy).
  exists y. split; [exact Hy | exact Hxy].
Qed.

Lemma pmem_true_ne p q ws :
  pmem p ws = true -> pmem q ws = false -> q <> p.
Proof. intros Hp Hq ->. congruence. Qed.

Lemma pincl_pmem a b p :
  pincl a b = true -> pmem p b = false -> pmem p a = false.
Proof.
  unfold pincl. rewrite forallb_forall. intros Hab Hb.
  destruct (pmem p a) eqn:Ha; [| reflexivity].
  unfold pmem in Ha. apply existsb_exists in Ha as (q & Hq & Hpq).
  apply bool_decide_eq_true in Hpq. subst q.
  rewrite (Hab _ Hq) in Hb. discriminate.
Qed.

Lemma io_refl names d : io names d d.
Proof.
  split; [| lia]. exists []. split; [by rewrite app_nil_r | reflexivity].
Qed.

Lemma io_trans names d1 d2 d3 :
  io names d1 d2 -> io names d2 d3 -> io names d1 d3.
Proof.
  intros [(l1 & E1 & F1) P1] [(l2 & E2 & F2) P2]. split; [| lia].
  exists (l1 ++ l2). split.
  - rewrite E2, E1. by rewrite app_assoc.
  - rewrite forallb_app, F1, F2. reflexivity.
Qed.

Lemma io_weaken a b d d' :
  names_incl a b = true -> io a d d' -> io b d d'.
Proof.
  intros Hab [(l & E & F) P]. split; [| exact P].
  exists l. split; [exact E |].
  rewrite forallb_forall in *. intros c Hc.
  eapply names_incl_named; [exact Hab | by apply F].
Qed.

Lemma io_same names d d' :
  sent d' = sent d -> port d' = port d -> io names d d'.
Proof.
  intros Hs Hp. split; [| rewrite Hp; lia].
  exists []. rewrite Hs. split; [by rewrite app_nil_r | reflexivity].
Qed.

Lemma evolves_refl names ws d : evolves names ws d d.
Proof. split; auto using io_refl. Qed.

Lemma evolves_trans names ws d1 d2 d3 :
  evolves names ws d1 d2 -> evolves names ws d2 d3 -> evolves names ws d1 d3.
Proof.
  intros [I1 A1 B1 C1 S1 X1 Y1] [I2 A2 B2 C2 S2 X2 Y2]. split.
  - eapply io_trans; eassumption.
  - intros p Hp. rewrite A2, A1; auto.
  - intros p Hp. rewrite B2, B1; auto.
  - intros p Hp. rewrite C2, C1; auto.
  - congruence.
  - congruence.
  - congruence.
Qed.

Lemma evolves_weaken a b ws ws' d d' :
  names_incl a b = true -> pincl ws ws' = true ->
  evolves a ws d d' -> evolves b ws' d d'.
Proof.
  intros Hab Hws [I A B C S X Y]. split; try assumption.
  - eapply io_weaken; eassumption.
  - intros p Hp. apply A. eapply pincl_pmem; eassumption.
  - intros p Hp. apply B. eapply pincl_pmem; eassumption.
  - intros p Hp. apply C. eapply pincl_pmem; eassumption.
Qed.

Lemma evolves_setInt names ws p v d :
  pmem p ws = true -> evolves names ws d (setIntegerParam p v d).
Proof.
  intros Hp. split; try reflexivity.
  - by apply io_same.
  - intros q Hq. simpl. unfold upd. pose proof (pmem_true_ne _ _ _ Hp Hq).
    by destruct (decide (q = p)).
Qed.

Lemma evolves_setDouble names ws p v d :
  pmem p ws = true -> evolves names ws d (setDoubleParam p v d).
Proof.
  intros Hp. split; try reflexivity.
  - by apply io_same.
  - intros q Hq. simpl. unfold upd. pose proof (pmem_true_ne _ _ _ Hp Hq).
    by destruct (decide (q = p)).
Qed.

Lemma evolves_setString names ws p v d :
  pmem p ws = true -> evolves names ws d (setStringParam p v d).
Proof.
  intros Hp. split; try reflexivity.
  - by apply io_same.
  - intros q Hq. simpl. unfold upd. pose proof (pmem_true_ne _ _ _ Hp Hq).
    by destruct (decide (q = p)).
Qed.

(** An exchange writes its command, uses one transport result, and counts
    the message. *)
Lemma commandResponse_evolves command data d st data' d' :
  commandResponse command data d = (st, data', d') ->
  evolves [cmd_name command] [KREIOSMsgCounter_] d d'.
Proof.
  unfold commandResponse, asynWriteRead. simpl.
  intros E.
  assert (Hd : sent d' = sent d ++ [command] /\
               (length (port d') <= length (port d))%nat /\
               ints d' = upd KREIOSMsgCounter_ (getIntegerParam d KREIOSMsgCounter_ 0 + 1) (ints d) /\
               dbls d' = dbls d /\ strs d' = strs d /\
               startEvent d' = startEvent d /\ inbox d' = inbox d /\
               published d' = published d).
  { destruct (port d) as [| [st0 r] rest] eqn:Hp; simpl in E.
    - inversion E; subst. simpl. rewrite ?Hp. repeat split; simpl; lia.
    - destruct (is_success st0); [destruct (parse_response r) |];
        inversion E; subst; simpl; rewrite ?Hp; repeat split; simpl; lia. }
  destruct Hd as (Hs & Hp & Hi & Hdb & Hst & Hev & Hin & Hpub).
  split; try assumption.
  - split; [| exact Hp]. exists [command]. split; [exact Hs |].
    simpl. unfold named. simpl. rewrite String.eqb_refl. reflexivity.
  - intros p Hq. rewrite Hi. unfold upd.
    destruct (decide (p = KREIOSMsgCounter_)) as [-> |]; [discriminate | reflexivity].
  - intros p _. by rewrite Hdb.
  - intros p _. by rewrite Hst.
Qed.

Lemma evolves_other names ws d d' :
  sent d' = sent d -> port d' = port d -> ints d' = ints d ->
  dbls d' = dbls d -> strs d' = strs d -> startEvent d' = startEvent d ->
  inbox d' = inbox d -> published d' = published d ->
  evolves names ws d d'.
Proof.
  intros Hs Hp Hi Hd Hst He Hin Hpub. split; try assumption.
  - by apply io_same.
  - intros; by rewrite Hi.
  - intros; by rewrite Hd.
  - intros; by rewrite Hst.
Qed.

Ltac split_lets :=
  repeat match goal with
  | |- context [match ?e with pair _ _ => _ end] => destruct e as [? ?] eqn:?
  | H : context [match ?e with pair _ _ => _ end] |- _ =>
      destruct e as [? ?] eqn:?
  end.

Ltac ev_chain :=
  lazymatch goal with
  | |- evolves _ _ ?d ?d => apply evolves_refl
  | |- evolves _ _ _ (setIntegerParam _ _ _) =>
      eapply evolves_trans; [| apply evolves_setInt; reflexivity]; ev_chain
  | |- evolves _ _ _ (setDoubleParam _ _ _) =>
      eapply evolves_trans; [| apply evolves_setDouble; reflexivity]; ev_chain
  | |- evolves _ _ _ (setStringParam _ _ _) =>
      eapply evolves_trans; [| apply evolves_setString; reflexivity]; ev_chain
  | |- evolves _ _ ?d0 (with_portCtl _ ?d1) =>
      apply (evolves_trans _ _ d0 d1);
      [ev_chain | apply evolves_other; reflexivity]
  | |- evolves _ _ ?d0 (with_firstConnect _ ?d1) =>
      apply (evolves_trans _ _ d0 d1);
      [ev_chain | apply evolves_other; reflexivity]
  | H : evolves _ _ ?a ?b |- evolves _ _ _ ?b =>
      eapply evolves_trans;
      [| first [exact H | eapply evolves_weaken; [| | exact H]; reflexivity]];
      clear H; ev_chain
  end.

Ltac use_exchange :=
  repeat match goal with
  | H : commandResponse _ _ _ = (_, _, _) |- _ =>
      apply commandResponse_evolves in H
  end.

Lemma sendSimpleCommand_evolves command keep data d st data' d' :
  sendSimpleCommand command keep data d = (st, data', d') ->
  evolves [cmd_name command] [KREIOSMsgCounter_] d d'.
Proof.
  unfold sendSimpleCommand. destruct keep.
  - apply commandResponse_evolves.
  - intros E. split_lets. inversion E; subst. use_exchange. ev_chain.
Qed.

Lemma sendStartCommand_evolves safeAfter d st d' :
  sendStartCommand safeAfter d = (st, d') ->
  evolves [KREIOS_CMD_START] [KREIOSMsgCounter_] d d'.
Proof.
  unfold sendStartCommand. intros E. split_lets. inversion E; subst.
  use_exchange. destruct safeAfter; ev_chain.
Qed.

Lemma getAnalyserParameter_int_evolves name value d st v d' :
  getAnalyserParameter_int name value d = (st, v, d') ->
  evolves [KREIOS_CMD_GET_VALUE] [KREIOSMsgCounter_] d d'.
Proof.
  unfold getAnalyserParameter_int. intros E. split_lets.
  assert (d' = d0) as ->.
  { destruct (is_success a); [destruct (g !! "Value"); [destruct (stoi s) |] |];
      by inversion E. }
  use_exchange. ev_chain.
Qed.

Lemma validateSpectrum_evolves d st d' :
  validateSpectrum d = (st, d') ->
  evolves [KREIOS_CMD_VALIDATE] validate_params d d'.
Proof.
  unfold validateSpectrum. intros E. split_lets. use_exchange.
  destruct (is_success a); inversion E; subst; ev_chain.
Qed.

Lemma define_spectrum_evolves show_double runMode status d st d' :
  define_spectrum show_double runMode status d = (st, d') ->
  evolves define_names [KREIOSMsgCounter_] d d'.
Proof.
  unfold define_spectrum, defineSpectrumFAT, defineSpectrumSFAT,
    defineSpectrumFRR, defineSpectrumFE, defineSpectrumLVS.
  intros E.
  repeat match type of E with
         | (if ?c then _ else _) = _ => destruct c
         end;
    split_lets; inversion E; subst; use_exchange; ev_chain.
Qed.

Lemma readAcquisitionData_evolves stod_sample a b values d st values' d' :
  readAcquisitionData stod_sample a b values d = (st, values', d') ->
  evolves [KREIOS_CMD_GET_DATA] [KREIOSMsgCounter_] d d'.
Proof.
  unfold readAcquisitionData. intros E. split_lets.
  assert (d' = d0) as ->.
  { destruct (is_success a0); [destruct (g !! "Data") |]; by inversion E. }
  use_exchange. ev_chain.
Qed.

Lemma readSpectrumDataInfo_evolves stod d st d' :
  readSpectrumDataInfo stod d = (st, d') ->
  evolves [KREIOS_CMD_GET_DATA_INFO] data_info_params d d'.
Proof.
  unfold readSpectrumDataInfo. intros E. split_lets. use_exchange.
  destruct (is_success a); inversion E; subst; ev_chain.
Qed.

(** ** Facts about buffers and loops *)

Lemma bind_stops {A B} (P : stop -> Prop) (r : res A) (k : A -> res B) :
  stops_only P r -> (forall a, r = Ok a -> stops_only P (k a)) ->
  stops_only P (bind r k).
Proof. destruct r; simpl; auto. Qed.

Lemma stops_only_impl {A} (P Q : stop -> Prop) (r : res A) :
  (forall why, P why -> Q why) -> stops_only P r -> stops_only Q r.
Proof. destruct r; simpl; auto. Qed.

(** The rule of the counted loop: an invariant of the body, indexed by the
    loop variable, holds after the loop; a stop of the body is a stop of the
    loop. *)
Lemma for_range_rule {St} (P : stop -> Prop) (I : Z -> St -> Prop)
    (body : Z -> St -> res St) n x s :
  (forall x' s', x <= x' < x + Z.of_nat n -> I x' s' ->
     match body x' s' with
     | Ok s'' => I (x' + 1) s''
     | Stop why => P why
     end) ->
  I x s ->
  match for_range n x body s with
  | Ok s' => I (x + Z.of_nat n) s'
  | Stop why => P why
  end.
Proof.
  revert x s. induction n as [| n IH]; intros x s Hbody HI.
  - simpl. by rewrite Z.add_0_r.
  - simpl for_range. pose proof (Hbody x s ltac:(lia) HI) as Hx.
    destruct (body x s) as [s1 | w]; simpl; [| exact Hx].
    specialize (IH (x + 1) s1).
    replace (x + Z.of_nat (S n)) with (x + 1 + Z.of_nat n) by lia.
    apply IH; [| exact Hx].
    intros x' s' Hr. apply Hbody. lia.
Qed.

Lemma values_at_in_range values index :
  0 <= index < Z.of_nat (length values) ->
  values_at values index = Ok (nth (Z.to_nat index) values 0).
Proof.
  intros H. unfold values_at.
  destruct (0 <=? index) eqn:E1; [| lia].
  destruct (index <? Z.of_nat (length values)) eqn:E2; [reflexivity | lia].
Qed.

Lemma cell_stops b i : stops_only buffer_stop (cell b i).
Proof.
  unfold cell, buffer_stop. destruct b as [l |]; simpl; [| by right].
  destruct (_ && _); simpl; [done | by left].
Qed.

Lemma assign_stops b i v : stops_only buffer_stop (assign b i v).
Proof.
  unfold assign, buffer_stop. destruct b as [l |]; simpl; [| by right].
  destruct (_ && _); simpl; [done | by left].
Qed.

Lemma add_to_stops b i v : stops_only buffer_stop (add_to b i v).
Proof.
  unfold add_to. apply bind_stops; [apply cell_stops |].
  intros; apply assign_stops.
Qed.

Ltac buffer_ops :=
  repeat match goal with
  | |- context [assign ?b ?i ?v] =>
      let H := fresh in
      pose proof (assign_stops b i v) as H;
      destruct (assign b i v); simpl in H |- *; [clear H | exact H]
  | |- context [add_to ?b ?i ?v] =>
      let H := fresh in
      pose proof (add_to_stops b i v) as H;
      destruct (add_to b i v); simpl in H |- *; [clear H | exact H]
  end.

Lemma store1D_body_advances iteration values x index b :
  0 <= index < Z.of_nat (length values) ->
  advances index (store1D_body iteration values x (index, b)).
Proof.
  intros H. unfold store1D_body, advances.
  rewrite (values_at_in_range _ _ H). simpl.
  destruct (iteration =? 0); buffer_ops; reflexivity.
Qed.

Lemma store2D_body_advances iteration nS values y x index b :
  0 <= index < Z.of_nat (length values) ->
  advances index (store2D_body iteration nS values y x (index, b)).
Proof.
  intros H. unfold store2D_body, advances.
  rewrite (values_at_in_range _ _ H). simpl.
  destruct (iteration =? 0); buffer_ops; reflexivity.
Qed.

Lemma store3D_body_guarded iteration nS nV values z y x index b :
  0 <= index ->
  match store3D_body iteration nS nV values z y x (index, b) with
  | Ok s => 0 <= fst s
  | Stop why => buffer_stop why
  end.
Proof.
  intros H. unfold store3D_body.
  destruct (index <? Z.of_nat (length values)) eqn:E; [| exact H].
  rewrite values_at_in_range by lia. simpl.
  destruct (iteration =? 0); buffer_ops; simpl; lia.
Qed.

(** The 1-D loop reads [values[0 .. e - c)], all of it. *)
Lemma store1D_reads iteration c e values b :
  e - c <= Z.of_nat (length values) ->
  match store1D iteration c e values (0, b) with
  | Ok s => fst s = Z.max 0 (e - c)
  | Stop why => buffer_stop why
  end.
Proof.
  intros Hlen. unfold store1D, for_loop.
  pose proof (for_range_rule buffer_stop (fun x s => fst s = x - c)
                (store1D_body iteration values) (Z.to_nat (e - c)) c (0, b)) as R.
  assert (Hbody : forall x s, c <= x < c + Z.of_nat (Z.to_nat (e - c)) ->
            fst s = x - c ->
            match store1D_body iteration values x s with
            | Ok s'' => fst s'' = x + 1 - c
            | Stop w => buffer_stop w
            end).
  { intros x [index b'] Hx Hi. simpl in Hi. subst index.
    pose proof (store1D_body_advances iteration values x (x - c) b' ltac:(lia)) as A.
    destruct (store1D_body _ _ _ _); simpl in *; [lia | exact A]. }
  specialize (R Hbody ltac:(simpl; lia)).
  destruct (for_range _ _ _ _); simpl in *; [lia | exact R].
Qed.

(** The 2-D loop reads [values[0 .. V * (e - c))], all of it. *)
Lemma store2D_reads iteration nS nV c e values b :
  (e - c) * nV <= Z.of_nat (length values) ->
  match store2D iteration nS nV c e values (0, b) with
  | Ok s => fst s = Z.max 0 nV * Z.max 0 (e - c)
  | Stop why => buffer_stop why
  end.
Proof.
  intros Hlen. unfold store2D, for_loop. rewrite Z.sub_0_r.
  set (K := Z.of_nat (Z.to_nat (e - c))).
  pose proof (for_range_rule buffer_stop (fun y s => fst s = y * K)
    (fun y => for_range (Z.to_nat (e - c)) c
                (store2D_body iteration nS values y))
    (Z.to_nat nV) 0 (0, b)) as R.
  assert (Hrow : forall y s, 0 <= y < 0 + Z.of_nat (Z.to_nat nV) ->
            fst s = y * K ->
            match for_range (Z.to_nat (e - c)) c
                    (store2D_body iteration nS values y) s with
            | Ok s'' => fst s'' = (y + 1) * K
            | Stop w => buffer_stop w
            end).
  { intros y [index b'] Hy Hi. simpl in Hi. subst index.
    pose proof (for_range_rule buffer_stop
      (fun x s => fst s = y * K + (x - c))
      (store2D_body iteration nS values y) (Z.to_nat (e - c)) c (y * K, b')) as R2.
    fold K in R2.
    assert (Hbody : forall x s, c <= x < c + K -> fst s = y * K + (x - c) ->
              match store2D_body iteration nS values y x s with
              | Ok s'' => fst s'' = y * K + (x + 1 - c)
              | Stop w => buffer_stop w
              end).
    { intros x [index b3] Hx Hi. simpl in Hi. subst index.
      assert (0 <= y * K + (x - c) < Z.of_nat (length values)) as Hin
        by (subst K; nia).
      pose proof (store2D_body_advances iteration nS values y x _ b3 Hin) as A.
      destruct (store2D_body _ _ _ _ _ _); simpl in *; [lia | exact A]. }
    specialize (R2 Hbody ltac:(simpl; lia)).
    destruct (for_range (Z.to_nat (e - c)) _ _ _) as [[index2 b2] | w2];
      simpl in *; [lia | exact R2]. }
  specialize (R Hrow ltac:(simpl; lia)).
  destruct (for_range (Z.to_nat nV) _ _ _); simpl in *; [subst K; lia | exact R].
Qed.

(** The 3-D loop reads only below [numRxDataPoints]. *)
Lemma store3D_reads iteration nS nV nN c e values b :
  stops_only buffer_stop (store3D iteration nS nV nN c e values (0, b)).
Proof.
  unfold store3D, for_loop.
  pose proof (for_range_rule buffer_stop (fun (_ : Z) (s : Z * bufs) => 0 <= fst s)) as R.
  match goal with
  | |- stops_only _ (for_range ?n ?x ?body ?s) =>
      specialize (R body n x s); destruct (for_range n x body s); simpl;
        [exact I | apply R; [| simpl; lia]]
  end.
  intros z s1 _ H1.
  pose proof (for_range_rule buffer_stop (fun (_ : Z) (s : Z * bufs) => 0 <= fst s)) as R1.
  match goal with
  | |- match for_range ?n ?x ?body ?s with _ => _ end =>
      specialize (R1 body n x s); destruct (for_range n x body s);
        apply R1; try exact H1
  end;
  intros y s2 _ H2;
  pose proof (for_range_rule buffer_stop (fun (_ : Z) (s : Z * bufs) => 0 <= fst s)) as R2;
  match goal with
  | |- match for_range ?n ?x ?body ?s with _ => _ end =>
      specialize (R2 body n x s); destruct (for_range n x body s);
        apply R2; try exact H2
  end;
  intros x [index b3] _ H3; apply store3D_body_guarded; exact H3.
Qed.

(** With at least one value per sample, a chunk that passed the test on
    [numRxDataPoints] is distributed without a read outside the vector. *)
Lemma distribute_reads nd iteration nS nV nN c e values b :
  1 <= nV -> (e - c) * nV <= Z.of_nat (length values) ->
  stops_only buffer_stop (distribute nd iteration nS nV nN c e values b).
Proof.
  intros HV Hlen. unfold distribute.
  destruct (nd =? 1); [| destruct (nd =? 2); [| destruct (nd =? 3)]].
  - apply bind_stops; [| intros; exact I].
    assert (e - c <= Z.of_nat (length values)) as H1
      by (pose proof (Zle_0_nat (length values)); nia).
    pose proof (store1D_reads iteration c e values b H1) as R.
    by destruct (store1D _ _ _ _ _).
  - apply bind_stops; [| intros; exact I].
    pose proof (store2D_reads iteration nS nV c e values b Hlen) as R.
    by destruct (store2D _ _ _ _ _ _ _).
  - apply bind_stops; [| intros; exact I]. apply store3D_reads.
  - exact I.
Qed.

(** ** Facts about the exchange with the server *)

(** An exchange uses up a transport result, or finds none and fails. *)
Lemma commandResponse_progress command data d st data' d' :
  commandResponse command data d = (st, data', d') ->
  (length (port d') < length (port d))%nat \/ is_success st = false.
Proof.
  unfold commandResponse, asynWriteRead. simpl.
  destruct (port d) as [| [st0 r] rest] eqn:Hp; simpl; intros E.
  - right. by inversion E.
  - left. destruct (is_success st0); [destruct (parse_response r) |];
      inversion E; subst; simpl; lia.
Qed.

(** [H : io _ a b] closes [io _ d x] when [d] and [a], and [b] and [x],
    differ by parameter writes only. *)
Ltac io_wrap H :=
  match type of H with
  | io _ ?a ?b =>
      apply (io_trans _ _ b);
      [apply (io_trans _ _ a);
       [by apply io_same
       | first [exact H | eapply io_weaken; [| exact H]; reflexivity]]
      | by apply io_same]
  end.

Lemma connect_evolves d st d' :
  connect d = (st, d') -> evolves [] connect_params d d'.
Proof.
  unfold connect, asynPortConnect.
  destruct (portCtl d) as [| c rest]; simpl; intros E.
  - inversion E; subst. ev_chain.
  - destruct (is_success c); inversion E; subst; ev_chain.
Qed.

Lemma disconnect_evolves d st d' :
  disconnect d = (st, d') -> evolves [] connect_params d d'.
Proof.
  unfold disconnect, asynPortDisconnect.
  destruct (_ =? 1); [destruct (portCtl d) |]; intros E;
    inversion E; subst; ev_chain.
Qed.

Lemma readDeviceVisibleName_evolves d st d' :
  readDeviceVisibleName d = (st, d') ->
  evolves [KREIOS_CMD_GET_VISNAME] connect_params d d'.
Proof.
  unfold readDeviceVisibleName. intros E. split_lets. use_exchange.
  destruct (is_success a); [destruct (g !! "VisibleName") |];
    inversion E; subst; ev_chain.
Qed.

Lemma makeConnection_evolves d st d' :
  makeConnection d = (st, d') -> evolves connect_names connect_params d d'.
Proof.
  unfold makeConnection. intros E. split_lets.
  repeat match goal with
  | H : connect _ = _ |- _ => apply connect_evolves in H
  end.
  destruct (is_success a && firstConnect_ d0).
  - split_lets.
    repeat match goal with
    | H : readDeviceVisibleName _ = _ |- _ =>
        apply readDeviceVisibleName_evolves in H
    end.
    destruct (is_success a0).
    + split_lets.
      repeat match goal with
      | H : getAnalyserParameter_int _ _ _ = _ |- _ =>
          apply getAnalyserParameter_int_evolves in H
      end.
      inversion E; subst. ev_chain.
    + inversion E; subst. ev_chain.
  - inversion E; subst. ev_chain.
Qed.

Lemma writeInt32_io function value d st d' :
  writeInt32 function value d = (st, d') -> io connect_names d d'.
Proof.
  unfold writeInt32.
  destruct (decide (function = ADAcquire)).
  - intros E. inversion E; subst.
    repeat match goal with |- context [if ?c then _ else _] => destruct c end;
      by apply io_same.
  - destruct (decide (function = KREIOSConnect_)).
    + destruct (value =? 1); intros E.
      * apply makeConnection_evolves, ev_io in E.
        eapply io_trans; [| exact E]. by apply io_same.
      * apply disconnect_evolves, ev_io in E.
        eapply io_trans; [| eapply io_weaken; [| exact E]; reflexivity].
        by apply io_same.
    + destruct (before_FIRST_KREIOS_PARAM function); intros E;
        inversion E; subst; by apply io_same.
Qed.

Lemma apply_writes_io batch d : io connect_names d (apply_writes batch d).
Proof.
  unfold apply_writes. revert d.
  induction batch as [| w batch IH]; intros d; simpl; [apply io_refl |].
  eapply io_trans; [| apply IH].
  destruct (writeInt32 (fst w) (snd w) d) eqn:E. simpl.
  by apply writeInt32_io in E.
Qed.

Lemma unlocked_io d : io connect_names d (unlocked d).
Proof.
  unfold unlocked. destruct (inbox d); [apply io_refl |].
  eapply io_trans; [| apply apply_writes_io]. by apply io_same.
Qed.

(** ** Facts about one turn of the polling loop *)

Lemma io_port_le names d d' :
  io names d d' -> (length (port d') <= length (port d))%nat.
Proof. by intros []. Qed.

Lemma poll_status_io s :
  io all_names (s_drv s) (s_drv (poll_status s)) /\
  ((length (port (s_drv (poll_status s))) < length (port (s_drv s)))%nat \/
   is_success (s_status (poll_status s)) = false).
Proof.
  unfold poll_status, sendSimpleCommand.
  destruct (commandResponse _ _ _) as [[st data] d1] eqn:E. simpl.
  pose proof (commandResponse_progress _ _ _ _ _ _ E) as Hp.
  apply commandResponse_evolves, ev_io in E.
  pose proof (unlocked_io (s_drv s)) as Hu.
  split.
  - eapply io_trans.
    + eapply io_weaken; [| exact Hu]. reflexivity.
    + eapply io_weaken; [| exact E]. reflexivity.
  - destruct Hp as [Hp | Hp]; [left | by right].
    apply io_port_le in Hu. lia.
Qed.

Lemma poll_fetch_evolves stod stod_sample k s :
  evolves [KREIOS_CMD_GET_DATA_INFO; KREIOS_CMD_GET_DATA] fetch_params
    (s_drv s) (s_drv (snd (poll_fetch stod stod_sample k s))) /\
  s_status (snd (poll_fetch stod stod_sample k s)) = s_status s /\
  s_bufs (snd (poll_fetch stod stod_sample k s)) = s_bufs s /\
  s_currentDataPoint (snd (poll_fetch stod stod_sample k s))
    = s_currentDataPoint s.
Proof.
  unfold poll_fetch.
  destruct (readAcquisitionData _ _ _ _ _) as [[st values] d2] eqn:E. simpl.
  split; [| done].
  apply readAcquisitionData_evolves in E.
  destruct (s_currentDataPoint s =? 0).
  - destruct (readSpectrumDataInfo stod _) as [st1 d1] eqn:E1.
    apply readSpectrumDataInfo_evolves in E1. simpl in E. ev_chain.
  - ev_chain.
Qed.

Lemma short_read_evolves s :
  evolves [KREIOS_CMD_ABORT] short_read_params (s_drv s) (s_drv (short_read s)).
Proof.
  unfold short_read.
  destruct (sendSimpleCommand _ _ _ _) as [[st data] d1] eqn:E. simpl.
  apply sendSimpleCommand_evolves in E. ev_chain.
Qed.

Lemma publish_same k iteration cur b d :
  sent (publish k iteration cur b d) = sent d /\
  port (publish k iteration cur b d) = port d /\
  ints (publish k iteration cur b d) = ints d /\
  strs (publish k iteration cur b d) = strs d.
Proof.
  unfold publish, doCallbacksFloat64Array.
  destruct (image b), (volume b); done.
Qed.

Lemma poll_finish_io k iteration s :
  io [KREIOS_CMD_ABORT] (s_drv s) (s_drv (poll_finish k iteration s)) /\
  s_status (poll_finish k iteration s) = s_status s.
Proof.
  unfold poll_finish. split; [| done].
  destruct (getIntegerParam _ ADAcquire _ =? 0); [| by apply io_same].
  destruct (sendSimpleCommand _ _ _ _) as [[st data] d1] eqn:E.
  apply sendSimpleCommand_evolves, ev_io in E. simpl.
  io_wrap E.
Qed.

Ltac use_steps :=
  repeat match goal with
  | H : sendSimpleCommand _ _ _ _ = _ |- _ => apply sendSimpleCommand_evolves in H
  | H : sendStartCommand _ _ = _ |- _ => apply sendStartCommand_evolves in H
  | H : getAnalyserParameter_int _ _ _ = _ |- _ =>
      apply getAnalyserParameter_int_evolves in H
  | H : validateSpectrum _ = _ |- _ => apply validateSpectrum_evolves in H
  | H : define_spectrum _ _ _ _ = _ |- _ => apply define_spectrum_evolves in H
  end.

Section WorkerFacts.

Variable show_double : float -> string.
Variable stod : string -> option float.
Variable stod_sample : string -> option Z.

(** A turn either stops on a buffer, or ends with fewer transport results
    to come or with a status that ends the loop. *)
Lemma poll_body_spec k iteration s :
  1 <= nonEnergyChannels k ->
  match poll_body stod stod_sample k iteration s with
  | Ok s' =>
      io all_names (s_drv s) (s_drv s') /\
      ((length (port (s_drv s')) < length (port (s_drv s)))%nat \/
       is_success (s_status s') = false)
  | Stop why => buffer_stop why
  end.
Proof.
  intros HV. unfold poll_body.
  destruct (poll_status_io s) as [Hio Hprog].
  set (s1 := poll_status s) in *.
  destruct (s_currentDataPoint s1 <? s_numDataPoints s1).
  - destruct (poll_fetch_evolves stod stod_sample k s1) as (Hf & Hst & Hb & Hc).
    destruct (poll_fetch stod stod_sample k s1) as [e s2] eqn:Ef. simpl in *.
    apply ev_io in Hf.
    assert (io all_names (s_drv s) (s_drv s2)) as Hio2.
    { eapply io_trans; [exact Hio |]. eapply io_weaken; [| exact Hf]. reflexivity. }
    destruct (is_short k e s2) eqn:Hshort.
    + pose proof (short_read_evolves s2) as Hs. apply ev_io in Hs. split.
      * eapply io_trans; [exact Hio2 |]. eapply io_weaken; [| exact Hs]. reflexivity.
      * right. unfold short_read. by destruct (sendSimpleCommand _ _ _ _) as [[? ?] ?].
    + unfold consume.
      pose proof (distribute_reads (ndims k) iteration (energyChannels k)
        (nonEnergyChannels k) (numSlices k) (s_currentDataPoint s2) e
        (s_values s2) (s_bufs s2) HV) as Hd.
      unfold is_short in Hshort. apply Z.ltb_ge in Hshort.
      specialize (Hd Hshort).
      destruct (distribute _ _ _ _ _ _ _ _ _) as [b | why]; cbn [bind];
        [| exact Hd].
      match goal with
      | |- context [poll_finish k iteration ?s3] =>
          destruct (poll_finish_io k iteration s3) as [Hfin Hst3];
          revert Hfin Hst3;
          generalize (poll_finish k iteration s3); intros s4 Hfin Hst3
      end.
      cbn [s_drv s_status] in Hfin, Hst3.
      destruct (publish_same k iteration e b (s_drv s2)) as (Ps & Pp & _ & _).
      assert (io all_names (s_drv s) (s_drv s4)) as Hio4.
      { eapply io_trans; [exact Hio2 |].
        eapply io_trans; [apply io_same; [exact Ps | exact Pp] |].
        eapply io_weaken; [| exact Hfin]. reflexivity. }
      split; [exact Hio4 |].
      destruct Hprog as [Hprog | Hprog].
      * left. apply io_port_le in Hf. apply io_port_le in Hfin.
        rewrite Pp in Hfin. lia.
      * right. rewrite Hst3. rewrite Hst. exact Hprog.
  - destruct (poll_finish_io k iteration s1) as [Hfin Hst].
    split.
    + eapply io_trans; [exact Hio |]. eapply io_weaken; [| exact Hfin]. reflexivity.
    + destruct Hprog as [Hprog | Hprog].
      * left. apply io_port_le in Hfin. lia.
      * right. by rewrite Hst.
Qed.

(** The polling loop ends: with the transport results that are left as its
    bound, it returns or stops on a buffer. *)
Lemma pollLoop_spec fuel k iteration s :
  1 <= nonEnergyChannels k ->
  (length (port (s_drv s)) < fuel)%nat ->
  match pollLoop stod stod_sample fuel k iteration s with
  | Ok s' => io all_names (s_drv s) (s_drv s')
  | Stop why => buffer_stop why
  end.
Proof.
  intros HV. revert s. induction fuel as [| fuel IH]; intros s Hfuel; [lia |].
  simpl. destruct (poll_continue k s); [| apply io_refl].
  pose proof (poll_body_spec k iteration s HV) as Hb.
  destruct (poll_body stod stod_sample k iteration s) as [s1 | why]; simpl; [| exact Hb].
  destruct Hb as [Hio [Hlt | Hst]].
  - specialize (IH s1 ltac:(lia)).
    destruct (pollLoop stod stod_sample fuel k iteration s1); [| exact IH].
    eapply io_trans; eassumption.
  - destruct fuel; simpl; unfold poll_continue; rewrite Hst;
      rewrite andb_false_r; simpl; exact Hio.
Qed.

Lemma begin_iteration_evolves k s :
  evolves [KREIOS_CMD_CLEAR; KREIOS_CMD_START; KREIOS_CMD_GET_STATUS]
    [KREIOSMsgCounter_] (s_drv s) (s_drv (begin_iteration k s)) /\
  s_status (begin_iteration k s) = s_status s /\
  s_acquire (begin_iteration k s) = s_acquire s /\
  s_bufs (begin_iteration k s) = s_bufs s.
Proof.
  unfold begin_iteration. split_lets. simpl. split; [| done].
  repeat match goal with
  | H : sendSimpleCommand _ _ _ _ = _ |- _ => apply sendSimpleCommand_evolves in H
  | H : sendStartCommand _ _ = _ |- _ => apply sendStartCommand_evolves in H
  end.
  ev_chain.
Qed.

Lemma iterLoop_spec n k iteration s :
  1 <= nonEnergyChannels k ->
  match iterLoop stod stod_sample n k iteration s with
  | Ok s' => io all_names (s_drv s) (s_drv s')
  | Stop why => buffer_stop why
  end.
Proof.
  intros HV. revert iteration s.
  induction n as [| n IH]; intros iteration s; cbn [iterLoop];
    [apply io_refl |].
  destruct (s_acquire s =? 1); [| apply io_refl].
  destruct (begin_iteration_evolves k s) as (Hb & _).
  apply ev_io in Hb.
  set (s1 := begin_iteration k s) in *.
  pose proof (pollLoop_spec (poll_fuel s1) k iteration s1 HV) as Hp.
  specialize (Hp ltac:(unfold poll_fuel; lia)).
  destruct (pollLoop _ _ _ _ _ s1) as [s2 | why]; cbn [bind]; [| exact Hp].
  specialize (IH (iteration + 1) s2).
  destruct (iterLoop _ _ n k (iteration + 1) s2); [| exact IH].
  eapply io_trans; [| exact IH].
  eapply io_trans; [| exact Hp].
  eapply io_weaken; [| exact Hb]. reflexivity.
Qed.

Lemma zero_cells_stops n b : stops_only buffer_stop (zero_cells n b).
Proof.
  unfold zero_cells, for_loop.
  pose proof (for_range_rule buffer_stop (fun (_ : Z) (_ : buffer) => True)
    (fun x b => assign b x 0) (Z.to_nat (n - 0)) 0 b) as R.
  destruct (for_range _ _ _ _); simpl; [exact I |].
  apply R; [| exact I].
  intros x b' _ _. pose proof (assign_stops b' x 0) as A.
  by destruct (assign b' x 0).
Qed.

Lemma zero_if_set_stops n b : stops_only buffer_stop (zero_if_set n b).
Proof.
  unfold zero_if_set. destruct (is_null b); [exact I | apply zero_cells_stops].
Qed.

Lemma complete_same s :
  sent (complete s) = sent (s_drv s) /\ port (complete s) = port (s_drv s).
Proof.
  unfold complete.
  destruct (_ && _); [| done]. simpl.
  destruct (_ =? 0); done.
Qed.

(** An acquisition ends: it returns with [ADAcquire] reset, or stops on a
    buffer. *)
Lemma acquire_session_spec t d :
  1 <= t_nonEnergyChannels t ->
  match acquire_session stod stod_sample t d with
  | Ok (t', d') =>
      io all_names d d' /\ ints d' ADAcquire = Some 0 /\
      t_nonEnergyChannels t' = t_nonEnergyChannels t
  | Stop why => buffer_stop why
  end.
Proof.
  intros HV. unfold acquire_session.
  pose proof (zero_cells_stops (t_energyChannels t) (t_spectrum t)) as H1.
  destruct (zero_cells _ (t_spectrum t)) as [sp | why]; cbn [bind];
    [| exact H1].
  pose proof (zero_if_set_stops (t_energyChannels t * t_nonEnergyChannels t)
                (t_image t)) as H2.
  destruct (zero_if_set _ (t_image t)) as [im | why]; cbn [bind];
    [| exact H2].
  pose proof (zero_if_set_stops
                (t_energyChannels t * t_nonEnergyChannels t * t_numSlices t)
                (t_volume t)) as H3.
  destruct (zero_if_set _ (t_volume t)) as [vo | why]; cbn [bind];
    [| exact H3].
  match goal with
  | |- context [iterLoop stod stod_sample ?n ?k ?j ?s] =>
      pose proof (iterLoop_spec n k j s HV) as Hi;
      destruct (iterLoop stod stod_sample n k j s) as [s' | why]; cbn [bind];
        [| exact Hi]
  end.
  simpl in Hi. destruct (complete_same s') as [Cs Cp].
  split; [| done].
  eapply io_trans; [| apply io_same; [exact Cs | exact Cp]].
  eapply io_trans; [| exact Hi]. by apply io_same.
Qed.

Lemma session_samples_evolves runMode iterations old d :
  evolves [] [KREIOSSamples_; KREIOSSamplesIteration_] d
    (snd (session_samples runMode iterations old d)).
Proof.
  unfold session_samples. destruct (runMode =? KREIOS_RUN_SFAT); simpl; ev_chain.
Qed.

Lemma publish_shape_evolves nS nV nd dims d :
  evolves [] [NDArraySizeX; NDArraySizeY; NDArraySize] d
    (publish_shape nS nV nd dims d).
Proof.
  unfold publish_shape. destruct (2 <=? nd); ev_chain.
Qed.

(** The preparation of a session writes only its own requests and
    parameters, and leaves at least one value per sample. *)
Lemma prepare_spec t d :
  evolves prepare_names prepare_params (setIntegerParam KREIOSPauseAcq_ 0 d)
    (snd (prepare show_double t d)) /\
  1 <= t_nonEnergyChannels (fst (prepare show_double t d)).
Proof.
  unfold prepare.
  destruct (getAnalyserParameter_int _ _ _) as [[st0 v0] d0] eqn:E0.
  set (d1 := if is_success st0 then _ else d0).
  set (dp := setIntegerParam KREIOSPauseAcq_ 0 d) in *.
  assert (evolves prepare_names prepare_params dp d1) as H1.
  { use_steps. subst d1. destruct (is_success st0); ev_chain. }
  clearbody d1. clear E0.
  set (nV := if _ <? 1 then 1 else _).
  assert (1 <= nV) as HV.
  { subst nV. destruct (_ <? 1) eqn:E; lia. }
  clearbody nV.
  set (nN := if _ <? 1 then 1 else _). clearbody nN.
  set (r := if is_success st0 then _ else _).
  assert (evolves prepare_names prepare_params dp (snd r)) as H2.
  { subst r. destruct (is_success st0); [| exact H1].
    split_lets. simpl. use_steps. ev_chain. }
  destruct r as [[st1 runMode] d2]. simpl in H2. clear H1.
  set (r := if is_success st1 then _ else _).
  assert (evolves prepare_names prepare_params dp (snd r)) as H3.
  { subst r. destruct (is_success st1); [| exact H2].
    destruct (validateSpectrum d2) eqn:E. simpl. use_steps. ev_chain. }
  destruct r as [st2 d3]. simpl in H3. clear H2.
  destruct (is_success st2); [| by split].
  pose proof (session_samples_evolves runMode
    (getIntegerParam dp ADNumExposures (t_iterations t)) (t_energyChannels t) d3) as H4.
  destruct (session_samples _ _ _ d3) as [nS d4]. simpl in H4.
  destruct (allocate _ _ _ _) as [[[[nd dims] sp] im] vo]. simpl.
  split; [| exact HV].
  pose proof (publish_shape_evolves nS nV nd dims d4) as H5.
  ev_chain.
Qed.

Lemma epicsEventWait_start_io n d d' :
  epicsEventWait_start n d = Some d' -> io connect_names d d'.
Proof.
  revert d. induction n as [| n IH]; intros d; simpl;
    pose proof (unlocked_io d) as Hu;
    destruct (startEvent (unlocked d)); intros E; try discriminate.
  - inversion E; subst. eapply io_trans; [exact Hu |]. by apply io_same.
  - inversion E; subst. eapply io_trans; [exact Hu |]. by apply io_same.
  - apply IH in E. eapply io_trans; eassumption.
Qed.

Lemma await_start_io t d d' :
  await_start t d = Some d' -> io connect_names d d'.
Proof.
  unfold await_start. intros E. apply epicsEventWait_start_io in E.
  eapply io_trans; [| exact E].
  destruct (is_success (t_status t)); [destruct (_ && _) |]; by apply io_same.
Qed.

(** One turn of the worker: it stays in the wait, or returns with
    [ADAcquire] reset having written only requests of the protocol, or
    stops on a buffer. *)
Lemma kreiosTask_pass_spec t d :
  idle t d ->
  match kreiosTask_pass show_double stod stod_sample t d with
  | Waiting => True
  | Returned t' d' => io all_names d d' /\ ints d' ADAcquire = Some 0
  | Stopped why => buffer_stop why
  end.
Proof.
  unfold idle, kreiosTask_pass. intros ->. simpl.
  destruct (await_start t d) as [d0 |] eqn:Ew; [| exact I].
  apply await_start_io in Ew.
  destruct (prepare_spec t d0) as [Hp HV]. apply ev_io in Hp.
  destruct (prepare show_double t d0) as [t1 d1]. simpl in Hp, HV.
  assert (io all_names d d1) as Hio.
  { eapply io_trans; [eapply io_weaken; [| exact Ew]; reflexivity |].
    io_wrap Hp. }
  destruct (is_success (t_status t1)).
  - pose proof (acquire_session_spec t1 d1 HV) as Ha.
    destruct (acquire_session stod stod_sample t1 d1) as [[t2 d2] | why];
      [| exact Ha].
    destruct Ha as (Ha & Hacq & _). split; [| exact Hacq].
    eapply io_trans; eassumption.
  - split; [| reflexivity].
    eapply io_trans; [exact Hio |]. by apply io_same.
Qed.

End WorkerFacts.

(** ** The request framing (C2) *)

Lemma commandResponse_sent command data d :
  sent (snd (commandResponse command data d)) = sent d ++ [command].
Proof.
  unfold commandResponse, asynWriteRead. simpl.
  destruct (port d) as [| [st r] rest]; simpl; [reflexivity |].
  destruct (is_success st); [destruct (parse_response r) |]; reflexivity.
Qed.

(** A request whose command token is one of the protocol's begins with a
    letter: it does not have the [?HHHH ] framing. *)
Lemma named_unframed c :
  named all_names c = true -> framed_request (on_wire c) = false.
Proof.
  destruct c as [| ch rest]; [intros _; reflexivity |].
  destruct ch as [[] [] [] [] [] [] [] []];
    try (intros _; reflexivity); intros H; vm_compute in H; discriminate.
Qed.

Lemma named_all_unframed l :
  forallb (named all_names) l = true ->
  forallb (fun c => named all_names c && negb (framed_request (on_wire c))) l = true.
Proof.
  rewrite !forallb_forall. intros H c Hc. specialize (H c Hc).
  rewrite H, (named_unframed c H). reflexivity.
Qed.

(** C2 (counterexample).  The worker's [Start] goes on the wire as
    ["Start\n"]: no [?], no request ID; and the reply ["!BEEF OK"], whose ID
    answers no request, is accepted as its answer. *)
Lemma start_request_is_not_framed :
  let d := driver_with ints_constructed dbls_constructed ["!BEEF OK"] [] in
  let r := sendStartCommand true d in
  sent (snd r) = ["Start"] /\
  on_wire "Start" = String "S" (String "t" (String "a" (String "r" (String "t" (String LF ""))))) /\
  framed_request (on_wire "Start") = false /\
  fst r = asynSuccess.
Proof. vm_compute. repeat split; reflexivity. Qed.

Section Framing.

Variable show_double : float -> string.
Variable stod : string -> option float.
Variable stod_sample : string -> option Z.

(** C2 (amended).  Every request is the bare command text
    [Cmd[:Key=Value...]], which the port ends with LF: in an exchange the
    driver writes exactly the command it was given, and over a whole turn of
    the worker every request written starts with a command token of the
    protocol and so has no [?HHHH ] framing.  No ID is sent and none is read:
    whether an exchange succeeds, and the outcome map, depend only on the
    transport status and on the [:]-separated tokens of the reply (a token
    [ERROR] fails it, a token [Key=Value] enters the map). *)
Theorem exchange_is_unframed command data t d :
  (sent (snd (commandResponse command data d)) = sent d ++ [command] /\
   fst (commandResponse command data d) =
     match port d with
     | [] => (asynTimeout, data)
     | (st, response) :: _ =>
         if is_success st then parse_response response else (st, data)
     end) /\
  (idle t d ->
   match kreiosTask_pass show_double stod stod_sample t d with
   | Returned _ d' =>
       exists l, sent d' = sent d ++ l /\
         forallb (fun c => named all_names c
                           && negb (framed_request (on_wire c))) l = true
   | _ => True
   end).
Proof.
  split.
  - split; [apply commandResponse_sent |].
    unfold commandResponse, asynWriteRead. simpl.
    destruct (port d) as [| [st r] rest]; simpl; [reflexivity |].
    destruct (is_success st); [destruct (parse_response r) |]; reflexivity.
  - intros Hidle.
    pose proof (kreiosTask_pass_spec show_double stod stod_sample t d Hidle) as H.
    destruct (kreiosTask_pass _ _ _ t d) as [| t' d' | why]; try exact I.
    destruct H as [[(l & Hl & Hn) _] _].
    exists l. split; [exact Hl | by apply named_all_unframed].
Qed.

End Framing.

(** ** The pause parameter (C8) *)

Lemma writeInt32_plain function value d :
  function <> ADAcquire -> function <> KREIOSConnect_ ->
  before_FIRST_KREIOS_PARAM function = false ->
  writeInt32 function value d = (asynSuccess, setIntegerParam function value d).
Proof.
  intros H1 H2 H3. unfold writeInt32.
  destruct (decide (function = ADAcquire)); [done |].
  destruct (decide (function = KREIOSConnect_)); [done |].
  by rewrite H3.
Qed.

(** C8 (counterexample).  During an acquisition a client writes pause = 1:
    no request goes to the server, although its next reply would be a
    rejection, and the pause flag stays set. *)
Lemma pause_write_sends_no_request :
  let d := setIntegerParam ADAcquire 1
             (driver_with ints_constructed dbls_constructed ["ERROR:Code=1"] []) in
  let d' := snd (writeInt32 KREIOSPauseAcq_ 1 d) in
  sent d' = [] /\ port d' = port d /\ ints d' KREIOSPauseAcq_ = Some 1.
Proof. repeat split; reflexivity. Qed.

Section Pause.

Variable show_double : float -> string.

(** C8 (amended).  A write of the pause parameter, whatever the value, only
    stores the value: no request is written, no transport result is used,
    no other parameter changes (the detector status and the acquire flag
    among them), and a repeated write changes nothing more.  No client
    write makes the driver send [Pause] or [Resume]; the worker clears the
    pause flag when it prepares a session. *)
Theorem pause_write_only_stores (t : task) (function : param) (value v : Z)
    (d : driver) :
  let w := fun d => snd (writeInt32 KREIOSPauseAcq_ value d) in
  fst (writeInt32 KREIOSPauseAcq_ value d) = asynSuccess /\
  sent (w d) = sent d /\ port (w d) = port d /\
  (forall p, ints (w d) p
             = if decide (p = KREIOSPauseAcq_) then Some value else ints d p) /\
  (forall p, ints (w (w d)) p = ints (w d) p) /\
  sent (w (w d)) = sent d /\
  io connect_names d (snd (writeInt32 function v d)) /\
  named connect_names KREIOS_CMD_PAUSE = false /\
  named connect_names KREIOS_CMD_RESUME = false /\
  ints (snd (prepare show_double t d)) KREIOSPauseAcq_ = Some 0.
Proof.
  intros w. subst w. cbn beta.
  rewrite !writeInt32_plain by done. cbn [fst snd].
  repeat apply conj; try reflexivity;
    try (intros p; unfold setIntegerParam, upd; simpl;
         by destruct (decide (p = KREIOSPauseAcq_))).
  - destruct (writeInt32 function v d) eqn:E. by apply writeInt32_io in E.
  - destruct (prepare_spec show_double t d) as [H _].
    rewrite (ev_ints _ _ _ _ H) by reflexivity. reflexivity.
Qed.

End Pause.

(** ** Allocation at the start of an acquisition (C5) *)




(** ** The acquire flag and the start event (C9) *)




Section AcquireFlag.

Variable show_double : float -> string.
Variable stod : string -> option float.
Variable stod_sample : string -> option Z.


End AcquireFlag.


(** ** Reads of the received vector (C10) *)


Section Reads.

Variable show_double : float -> string.
Variable stod : string -> option float.
Variable stod_sample : string -> option Z.


End Reads.


(** ** A short read (C6) *)



Section ShortRead.

Variable stod : string -> option float.
Variable stod_sample : string -> option Z.




End ShortRead.


(** The whole turn on [session_short]: [Abort] is sent, then the two
    remaining iterations restart the server, and the session ends in
    [Error] with an empty spectrum. *)
Example short_read_turn :
  match turn session_short with
  | Returned t d =>
      drop 10 (sent d)
        = ["Abort"; "ClearSpectrum"; "Start"; "GetAcquisitionStatus";
           "ClearSpectrum"; "Start"; "GetAcquisitionStatus"] /\
      ints d ADStatus = Some ADStatusError /\
      strs d ADStatusMessage = Some "KREIOS Receive Error" /\
      ints d ADAcquire = Some 0 /\
      t_spectrum t = Some [0; 0] /\
      published d = []
  | _ => False
  end.
Proof. vm_compute. repeat split; reflexivity. Qed.

(** ** The sample count in snapshot mode (C3) *)

Section Snapshot.

Variable show_double : float -> string.


End Snapshot.


(** ** The requests of a whole session (C2) *)

(** C2 (witness): a 1-D session of three iterations returns after 22
    requests, none of them framed. *)
Lemma exchange_is_unframed_witness :
  idle task_init session_1d /\
  match turn session_1d with
  | Returned _ d' => length (sent d') = 22%nat
  | _ => False
  end /\
  match turn session_1d with
  | Returned _ d' =>
      exists l, sent d' = sent session_1d ++ l /\
        forallb (fun c => named all_names c
                          && negb (framed_request (on_wire c))) l = true
  | _ => True
  end.
Proof.
  split; [reflexivity |]. split; [vm_compute; reflexivity |].
  exact (proj2 (exchange_is_unframed show_whole stod_whole stoi "Start" ∅
                  task_init session_1d) eq_refl).
Defined.

(** ** Accumulation over iterations (C4) *)

Lemma assign_in_range l i v :
  0 <= i < Z.of_nat (length l) ->
  assign (Some l) i v = Ok (Some (<[Z.to_nat i := v]> l)).
Proof.
  intros H. unfold assign.
  destruct (0 <=? i) eqn:E1; [| lia].
  destruct (i <? Z.of_nat (length l)) eqn:E2; [reflexivity | lia].
Qed.

Lemma add_to_in_range l i v :
  0 <= i < Z.of_nat (length l) ->
  add_to (Some l) i v = Ok (Some (<[Z.to_nat i := peek l i + v]> l)).
Proof.
  intros H. unfold add_to, cell.
  destruct (0 <=? i) eqn:E1; [| lia].
  destruct (i <? Z.of_nat (length l)) eqn:E2; [| lia].
  cbn [andb bind]. by apply assign_in_range.
Qed.

Lemma peek_insert l i k v :
  0 <= i < Z.of_nat (length l) -> 0 <= k ->
  peek (<[Z.to_nat i := v]> l) k = if k =? i then v else peek l k.
Proof.
  intros Hi Hk. unfold peek. rewrite !nth_lookup.
  destruct (k =? i) eqn:E.
  - apply Z.eqb_eq in E. subst k.
    rewrite list_lookup_insert_eq by lia. reflexivity.
  - apply Z.eqb_neq in E. rewrite list_lookup_insert_ne by lia. reflexivity.
Qed.

(** The store of one sample of a 1-D chunk, on blocks that hold the cell. *)
Lemma store1D_body_cell iteration values x index sp nd im vo :
  0 <= index < Z.of_nat (length values) ->
  0 <= x < Z.of_nat (length sp) -> 0 <= x < Z.of_nat (length nd) ->
  store1D_body iteration values x (index, mkBufs (Some sp) im vo (Some nd))
  = Ok (index + 1,
        mkBufs (Some (<[Z.to_nat x := stored iteration (peek sp x) (peek values index)]> sp))
          im vo
          (Some (<[Z.to_nat x := stored iteration (peek nd x) (peek values index)]> nd))).
Proof.
  intros Hv Hs Hn. unfold store1D_body, stored.
  rewrite (values_at_in_range values index Hv). cbn [bind spectrum pNDData image volume].
  destruct (iteration =? 0).
  - rewrite !assign_in_range by assumption. reflexivity.
  - rewrite !add_to_in_range by assumption. reflexivity.
Qed.

(** The 1-D loop over a chunk: every cell of the chunk is stored once, with
    its own value, and the others are left alone. *)
Lemma store1D_cells iteration c e values sp nd im vo :
  0 <= c <= e -> e <= Z.of_nat (length sp) -> e <= Z.of_nat (length nd) ->
  e - c <= Z.of_nat (length values) ->
  exists sp' nd',
    store1D iteration c e values (0, mkBufs (Some sp) im vo (Some nd))
    = Ok (e - c, mkBufs (Some sp') im vo (Some nd')) /\
    length sp' = length sp /\ length nd' = length nd /\
    forall x, 0 <= x ->
      peek sp' x = after_chunk iteration c e values sp x /\
      peek nd' x = after_chunk iteration c e values nd x.
Proof.
  intros Hce Hsp Hnd Hv. unfold store1D, for_loop.
  set (I := fun (x : Z) (s : Z * bufs) =>
       fst s = x - c /\
       exists sp' nd',
         snd s = mkBufs (Some sp') im vo (Some nd') /\
         length sp' = length sp /\ length nd' = length nd /\
         forall k, 0 <= k ->
           peek sp' k = after_chunk iteration c x values sp k /\
           peek nd' k = after_chunk iteration c x values nd k).
  assert (Hbody : forall x s, c <= x < c + Z.of_nat (Z.to_nat (e - c)) -> I x s ->
            match store1D_body iteration values x s with
            | Ok s'' => I (x + 1) s''
            | Stop _ => False
            end).
  { intros x [index0 b0] Hx (Hi & sp0 & nd0 & Hb & Hls & Hln & Hk).
    simpl in Hi, Hb. subst index0 b0.
    rewrite store1D_body_cell by lia.
    split; [simpl; lia |]. eexists. eexists.
    split; [reflexivity |]. rewrite !length_insert.
    split; [exact Hls |]. split; [exact Hln |].
    intros k Hk0. destruct (Hk k Hk0) as [Hks Hkn].
    destruct (Hk x ltac:(lia)) as [Hxs Hxn].
    rewrite !peek_insert by lia. unfold after_chunk in *.
    destruct (k =? x) eqn:E.
    - apply Z.eqb_eq in E. subst k.
      replace ((c <=? x) && (x <? x + 1)) with true by lia.
      replace ((c <=? x) && (x <? x)) with false in Hxs, Hxn by lia.
      by rewrite Hxs, Hxn.
    - apply Z.eqb_neq in E. rewrite Hks, Hkn.
      replace ((c <=? k) && (k <? x + 1)) with ((c <=? k) && (k <? x)) by lia.
      done. }
  assert (Hinit : I c (0, mkBufs (Some sp) im vo (Some nd))).
  { split; [simpl; lia |]. exists sp, nd.
    split; [reflexivity |]. split; [reflexivity |]. split; [reflexivity |].
    intros k Hk. unfold after_chunk.
    replace ((c <=? k) && (k <? c)) with false by lia. done. }
  pose proof (for_range_rule (fun _ => False) I (store1D_body iteration values)
                (Z.to_nat (e - c)) c _ Hbody Hinit) as R.
  rewrite Z2Nat.id in R by lia. replace (c + (e - c)) with e in R by lia.
  destruct (for_range _ _ _ _) as [[index b'] | why]; [| done].
  destruct R as (Hi & sp' & nd' & Hb & H). simpl in Hi, Hb. subst index b'.
  exists sp', nd'. split; [reflexivity | exact H].
Qed.






(** ** The order of the values of a chunk (C1) *)

(** C1.  The cells the code writes.  In a 2-D session of two samples of two
    values, the first chunk holds the two values 10, 20 of sample 0: the code
    stores the second one, pixel 1 of sample 0, at [image[1 * 2 + 0]], cell 2,
    where the contract has [image[0 * 2 + 1]], cell 1.  In a 3-D session of
    two slices the four values of such a chunk go to the cells 0, 2, 4, 6 of
    the volume: [z * (S * V) + y * S + x] with [y] the pixel and [x] the
    sample.  A whole session whose server sends 10, 20 for sample 0 and
    30, 40 for sample 1 ends with the spectrum 40, 60. *)
Theorem chunk_cells_are_pixel_major :
  distribute 2 0 2 2 1 0 1 [10; 20] (zeroed_2d 2 2)
  = Ok (mkBufs (Some [30; 0]) (Some [10; 0; 20; 0]) None (Some [10; 0; 20; 0])) /\
  distribute 3 0 2 2 2 0 1 [1; 2; 3; 4] (zeroed_3d 2 2 2)
  = Ok (mkBufs (Some [10; 0]) None (Some [1; 0; 2; 0; 3; 0; 4; 0])
          (Some [1; 0; 2; 0; 3; 0; 4; 0])) /\
  final_image (turn session_2d) = Some [10; 20; 30; 40] /\
  final_spectrum (turn session_2d) = Some [40; 60].
Proof. vm_compute. repeat split; reflexivity. Qed.

(** ** The run mode and the start of the acquisition (C7) *)

(** A preparation that fails (the analyser parameter, the definition or the
    validation was refused, or a buffer could not be had) ends the turn in
    the error state with the acquire flag down, and the turn has sent
    nothing but the requests of the preparation: no [Start]. *)
Lemma failed_preparation_sends_no_start
    (show_double : float -> string) (stod : string -> option float)
    (stod_sample : string -> option Z) (t : task) (d d0 : driver) :
  idle t d -> await_start t d = Some d0 ->
  is_success (t_status (fst (prepare show_double t d0))) = false ->
  exists t' d',
    kreiosTask_pass show_double stod stod_sample t d = Returned t' d' /\
    ints d' ADStatus = Some ADStatusError /\
    ints d' ADAcquire = Some 0 /\
    exists l, sent d' = sent d0 ++ l /\
      forallb (fun c => named prepare_names c && negb (is_start c)) l = true.
Proof.
  intros Hidle Hwait Hfail. unfold kreiosTask_pass. unfold idle in Hidle.
  rewrite Hidle. cbn [Z.eqb]. rewrite Hwait.
  destruct (prepare_spec show_double t d0) as [[[(l & Hl & Hn) _] _ _ _ _ _ _] _].
  destruct (prepare show_double t d0) as [t1 d1]. simpl in Hfail, Hl.
  rewrite Hfail. eexists. eexists. split; [reflexivity |].
  split; [reflexivity |]. split; [reflexivity |].
  exists l. split; [exact Hl |].
  rewrite forallb_forall in Hn |- *. intros c Hc. specialize (Hn c Hc).
  rewrite Hn. unfold is_start, named in *. cbn [existsb andb negb orb] in *.
  destruct (String.eqb_spec (cmd_name c) KREIOS_CMD_START) as [E |]; [| done].
  rewrite E in Hn. vm_compute in Hn. discriminate.
Qed.

(** C7.  With a run mode that is none of the five, the worker sends no
    definition at all (the [default:] of the switch reports the mode and
    leaves the status as it was), has the spectrum validated, and starts the
    acquisition, which completes. *)
Theorem invalid_run_mode_starts_undefined :
  requests (turn session_invalid_mode)
  = ["GetAnalyzerParameterValue:Name=NumNonEnergyChannels"; "ClearSpectrum";
     "ValidateSpectrum"; "ClearSpectrum"; "Start"; "GetAcquisitionStatus";
     "GetAcquisitionStatus"; "GetSpectrumDataInfo:Name=OrdinateRange";
     "GetAcquisitionData:FromIndex=0:ToIndex=1"] /\
  existsb is_start (requests (turn session_invalid_mode)) = true /\
  existsb is_define (requests (turn session_invalid_mode)) = false /\
  final_state (turn session_invalid_mode)
  = (Some ADStatusIdle, Some "Acquisition complete") /\
  final_spectrum (turn session_invalid_mode) = Some [5; 5].
Proof. vm_compute. repeat split; reflexivity. Qed.

(** * Further facts about the driver *)

(** ** The text helpers *)

Lemma append_nil_l (s : string) : "" +:+ s = s.
Proof. reflexivity. Qed.

Lemma append_cons c (a b : string) : String c a +:+ b = String c (a +:+ b).
Proof. reflexivity. Qed.

Ltac sapp := rewrite ?append_cons, ?append_nil_l.

Lemma append_nil_r (s : string) : s +:+ "" = s.
Proof. induction s as [| c s IH]; sapp; [reflexivity | by rewrite IH]. Qed.

Lemma append_assoc (a b c : string) : (a +:+ b) +:+ c = a +:+ (b +:+ c).
Proof. induction a as [| x a IH]; sapp; [reflexivity | by rewrite IH]. Qed.

Lemma rev_string_spec (s acc : string) :
  rev_string s acc = rev_string s "" +:+ acc.
Proof.
  revert acc. induction s as [| c s IH]; intros acc; simpl; [reflexivity |].
  rewrite (IH (String c acc)), (IH (String c "")), append_assoc. reflexivity.
Qed.

Lemma rev_string_app (a b : string) :
  rev_string (a +:+ b) "" = rev_string b "" +:+ rev_string a "".
Proof.
  induction a as [| c a IH]; sapp; simpl.
  - by rewrite append_nil_r.
  - rewrite (rev_string_spec (a +:+ b)), (rev_string_spec a), IH, append_assoc.
    reflexivity.
Qed.

Lemma rev_string_involutive (s : string) :
  rev_string (rev_string s "") "" = s.
Proof.
  induction s as [| c s IH]; simpl; [reflexivity |].
  rewrite (rev_string_spec s), rev_string_app, IH. reflexivity.
Qed.

Lemma all_in_app search a b :
  all_in search (a +:+ b) = all_in search a && all_in search b.
Proof.
  induction a as [| c a IH]; sapp; simpl; [reflexivity |].
  by rewrite IH, andb_assoc.
Qed.

Lemma all_in_rev search s : all_in search (rev_string s "") = all_in search s.
Proof.
  induction s as [| c s IH]; simpl; [reflexivity |].
  rewrite rev_string_spec, all_in_app, IH. simpl.
  rewrite andb_true_r. apply andb_comm.
Qed.

(** [find_first_not_of]: what is dropped is in [search], what is left does
    not begin in [search]. *)
Lemma drop_leading_split search s :
  exists pre, s = pre +:+ drop_leading search s /\
    all_in search pre = true /\
    head_in search (drop_leading search s) = false.
Proof.
  induction s as [| c s (pre & E & Hp & Hh)]; simpl.
  - exists "". by repeat split.
  - destruct (mem_char c search) eqn:Hc.
    + exists (String c pre). sapp. simpl. rewrite Hc, Hp. by rewrite <- E.
    + exists "". simpl. by rewrite Hc.
Qed.

Lemma drop_leading_clean search s :
  head_in search s = false -> drop_leading search s = s.
Proof. destruct s as [| c s]; simpl; [done |]. by intros ->. Qed.

Lemma head_in_prefix search a b :
  head_in search (a +:+ b) = false -> a = "" \/ head_in search a = false.
Proof. destruct a as [| c a]; sapp; simpl; [by left | by right]. Qed.

(** X1.  [cleanString] removes a run of [search] characters from the front
    and one from the back, and nothing else: the text is the result between
    two runs of [search] characters, the result neither begins nor ends with
    a [search] character, and cleaning it again changes nothing. *)
Theorem cleanString_strips_both_ends (search str : string) :
  (exists pre suf,
     str = pre +:+ cleanString_with search str +:+ suf /\
     all_in search pre = true /\ all_in search suf = true) /\
  head_in search (cleanString_with search str) = false /\
  head_in search (rev_string (cleanString_with search str) "") = false /\
  cleanString_with search (cleanString_with search str)
    = cleanString_with search str.
Proof.
  unfold cleanString_with.
  destruct (drop_leading_split search str) as (pre & E1 & Hpre & Hh1).
  set (s1 := drop_leading search str) in *.
  destruct (drop_leading_split search (rev_string s1 "")) as (p2 & E2 & Hp2 & Hh2).
  set (s2 := drop_leading search (rev_string s1 "")) in *.
  assert (s1 = rev_string s2 "" +:+ rev_string p2 "") as E3.
  { rewrite <- (rev_string_involutive s1), E2. apply rev_string_app. }
  assert (head_in search (rev_string s2 "") = false) as Hh3.
  { rewrite E3 in Hh1. destruct (head_in_prefix _ _ _ Hh1) as [-> | H]; done. }
  repeat apply conj.
  - exists pre, (rev_string p2 ""). split; [by rewrite <- E3 |].
    split; [exact Hpre | by rewrite all_in_rev].
  - exact Hh3.
  - by rewrite rev_string_involutive.
  - rewrite (drop_leading_clean search (rev_string s2 "") Hh3).
    rewrite rev_string_involutive.
    by rewrite (drop_leading_clean search s2 Hh2).
Qed.

Lemma mem_char_snoc c d tok :
  mem_char c tok = false -> Ascii.eqb d c = false ->
  mem_char c (tok +:+ String d "") = false.
Proof.
  intros Htok Hd. induction tok as [| x tok IHt]; sapp; simpl in *.
  - by rewrite Ascii.eqb_sym, Hd.
  - apply orb_false_elim in Htok as [H1 H2]. by rewrite H1, IHt.
Qed.

Lemma terminated_free delim x tok :
  mem_char delim (String x tok) = false ->
  terminated delim (String x tok) = false.
Proof.
  revert x. induction tok as [| y tok IHt]; intros x Htok; simpl in *.
  - apply orb_false_elim in Htok as [H _]. by rewrite Ascii.eqb_sym.
  - apply orb_false_elim in Htok as [_ H]. by apply IHt.
Qed.

Lemma terminated_after delim t s :
  terminated delim (t +:+ String delim s) = terminated delim s.
Proof.
  induction t as [| x t IHt]; sapp.
  - simpl. destruct s; [by rewrite Ascii.eqb_refl | reflexivity].
  - rewrite <- IHt. simpl.
    destruct (t +:+ String delim s) eqn:E; [| reflexivity].
    destruct t; discriminate.
Qed.

Lemma getline_tokens_unsplit delim s tok :
  mem_char delim tok = false ->
  unsplit delim (getline_tokens delim s tok)
  = if terminated delim (tok +:+ s) then tok +:+ s
    else (tok +:+ s) +:+ String delim "".
Proof.
  revert tok. induction s as [| c s IH]; intros tok Htok.
  - rewrite append_nil_r. simpl. destruct tok as [| x tok]; [reflexivity |].
    simpl String.eqb. cbn [unsplit].
    by rewrite (terminated_free delim x tok Htok).
  - cbn [getline_tokens]. destruct (Ascii.eqb c delim) eqn:Hc.
    + apply Ascii.eqb_eq in Hc. subst c. cbn [unsplit].
      rewrite (IH "" eq_refl). sapp. rewrite terminated_after.
      destruct (terminated delim s); [reflexivity |].
      by rewrite append_assoc.
    + rewrite IH by (by apply mem_char_snoc).
      by rewrite append_assoc.
Qed.

Lemma getline_tokens_free delim s tok :
  mem_char delim tok = false ->
  forallb (fun t => negb (mem_char delim t)) (getline_tokens delim s tok) = true.
Proof.
  revert tok. induction s as [| c s IH]; intros tok Htok; simpl.
  - destruct (String.eqb tok ""); simpl; [reflexivity | by rewrite Htok].
  - destruct (Ascii.eqb c delim) eqn:Hc; simpl.
    + rewrite Htok. simpl. by apply IH.
    + apply IH. by apply mem_char_snoc.
Qed.

(** X2.  The tokens that [while (std::getline(ss, token, delim))] produces,
    each followed by the delimiter, spell the text again, with a delimiter
    added at the end unless the text is empty or ends with one; and no token
    contains the delimiter. *)
Theorem getline_tokens_rejoin (delim : ascii) (s : string) :
  unsplit delim (getline_tokens delim s "")
  = (if terminated delim s then s else s +:+ String delim "") /\
  forallb (fun t => negb (mem_char delim t)) (getline_tokens delim s "") = true.
Proof.
  split.
  - apply (getline_tokens_unsplit delim s "" eq_refl).
  - apply (getline_tokens_free delim s "" eq_refl).
Qed.

(** ** Integers in requests and replies *)

Lemma take_digits_uint u acc :
  take_digits (NilEmpty.string_of_uint u) acc true = Some (uint_val u acc).
Proof.
  revert acc. induction u; intros acc; simpl; try reflexivity; apply IHu.
Qed.

Lemma take_digits_first u acc :
  u <> Decimal.Nil ->
  take_digits (NilEmpty.string_of_uint u) acc false = Some (uint_val u acc).
Proof. destruct u; intros H; [done | ..]; simpl; apply take_digits_uint. Qed.

Lemma uint_val_pos u acc :
  uint_val u (Z.pos acc) = Z.pos (Pos.of_uint_acc u acc).
Proof.
  revert acc. induction u; intros acc; simpl; [reflexivity | ..];
    match goal with
    | |- uint_val _ ?a = Z.pos (Pos.of_uint_acc _ ?b) =>
        replace a with (Z.pos b) by lia; apply IHu
    end.
Qed.

Lemma uint_val_zero u : uint_val u 0 = Z.of_N (Pos.of_uint u).
Proof.
  induction u; simpl; [reflexivity | exact IHu | ..];
    match goal with
    | |- uint_val _ ?a = Z.pos (Pos.of_uint_acc _ ?b) =>
        replace a with (Z.pos b) by lia; apply uint_val_pos
    end.
Qed.

(** A numeral begins with a digit: no white space to skip and no sign. *)
Lemma stoi_unsigned u :
  u <> Decimal.Nil ->
  stoi (NilEmpty.string_of_uint u)
  = match take_digits (NilEmpty.string_of_uint u) 0 false with
    | Some n => if (INT_MIN <=? n) && (n <=? INT_MAX) then Some n else None
    | None => None
    end.
Proof. destruct u; intros H; [done | ..]; reflexivity. Qed.

Lemma stoi_minus s :
  stoi (String "-" s)
  = match take_digits s 0 false with
    | Some n => if (INT_MIN <=? - n) && (- n <=? INT_MAX) then Some (- n) else None
    | None => None
    end.
Proof. reflexivity. Qed.

Lemma stoi_numeral p :
  take_digits (NilEmpty.string_of_uint (Pos.to_uint p)) 0 false
  = Some (Z.pos p).
Proof.
  rewrite take_digits_first by apply DecimalPos.Unsigned.to_uint_nonnil.
  by rewrite uint_val_zero, DecimalPos.Unsigned.of_to.
Qed.

Lemma show_numeral p :
  NilZero.string_of_uint (Pos.to_uint p)
  = NilEmpty.string_of_uint (Pos.to_uint p).
Proof.
  pose proof (DecimalPos.Unsigned.to_uint_nonnil p) as H.
  by destruct (Pos.to_uint p).
Qed.

(** X3.  An [int] that the driver writes into a request with [operator<<]
    reads back with [std::stoi] as the same [int]; a wider value that was
    written the same way does not convert. *)
Theorem stoi_reads_show_int (n : Z) :
  stoi (show_int n)
  = if (INT_MIN <=? n) && (n <=? INT_MAX) then Some n else None.
Proof.
  unfold show_int. destruct n as [| p | p].
  - reflexivity.
  - cbn [Z.to_int NilZero.string_of_int]. rewrite show_numeral.
    rewrite stoi_unsigned by apply DecimalPos.Unsigned.to_uint_nonnil.
    by rewrite stoi_numeral.
  - cbn [Z.to_int NilZero.string_of_int]. rewrite show_numeral.
    by rewrite stoi_minus, stoi_numeral.
Qed.

(** ** The reply parser *)

Lemma parse_tokens l st data :
  fold_left parse_token l (st, data)
  = (if existsb bare_error l then asynError else st,
     fold_left store_field l data).
Proof.
  revert st data. induction l as [| t l IH]; intros st data; [reflexivity |].
  cbn [fold_left existsb]. unfold parse_token at 2, bare_error at 1, store_field at 2.
  destruct (find_split "=" t) as [[k v] |].
  - rewrite IH. reflexivity.
  - destruct (String.eqb (cleanString t) KREIOS_ERROR_STRING).
    + rewrite IH. simpl. by destruct (existsb bare_error l).
    + rewrite IH. reflexivity.
Qed.

(** X4.  The status of a reply and its fields are settled apart: the reply
    is refused exactly when one of its [:]-separated tokens has no [=] and
    reads [ERROR] once cleaned, wherever it stands; nothing asks for [OK];
    and every token [Key=Value] enters the map, refused reply or not. *)
Theorem reply_status_and_fields (response : string) :
  parse_response response
  = (if existsb bare_error (getline_tokens ":" response "")
     then asynError else asynSuccess,
     fold_left store_field (getline_tokens ":" response "") ∅).
Proof. unfold parse_response. by rewrite parse_tokens. Qed.

Lemma mem_char_app c a b :
  mem_char c (a +:+ b) = mem_char c a || mem_char c b.
Proof.
  induction a as [| x a IH]; sapp; simpl; [reflexivity |].
  by rewrite IH, orb_assoc.
Qed.

Lemma find_split_spec ch token k v :
  find_split ch token = Some (k, v) ->
  token = k +:+ String ch v /\ mem_char ch k = false.
Proof.
  revert k v. induction token as [| c token IH]; intros k v; simpl; [done |].
  destruct (Ascii.eqb c ch) eqn:Hc.
  - intros [= <- <-]. apply Ascii.eqb_eq in Hc. by subst c.
  - destruct (find_split ch token) as [[k' v'] |]; [| done].
    intros [= <- <-]. destruct (IH k' v' eq_refl) as [-> Hk].
    split; [reflexivity |]. simpl. by rewrite Ascii.eqb_sym, Hc, Hk.
Qed.

(** Cleaning adds no character. *)
Lemma cleanString_free c search s :
  mem_char c s = false -> mem_char c (cleanString_with search s) = false.
Proof.
  intros H. unfold cleanString_with.
  destruct (drop_leading_split search s) as (pre & E1 & _ & _).
  set (s1 := drop_leading search s) in *.
  destruct (drop_leading_split search (rev_string s1 "")) as (p2 & E2 & _ & _).
  set (s2 := drop_leading search (rev_string s1 "")) in *.
  assert (s1 = rev_string s2 "" +:+ rev_string p2 "") as E3.
  { rewrite <- (rev_string_involutive s1), E2. apply rev_string_app. }
  rewrite E1, E3, !mem_char_app in H.
  apply orb_false_elim in H as [_ H]. by apply orb_false_elim in H as [H _].
Qed.

Lemma cleanString_idem search s :
  cleanString_with search (cleanString_with search s) = cleanString_with search s.
Proof.
  unfold cleanString_with.
  destruct (drop_leading_split search s) as (pre & E1 & _ & Hh1).
  set (s1 := drop_leading search s) in *.
  destruct (drop_leading_split search (rev_string s1 "")) as (p2 & E2 & _ & Hh2).
  set (s2 := drop_leading search (rev_string s1 "")) in *.
  assert (s1 = rev_string s2 "" +:+ rev_string p2 "") as E3.
  { rewrite <- (rev_string_involutive s1), E2. apply rev_string_app. }
  assert (head_in search (rev_string s2 "") = false) as Hh3.
  { rewrite E3 in Hh1. destruct (head_in_prefix _ _ _ Hh1) as [-> | H]; done. }
  rewrite (drop_leading_clean search (rev_string s2 "") Hh3).
  rewrite rev_string_involutive.
  by rewrite (drop_leading_clean search s2 Hh2).
Qed.

Lemma store_field_clean data token :
  mem_char ":" token = false ->
  map_Forall clean_field data -> map_Forall clean_field (store_field data token).
Proof.
  intros Ht Hd. unfold store_field.
  destruct (find_split "=" token) as [[k v] |] eqn:E; [| exact Hd].
  destruct (find_split_spec _ _ _ _ E) as [-> Hk].
  rewrite mem_char_app in Ht. apply orb_false_elim in Ht as [Hk1 Hv].
  simpl in Hv. apply map_Forall_insert_2; [| exact Hd].
  unfold clean_field, cleanString. rewrite !cleanString_idem.
  repeat apply conj; try reflexivity; by apply cleanString_free.
Qed.

(** X5.  Whatever the reply, no key or value of the map begins or ends with
    a space, a colon or a line feed (cleaning it again changes nothing), no
    key holds a [:] or an [=], and no value holds a [:]: a value is cut at
    its first colon. *)
Theorem reply_fields_are_clean (response : string) :
  map_Forall clean_field (snd (parse_response response)).
Proof.
  unfold parse_response. rewrite parse_tokens. cbn [snd].
  pose proof (getline_tokens_free ":" response "" eq_refl) as Hfree.
  assert (forall l data,
            forallb (fun t => negb (mem_char ":" t)) l = true ->
            map_Forall clean_field data ->
            map_Forall clean_field (fold_left store_field l data)) as H.
  { induction l as [| t l IH]; intros data Hl Hd; [exact Hd |].
    cbn [forallb] in Hl. apply andb_prop in Hl as [Ht Hl].
    apply IH; [exact Hl |]. apply store_field_clean; [| exact Hd].
    by destruct (mem_char ":" t). }
  apply H; [exact Hfree | apply map_Forall_empty].
Qed.

(** ** The enumerations *)

Lemma put_in_range {A} (a : list A) i v :
  (i < length a)%nat -> put a i v = Ok (<[i := v]> a).
Proof.
  intros H. unfold put. destruct (i <? length a)%nat eqn:E; [reflexivity |].
  apply Nat.ltb_ge in E. lia.
Qed.

Lemma enum_loop_spec names :
  forall i n o,
    (n <= length (e_strings o))%nat -> (n <= length (e_values o))%nat ->
    (n <= length (e_severities o))%nat ->
    exists o',
      enum_loop names i n o = Ok ((i + Nat.min (length names) (n - i))%nat, o') /\
      length (e_strings o') = length (e_strings o) /\
      length (e_values o') = length (e_values o) /\
      length (e_severities o') = length (e_severities o) /\
      forall j,
        ((i <= j < i + Nat.min (length names) (n - i))%nat ->
         e_strings o' !! j = Some (names !! (j - i)%nat) /\
         e_values o' !! j = Some (Z.of_nat j) /\
         e_severities o' !! j = Some 0) /\
        (~ (i <= j < i + Nat.min (length names) (n - i))%nat ->
         e_strings o' !! j = e_strings o !! j /\
         e_values o' !! j = e_values o !! j /\
         e_severities o' !! j = e_severities o !! j).
Proof.
  induction names as [| name rest IH]; intros i n o Hs Hv Hsv.
  - exists o. simpl. replace (i + 0)%nat with i by lia.
    repeat split; try done; lia.
  - cbn [enum_loop]. destruct (i <? n)%nat eqn:E.
    + apply Nat.ltb_lt in E.
      rewrite !put_in_range by lia. cbn [bind].
      destruct (IH (S i) n
                  (mkEnum (<[i := Some name]> (e_strings o))
                     (<[i := Z.of_nat i]> (e_values o))
                     (<[i := 0]> (e_severities o))))
        as (o' & Hrun & L1 & L2 & L3 & Hj);
        [cbn; rewrite length_insert; lia ..|].
      cbn [e_strings e_values e_severities] in *.
      rewrite length_insert in L1. rewrite length_insert in L2.
      rewrite length_insert in L3.
      exists o'. split.
      { rewrite Hrun. do 2 f_equal. cbn [length]. lia. }
      split; [exact L1 |]. split; [exact L2 |]. split; [exact L3 |].
      intros j. destruct (Hj j) as [Hin Hout]. cbn [length]. split.
      * intros Hr. destruct (decide (j = i)) as [-> | Hne].
        -- destruct Hout as (H1 & H2 & H3); [lia |].
           rewrite H1, H2, H3, !list_lookup_insert_eq by lia.
           by replace (i - i)%nat with 0%nat by lia.
        -- destruct Hin as (H1 & H2 & H3); [lia |].
           rewrite H1, H2, H3.
           by replace (j - i)%nat with (S (j - S i)) by lia.
      * intros Hr. destruct Hout as (H1 & H2 & H3); [lia |].
        rewrite H1, H2, H3, !list_lookup_insert_ne by lia. done.
    + apply Nat.ltb_ge in E. exists o.
      replace (n - i)%nat with 0%nat by lia.
      rewrite Nat.min_0_r, Nat.add_0_r.
      repeat split; try done; lia.
Qed.

(** X6.  [readEnum] on arrays of at least [nElements] entries writes the
    first [min(size, nElements)] entries and no other: entry [i] gets the
    [i]-th name, the value [i] and the severity 0, [*nIn] is that count, and
    the entries from there on are as the caller left them.  For a parameter
    that is no enumeration it reports an error with [*nIn = 0] and writes
    nothing. *)
Theorem readEnum_fills_a_prefix (function : param) (nElements : nat)
    (o : enum_arrays) (d : driver) :
  (nElements <= length (e_strings o))%nat ->
  (nElements <= length (e_values o))%nat ->
  (nElements <= length (e_severities o))%nat ->
  match enum_names function d with
  | Some names =>
      exists o',
        readEnum function nElements o d
        = Ok (asynSuccess, Nat.min (length names) nElements, o') /\
        length (e_strings o') = length (e_strings o) /\
        length (e_values o') = length (e_values o) /\
        length (e_severities o') = length (e_severities o) /\
        forall j,
          ((j < Nat.min (length names) nElements)%nat ->
           e_strings o' !! j = Some (names !! j) /\
           e_values o' !! j = Some (Z.of_nat j) /\
           e_severities o' !! j = Some 0) /\
          ((Nat.min (length names) nElements <= j)%nat ->
           e_strings o' !! j = e_strings o !! j /\
           e_values o' !! j = e_values o !! j /\
           e_severities o' !! j = e_severities o !! j)
  | None => readEnum function nElements o d = Ok (asynError, 0%nat, o)
  end.
Proof.
  intros Hs Hv Hsv.
  assert (forall names,
    exists o',
      (do r <- enum_loop names 0 nElements o; Ok (asynSuccess, fst r, snd r))
      = Ok (asynSuccess, Nat.min (length names) nElements, o') /\
      length (e_strings o') = length (e_strings o) /\
      length (e_values o') = length (e_values o) /\
      length (e_severities o') = length (e_severities o) /\
      forall j,
        ((j < Nat.min (length names) nElements)%nat ->
         e_strings o' !! j = Some (names !! j) /\
         e_values o' !! j = Some (Z.of_nat j) /\
         e_severities o' !! j = Some 0) /\
        ((Nat.min (length names) nElements <= j)%nat ->
         e_strings o' !! j = e_strings o !! j /\
         e_values o' !! j = e_values o !! j /\
         e_severities o' !! j = e_severities o !! j)) as H.
  { intros names.
    destruct (enum_loop_spec names 0 nElements o Hs Hv Hsv)
      as (o' & Hrun & L1 & L2 & L3 & Hj).
    rewrite Nat.sub_0_r, Nat.add_0_l in *.
    exists o'. rewrite Hrun. cbn [bind fst snd]. repeat (split; [done |]).
    intros j. destruct (Hj j) as [Hin Hout]. split.
    - intros Hr. destruct Hin as (H1 & H2 & H3); [lia |].
      by rewrite Nat.sub_0_r in H1.
    - intros Hr. apply Hout. lia. }
  unfold readEnum. destruct function; cbn [enum_names]; try reflexivity; apply H.
Qed.

(** X6 (witness): the run modes offered to a record of three entries. *)
Lemma readEnum_fills_a_prefix_witness :
  exists o',
    readEnum KREIOSRunMode_ 3 (enum_blank 4) session_1d
    = Ok (asynSuccess, 3%nat, o') /\
    e_strings o' = [Some "FAT"; Some "SFAT"; Some "FRR"; None] /\
    e_values o' = [0; 1; 2; 0].
Proof.
  pose proof (readEnum_fills_a_prefix KREIOSRunMode_ 3 (enum_blank 4) session_1d)
    as H.
  cbn [enum_names] in H.
  destruct H as (o' & Hrun & _); [simpl; lia | simpl; lia | simpl; lia |].
  exists o'. split; [exact Hrun |].
  vm_compute in Hrun. injection Hrun as <-. by split.
Defined.

(** X7.  The run modes an enumeration record shows are numbered as the
    worker's [switch] takes them: for the run mode with name [name] at
    position [mode] of [runModes_], the definition request the worker sends
    has the command token [DefineSpectrum<name>]. *)
Theorem run_mode_names_match_commands (show_double : float -> string)
    (mode : nat) (name : string) (status : asynStatus) (d : driver) :
  runModes_ !! mode = Some name ->
  exists cmd,
    sent (snd (define_spectrum show_double (Z.of_nat mode) status d))
    = sent d ++ [cmd] /\
    cmd_name cmd = "DefineSpectrum" +:+ name.
Proof.
  intros Hname.
  do 5 (destruct mode as [| mode];
        [injection Hname as <-; unfold define_spectrum; cbn [Z.of_nat Z.eqb
           KREIOS_RUN_FAT KREIOS_RUN_SFAT KREIOS_RUN_FRR KREIOS_RUN_FE
           KREIOS_RUN_LVS Pos.of_succ_nat Pos.succ Pos.eqb];
         unfold defineSpectrumFAT, defineSpectrumSFAT, defineSpectrumFRR,
           defineSpectrumFE, defineSpectrumLVS;
         match goal with
         | |- context [commandResponse ?c ?m d] =>
             pose proof (commandResponse_sent c m d) as Hs;
             destruct (commandResponse c m d) as [[? ?] ?];
             exists c; split; [exact Hs | vm_compute; reflexivity]
         end |]).
  discriminate Hname.
Qed.

(** X7 (witness): position 1 is SFAT. *)
Lemma run_mode_names_match_commands_witness :
  exists cmd,
    sent (snd (define_spectrum show_whole 1 asynSuccess session_sfat))
    = sent session_sfat ++ [cmd] /\
    cmd_name cmd = "DefineSpectrumSFAT".
Proof.
  exact (run_mode_names_match_commands show_whole 1 "SFAT" asynSuccess
           session_sfat eq_refl).
Defined.

(** ** The lens modes and scan ranges *)

Lemma parse_names_clean values :
  Forall (fun n => n <> "" /\ cleanString n = n /\ mem_char "," n = false)
    (parse_names values).
Proof.
  unfold parse_names.
  pose proof (getline_tokens_free "," values "" eq_refl) as Hfree.
  induction (getline_tokens "," values "") as [| t l IH]; [constructor |].
  cbn [forallb] in Hfree. apply andb_prop in Hfree as [Ht Hl].
  cbn [map List.filter].
  destruct (String.eqb (cleanString t) "") eqn:E; cbn [negb]; [by apply IH |].
  constructor; [| by apply IH].
  split; [by apply String.eqb_neq in E |].
  split; [apply cleanString_idem |].
  apply cleanString_free. by destruct (mem_char "," t).
Qed.

(** An exchange touches neither the two lists nor the first-connection
    flag nor the events. *)
Lemma commandResponse_keeps command data d :
  lensModes_ (snd (commandResponse command data d)) = lensModes_ d /\
  scanRanges_ (snd (commandResponse command data d)) = scanRanges_ d /\
  firstConnect_ (snd (commandResponse command data d)) = firstConnect_ d /\
  startEvent (snd (commandResponse command data d)) = startEvent d /\
  stopEvent (snd (commandResponse command data d)) = stopEvent d /\
  portCtl (snd (commandResponse command data d)) = portCtl d.
Proof.
  unfold commandResponse, asynWriteRead. cbn.
  destruct (port d) as [| [st r] rest]; cbn; [done |].
  destruct (is_success st); [destruct (parse_response r) |]; done.
Qed.

(** What an exchange returns: the transport decides, then the reply. *)
Lemma commandResponse_result command data d :
  fst (commandResponse command data d)
  = match port d with
    | [] => (asynTimeout, data)
    | (st, response) :: _ =>
        if is_success st then parse_response response else (st, data)
    end.
Proof.
  unfold commandResponse, asynWriteRead. cbn.
  destruct (port d) as [| [st r] rest]; cbn; [reflexivity |].
  destruct (is_success st); [destruct (parse_response r) |]; reflexivity.
Qed.

(** An exchange that ends well took an accepted reply from the port. *)
Lemma commandResponse_accepted command data d data' :
  fst (commandResponse command data d) = (asynSuccess, data') ->
  exists r, head (port d) = Some (asynSuccess, r) /\
    parse_response r = (asynSuccess, data').
Proof.
  rewrite commandResponse_result.
  destruct (port d) as [| [st r] rest]; [discriminate |].
  destruct st; cbn [is_success]; try discriminate.
  intros E. by exists r.
Qed.

(** X8.  [readSpectrumParameter] loads a list only from an accepted reply
    that has a [Values] field, and then only the list it was asked for: the
    names between the commas of that field, cleaned, none of them empty.  In
    every other case, a refused or failed request included, both lists stay
    as they were; and for a parameter that is neither list nothing is
    sent. *)
Theorem readSpectrumParameter_loads_names (p : param) (d : driver)
    (values : string) :
  Forall (fun n => n <> "" /\ cleanString n = n /\ mem_char "," n = false)
    (parse_names values) /\
  (lensModes_ (snd (readSpectrumParameter p d)) = lensModes_ d \/
   p = KREIOSLensMode_ /\ fst (readSpectrumParameter p d) = asynSuccess /\
   exists r v, head (port d) = Some (asynSuccess, r) /\
     snd (parse_response r) !! "Values" = Some v /\
     lensModes_ (snd (readSpectrumParameter p d)) = parse_names v) /\
  (scanRanges_ (snd (readSpectrumParameter p d)) = scanRanges_ d \/
   p = KREIOSScanRange_ /\ fst (readSpectrumParameter p d) = asynSuccess /\
   exists r v, head (port d) = Some (asynSuccess, r) /\
     snd (parse_response r) !! "Values" = Some v /\
     scanRanges_ (snd (readSpectrumParameter p d)) = parse_names v) /\
  sent (snd (readSpectrumParameter p d))
  = sent d ++
    (if decide (p = KREIOSLensMode_)
     then [KREIOS_CMD_GET_SPECTRUM +:+ ":Name=LensMode"]
     else if decide (p = KREIOSScanRange_)
          then [KREIOS_CMD_GET_SPECTRUM +:+ ":Name=ScanRange"]
          else []).
Proof.
  split; [apply parse_names_clean |].
  unfold readSpectrumParameter.
  destruct (decide (p = KREIOSLensMode_)) as [-> | H1];
    [| destruct (decide (p = KREIOSScanRange_)) as [-> | H2]].
  - pose proof (commandResponse_sent
                  (KREIOS_CMD_GET_SPECTRUM +:+ ":Name=LensMode") ∅ d) as Hs.
    pose proof (commandResponse_accepted
                  (KREIOS_CMD_GET_SPECTRUM +:+ ":Name=LensMode") ∅ d) as Ha.
    destruct (commandResponse_keeps
                (KREIOS_CMD_GET_SPECTRUM +:+ ":Name=LensMode") ∅ d)
      as (Hl & Hr & _).
    destruct (commandResponse _ ∅ d) as [[st data] d1]. cbn [fst snd] in *.
    destruct (is_success st) eqn:Est; cbn [fst snd];
      [| by repeat split; [left | left |]].
    destruct st; try discriminate.
    destruct (data !! "Values") as [v |] eqn:Ev; cbn [fst snd].
    + destruct (Ha data eq_refl) as (r & Hp & Hparse).
      split; [| split; [by left | exact Hs]].
      right. split; [reflexivity |]. split; [reflexivity |].
      exists r, v. by rewrite Hparse.
    + by repeat split; [left | left |].
  - pose proof (commandResponse_sent
                  (KREIOS_CMD_GET_SPECTRUM +:+ ":Name=ScanRange") ∅ d) as Hs.
    pose proof (commandResponse_accepted
                  (KREIOS_CMD_GET_SPECTRUM +:+ ":Name=ScanRange") ∅ d) as Ha.
    destruct (commandResponse_keeps
                (KREIOS_CMD_GET_SPECTRUM +:+ ":Name=ScanRange") ∅ d)
      as (Hl & Hr & _).
    destruct (commandResponse _ ∅ d) as [[st data] d1]. cbn [fst snd] in *.
    destruct (is_success st) eqn:Est; cbn [fst snd];
      [| by repeat split; [left | left |]].
    destruct st; try discriminate.
    destruct (data !! "Values") as [v |] eqn:Ev; cbn [fst snd].
    + destruct (Ha data eq_refl) as (r & Hp & Hparse).
      split; [by left |]. split; [| exact Hs].
      right. split; [reflexivity |]. split; [reflexivity |].
      exists r, v. by rewrite Hparse.
    + by repeat split; [left | left |].
  - cbn [fst snd]. rewrite app_nil_r. by repeat split; left.
Qed.

(** ** The analyser parameter commands *)

Section ParameterFacts.

Variable stod : string -> option float.

(** X9.  The four [getAnalyserParameter] overloads send the same request,
    [GetAnalyzerParameterValue:Name=<name>], and
    [getAnalyserParameterType] sends [GetAnalyzerParameterInfo:Name=<name>];
    none of them touches the caller's variable when it returns an error.  The
    [std::string] and [bool] overloads return the status of the exchange as
    it is, whatever the text of the value. *)
Theorem getAnalyserParameter_keeps_on_error (name : string) (vi : Z)
    (vd : float) (vs : string) (vb : bool) (vt : KREIOSValueType_t)
    (d : driver) :
  let cmd := KREIOS_CMD_GET_VALUE +:+ ":Name=" +:+ name in
  (is_success (fst (fst (getAnalyserParameter_int name vi d))) = false ->
   snd (fst (getAnalyserParameter_int name vi d)) = vi) /\
  (is_success (fst (fst (getAnalyserParameter_double stod name vd d))) = false ->
   snd (fst (getAnalyserParameter_double stod name vd d)) = vd) /\
  (is_success (fst (fst (getAnalyserParameter_string name vs d))) = false ->
   snd (fst (getAnalyserParameter_string name vs d)) = vs) /\
  (is_success (fst (fst (getAnalyserParameter_bool name vb d))) = false ->
   snd (fst (getAnalyserParameter_bool name vb d)) = vb) /\
  (is_success (fst (fst (getAnalyserParameterType name vt d))) = false ->
   snd (fst (getAnalyserParameterType name vt d)) = vt) /\
  fst (fst (getAnalyserParameter_string name vs d))
    = fst (fst (commandResponse cmd ∅ d)) /\
  fst (fst (getAnalyserParameter_bool name vb d))
    = fst (fst (commandResponse cmd ∅ d)) /\
  sent (snd (getAnalyserParameter_int name vi d)) = sent d ++ [cmd] /\
  sent (snd (getAnalyserParameter_double stod name vd d)) = sent d ++ [cmd] /\
  sent (snd (getAnalyserParameter_string name vs d)) = sent d ++ [cmd] /\
  sent (snd (getAnalyserParameter_bool name vb d)) = sent d ++ [cmd] /\
  sent (snd (getAnalyserParameterType name vt d))
    = sent d ++ [KREIOS_CMD_GET_INFO +:+ ":Name=" +:+ name].
Proof.
  intros cmd.
  unfold getAnalyserParameter_int, getAnalyserParameter_double,
    getAnalyserParameter_string, getAnalyserParameter_bool,
    getAnalyserParameterType.
  fold cmd.
  pose proof (commandResponse_sent cmd ∅ d) as Hs.
  pose proof (commandResponse_sent
                (KREIOS_CMD_GET_INFO +:+ ":Name=" +:+ name) ∅ d) as Hi.
  destruct (commandResponse cmd ∅ d) as [[st data] d1].
  destruct (commandResponse (KREIOS_CMD_GET_INFO +:+ ":Name=" +:+ name) ∅ d)
    as [[st2 data2] d2].
  cbn [fst snd] in *.
  repeat apply conj.
  - destruct (is_success st) eqn:E; cbn [fst snd]; [| done].
    destruct (data !! "Value") as [t |]; cbn [fst snd]; [| congruence].
    destruct (stoi t); cbn [fst snd]; [congruence | done].
  - destruct (is_success st) eqn:E; cbn [fst snd]; [| done].
    destruct (data !! "Value") as [t |]; cbn [fst snd]; [| congruence].
    destruct (stod t); cbn [fst snd]; [congruence | done].
  - destruct (is_success st) eqn:E; cbn [fst snd]; [| done].
    destruct (data !! "Value") as [t |]; cbn [fst snd]; congruence.
  - destruct (is_success st) eqn:E; cbn [fst snd]; [| done].
    destruct (data !! "Value") as [t |]; cbn [fst snd]; congruence.
  - destruct (is_success st2) eqn:E; cbn [fst snd]; [| done].
    destruct (data2 !! "Type") as [t |]; cbn [fst snd]; congruence.
  - destruct (is_success st); [destruct (data !! "Value") |]; reflexivity.
  - destruct (is_success st); [destruct (data !! "Value") |]; reflexivity.
  - destruct (is_success st);
      [destruct (data !! "Value") as [t |]; [destruct (stoi t) |] |]; exact Hs.
  - destruct (is_success st);
      [destruct (data !! "Value") as [t |]; [destruct (stod t) |] |]; exact Hs.
  - destruct (is_success st); [destruct (data !! "Value") |]; exact Hs.
  - destruct (is_success st); [destruct (data !! "Value") |]; exact Hs.
  - destruct (is_success st2); [destruct (data2 !! "Type") |]; exact Hi.
Qed.

End ParameterFacts.

(** X9 (witness): a value that is no number is an error for the [int]
    overload and [false] for the [bool] one. *)
Lemma getAnalyserParameter_keeps_on_error_witness :
  let d := driver_with ints_constructed dbls_constructed ["OK:Value=yes"] [] in
  fst (getAnalyserParameter_int "Lens" 7 d) = (asynError, 7) /\
  fst (getAnalyserParameter_bool "Lens" true d) = (asynSuccess, false).
Proof.
  cbv zeta.
  destruct (getAnalyserParameter_keeps_on_error stod_whole "Lens" 7 0%float
              "" true KREIOSTypeBool
              (driver_with ints_constructed dbls_constructed ["OK:Value=yes"] []))
    as (Hint & _).
  split; [| reflexivity].
  rewrite (surjective_pairing (fst (getAnalyserParameter_int _ _ _))).
  rewrite Hint by reflexivity. reflexivity.
Defined.

(** ** Connection *)

Lemma exchange_ints command data d p :
  p <> KREIOSMsgCounter_ ->
  ints (snd (commandResponse command data d)) p = ints d p.
Proof.
  intros Hp. destruct (commandResponse command data d) as [[st data'] d'] eqn:E.
  apply commandResponse_evolves in E. cbn [snd].
  apply (ev_ints _ _ _ _ E). cbn. by rewrite bool_decide_eq_false_2.
Qed.

Lemma exchange_port command data d :
  port (snd (commandResponse command data d)) = tail (port d).
Proof.
  unfold commandResponse, asynWriteRead. cbn.
  destruct (port d) as [| [st r] rest] eqn:E; cbn; [exact E |].
  destruct (is_success st); [destruct (parse_response r) |]; reflexivity.
Qed.

Lemma writeInt32_connection function value d :
  leaves_connection (function, value) = true ->
  ints (snd (writeInt32 function value d)) KREIOSConnected_
    = ints d KREIOSConnected_ /\
  sent (snd (writeInt32 function value d)) = sent d /\
  port (snd (writeInt32 function value d)) = port d.
Proof.
  unfold leaves_connection. cbn [fst snd]. intros H.
  apply andb_prop in H as [H1 H2].
  apply negb_true_iff, bool_decide_eq_false in H1.
  apply negb_true_iff in H2. unfold writeInt32.
  destruct (decide (function = ADAcquire)) as [-> | Hne].
  - destruct (negb (value =? 0) && _), ((value =? 0) && _);
      by repeat split.
  - destruct (decide (function = KREIOSConnect_)) as [-> | Hnc].
    + rewrite bool_decide_eq_true_2 in H2 by done. cbn in H2. rewrite H2.
      unfold disconnect, asynPortDisconnect.
      destruct (getIntegerParam _ KREIOSConnected_ 0 =? 1);
        [destruct (portCtl _) |];
        cbn [snd with_portCtl setIntegerParam with_ints ints sent port];
        unfold upd; by repeat split.
    + assert (ints (setIntegerParam function value d) KREIOSConnected_
              = ints d KREIOSConnected_) as Hi.
      { cbn [setIntegerParam with_ints ints]. unfold upd.
        destruct (decide (KREIOSConnected_ = function)); congruence. }
      destruct (before_FIRST_KREIOS_PARAM function);
        cbn [ADDriver_writeInt32 snd]; [| by repeat split].
      split; [| by repeat split].
      cbn [setIntegerParam with_ints ints] in *. unfold upd in *.
      destruct (decide (KREIOSConnected_ = function)); congruence.
Qed.

(** X10.  The connected flag is only ever changed by a connect attempt or by
    a write to the flag itself: through any batch of other client writes, a
    disconnect request among them, [KREIOSConnected_] keeps its value (a
    disconnect does not clear it), and the driver sends nothing to the
    server. *)
Theorem connected_flag_survives (batch : list (param * Z)) (d : driver) :
  forallb leaves_connection batch = true ->
  ints (apply_writes batch d) KREIOSConnected_ = ints d KREIOSConnected_ /\
  sent (apply_writes batch d) = sent d /\
  port (apply_writes batch d) = port d.
Proof.
  unfold apply_writes. revert d.
  induction batch as [| [f v] batch IH]; intros d H; [done |].
  cbn [forallb] in H. apply andb_prop in H as [Hw Hb].
  cbn [fold_left fst snd].
  destruct (IH (snd (writeInt32 f v d)) Hb) as (I1 & I2 & I3).
  destruct (writeInt32_connection f v d Hw) as (E1 & E2 & E3).
  rewrite I1, I2, I3. by repeat split.
Qed.

(** X10 (witness): a connected driver is told to disconnect and to
    acquire. *)
Lemma connected_flag_survives_witness :
  let d := with_portCtl [asynSuccess]
             (setIntegerParam KREIOSConnected_ 1 session_1d) in
  ints (apply_writes [(KREIOSConnect_, 0); (ADAcquire, 1)] d) KREIOSConnected_
    = Some 1 /\
  portCtl (apply_writes [(KREIOSConnect_, 0); (ADAcquire, 1)] d) = [].
Proof.
  cbv zeta. split; [| reflexivity].
  destruct (connected_flag_survives [(KREIOSConnect_, 0); (ADAcquire, 1)]
              (with_portCtl [asynSuccess]
                 (setIntegerParam KREIOSConnected_ 1 session_1d)) eq_refl)
    as (H & _).
  rewrite H. reflexivity.
Defined.

Lemma readDeviceVisibleName_keeps d :
  firstConnect_ (snd (readDeviceVisibleName d)) = firstConnect_ d /\
  portCtl (snd (readDeviceVisibleName d)) = portCtl d /\
  ints (snd (readDeviceVisibleName d)) KREIOSConnected_
    = ints d KREIOSConnected_.
Proof.
  unfold readDeviceVisibleName.
  destruct (commandResponse_keeps KREIOS_CMD_GET_VISNAME ∅ d)
    as (_ & _ & Hf & _ & _ & Hp).
  pose proof (exchange_ints KREIOS_CMD_GET_VISNAME ∅ d KREIOSConnected_
                ltac:(done)) as Hi.
  destruct (commandResponse _ ∅ d) as [[st data] d1]. cbn [snd] in *.
  destruct (is_success st); [destruct (data !! "VisibleName") |]; by cbn.
Qed.

Lemma getAnalyserParameter_int_keeps name value d :
  firstConnect_ (snd (getAnalyserParameter_int name value d)) = firstConnect_ d /\
  portCtl (snd (getAnalyserParameter_int name value d)) = portCtl d /\
  ints (snd (getAnalyserParameter_int name value d)) KREIOSConnected_
    = ints d KREIOSConnected_.
Proof.
  unfold getAnalyserParameter_int.
  destruct (commandResponse_keeps (KREIOS_CMD_GET_VALUE +:+ ":Name=" +:+ name) ∅ d)
    as (_ & _ & Hf & _ & _ & Hp).
  pose proof (exchange_ints (KREIOS_CMD_GET_VALUE +:+ ":Name=" +:+ name) ∅ d
                KREIOSConnected_ ltac:(done)) as Hi.
  destruct (commandResponse _ ∅ d) as [[st data] d1]. cbn [snd] in *.
  destruct (is_success st);
    [destruct (data !! "Value") as [t |]; [destruct (stoi t) |] |]; by cbn.
Qed.

Lemma connect_result d :
  fst (connect d) = default asynDisconnected (head (portCtl d)) /\
  sent (snd (connect d)) = sent d /\ port (snd (connect d)) = port d /\
  firstConnect_ (snd (connect d)) = firstConnect_ d /\
  ints (snd (connect d)) KREIOSConnected_
    = Some (if is_success (fst (connect d)) then 1 else 0) /\
  (is_success (fst (connect d)) = false ->
   ints (snd (connect d)) ADStatus = Some ADStatusError).
Proof.
  unfold connect, asynPortConnect.
  destruct (portCtl d) as [| c rest]; [by repeat split |].
  cbn [head default]. destruct c; by repeat split.
Qed.

Lemma makeConnection_again d :
  firstConnect_ d = false ->
  sent (snd (makeConnection d)) = sent d /\
  port (snd (makeConnection d)) = port d.
Proof.
  intros Hf. unfold makeConnection.
  destruct (connect_result d) as (_ & Hs & Hp & Hfc & _).
  destruct (connect d) as [st d0]. cbn [fst snd] in *.
  rewrite Hfc, Hf, andb_false_r. by split.
Qed.

(** X11.  The requests of a first connection are made once: a
    [makeConnection] that succeeds leaves [firstConnect_] false and the
    connected flag at 1, and from there on [makeConnection] connects the
    port and sends nothing.  When the port does not connect, nothing is
    sent, the connected flag is 0, the detector status is [Error], and
    [firstConnect_] is as it was. *)
Theorem makeConnection_reads_once (d : driver) :
  (is_success (fst (makeConnection d)) = true ->
   firstConnect_ (snd (makeConnection d)) = false /\
   ints (snd (makeConnection d)) KREIOSConnected_ = Some 1 /\
   sent (snd (makeConnection (snd (makeConnection d))))
     = sent (snd (makeConnection d))) /\
  (is_success (default asynDisconnected (head (portCtl d))) = false ->
   fst (makeConnection d) = default asynDisconnected (head (portCtl d)) /\
   sent (snd (makeConnection d)) = sent d /\
   ints (snd (makeConnection d)) KREIOSConnected_ = Some 0 /\
   ints (snd (makeConnection d)) ADStatus = Some ADStatusError /\
   firstConnect_ (snd (makeConnection d)) = firstConnect_ d).
Proof.
  split.
  - intros Hok.
    assert (firstConnect_ (snd (makeConnection d)) = false /\
            ints (snd (makeConnection d)) KREIOSConnected_ = Some 1)
      as [Hf Hc].
    { revert Hok. unfold makeConnection.
      destruct (connect_result d) as (_ & _ & _ & Hfc & Hcon & _).
      destruct (connect d) as [st d0]. cbn [fst snd] in *.
      destruct (is_success st) eqn:Est; cbn [andb];
        [| cbn [fst]; congruence].
      destruct (firstConnect_ d0) eqn:Ef; [| by cbn].
      destruct (readDeviceVisibleName_keeps d0) as (K1 & K2 & K3).
      destruct (readDeviceVisibleName d0) as [st1 d1]. cbn [snd] in *.
      destruct (is_success st1) eqn:E1; [| cbn [fst]; congruence].
      destruct (getAnalyserParameter_int_keeps "NumNonEnergyChannels" 0 d1)
        as (G1 & G2 & G3).
      destruct (getAnalyserParameter_int "NumNonEnergyChannels" 0 d1)
        as [[st2 v2] d2].
      cbn [fst snd] in *. intros _. split; [reflexivity |].
      cbn [with_firstConnect setIntegerParam with_ints ints]. unfold upd.
      destruct (decide (KREIOSConnected_ = KREIOSNonEnergyChannels_));
        [discriminate |].
      by rewrite G3, K3. }
    split; [exact Hf |]. split; [exact Hc |].
    by apply makeConnection_again.
  - intros Hfail. unfold makeConnection.
    destruct (connect_result d) as (Hst & Hs & _ & Hfc & Hcon & Herr).
    destruct (connect d) as [st d0]. cbn [fst snd] in *.
    rewrite <- Hst in Hfail. rewrite Hfail in *. cbn [andb fst snd].
    repeat split; try assumption. by apply Herr.
Qed.

(** X11 (witness): a first connection makes two requests, a second one
    none. *)
Lemma makeConnection_reads_once_witness :
  sent (snd (makeConnection fresh_driver))
    = ["GetAnalyzerVisibleName";
       "GetAnalyzerParameterValue:Name=NumNonEnergyChannels"] /\
  firstConnect_ (snd (makeConnection fresh_driver)) = false /\
  sent (snd (makeConnection (snd (makeConnection fresh_driver))))
    = sent (snd (makeConnection fresh_driver)) /\
  ints (snd (makeConnection session_1d)) KREIOSConnected_ = Some 0.
Proof.
  destruct (makeConnection_reads_once fresh_driver) as [H _].
  destruct (H eq_refl) as (Hf & _ & Hs).
  destruct (makeConnection_reads_once session_1d) as [_ H2].
  destruct (H2 eq_refl) as (_ & _ & Hc & _).
  split; [reflexivity |]. split; [exact Hf |]. split; [exact Hs | exact Hc].
Defined.

(** ** Validation *)

Lemma readIntegerData_or data key fallback :
  snd (readIntegerData data key fallback) = field_or fallback data key /\
  is_success (fst (readIntegerData data key fallback))
    = bool_decide (is_Some (data !! key ≫= stoi)).
Proof.
  unfold readIntegerData, field_or.
  destruct (data !! key) as [t |]; cbn; [destruct (stoi t); cbn |];
    by split.
Qed.

(** X12.  [validateSpectrum] returns the status of its exchange and always
    defines [KREIOSValidate_]: 1 after an accepted reply, 0 otherwise.  An
    accepted reply sets the three shape parameters from its fields, and a
    field that is missing or does not convert counts as 0 samples, 1 value
    per sample, 1 slice; a refused or failed validation leaves the three as
    the last validation set them.  [readIntegerData] reports success exactly
    when the key is there and converts. *)
Theorem validateSpectrum_fields (d : driver) (data : gmap string string)
    (key : string) (fallback : Z) :
  let st := fst (fst (commandResponse KREIOS_CMD_VALIDATE ∅ d)) in
  let reply := snd (fst (commandResponse KREIOS_CMD_VALIDATE ∅ d)) in
  let d' := snd (validateSpectrum d) in
  fst (validateSpectrum d) = st /\
  (if is_success st then
     ints d' KREIOSSamplesIteration_ = Some (field_or 0 reply "Samples") /\
     ints d' KREIOSValuesPerSample_ = Some (field_or 1 reply "ValuesPerSample") /\
     ints d' KREIOSNumSlices_ = Some (field_or 1 reply "NumberOfSlices") /\
     ints d' KREIOSValidate_ = Some 1
   else
     ints d' KREIOSSamplesIteration_ = ints d KREIOSSamplesIteration_ /\
     ints d' KREIOSValuesPerSample_ = ints d KREIOSValuesPerSample_ /\
     ints d' KREIOSNumSlices_ = ints d KREIOSNumSlices_ /\
     ints d' KREIOSValidate_ = Some 0) /\
  snd (readIntegerData data key fallback) = field_or fallback data key /\
  is_success (fst (readIntegerData data key fallback))
    = bool_decide (is_Some (data !! key ≫= stoi)).
Proof.
  cbv zeta. split; [| split; [| apply readIntegerData_or]].
  - unfold validateSpectrum.
    destruct (commandResponse KREIOS_CMD_VALIDATE ∅ d) as [[st reply] d1].
    by destruct (is_success st).
  - unfold validateSpectrum.
    pose proof (exchange_ints KREIOS_CMD_VALIDATE ∅ d) as Hi.
    destruct (commandResponse KREIOS_CMD_VALIDATE ∅ d) as [[st reply] d1].
    cbn [fst snd] in *. destruct (is_success st); cbn [snd].
    + rewrite <- !(proj1 (readIntegerData_or _ _ _)). by repeat split.
    + cbn [setIntegerParam with_ints ints]. unfold upd.
      repeat split; try (by rewrite <- Hi); reflexivity.
Qed.

(** ** The size of a read *)



(** ** The chunk against the size of the spectrum *)

Lemma for_range_app {St} (n m : nat) (x : Z) (body : Z -> St -> res St) s :
  for_range (n + m) x body s
  = do s' <- for_range n x body s; for_range m (x + Z.of_nat n) body s'.
Proof.
  revert x s. induction n as [| n IH]; intros x s.
  - cbn [Nat.add for_range bind]. by rewrite Z.add_0_r.
  - cbn [Nat.add for_range]. destruct (body x s) as [s1 | why]; cbn [bind];
      [| reflexivity].
    rewrite IH. by replace (x + 1 + Z.of_nat n) with (x + Z.of_nat (S n)) by lia.
Qed.

Lemma store1D_body_outside iteration values x index sp nd im vo :
  0 <= index < Z.of_nat (length values) ->
  x = Z.of_nat (length sp) ->
  store1D_body iteration values x (index, mkBufs (Some sp) im vo (Some nd))
  = Stop BufferOutOfRange.
Proof.
  intros Hv ->. unfold store1D_body.
  rewrite (values_at_in_range values index Hv).
  cbn [bind spectrum]. unfold add_to, cell, assign.
  replace (Z.of_nat (length sp) <? Z.of_nat (length sp)) with false by lia.
  rewrite andb_false_r. by destruct (iteration =? 0).
Qed.

(** X14.  The 1-D store keeps inside the spectrum exactly as long as the
    chunk ends at or before its last cell: nothing in the worker compares the
    end of a chunk, which the server's count of acquired points decides, with
    the number of samples the buffers were made for.  A chunk that ends
    beyond the spectrum runs through the cells that exist and then writes
    past the end. *)
Theorem store1D_overruns_spectrum (iteration nS nV nN c e : Z)
    (values sp nd : list Z) (im vo : buffer) :
  length nd = length sp -> 0 <= c <= e ->
  e - c <= Z.of_nat (length values) ->
  (e <= Z.of_nat (length sp) ->
   exists b', distribute 1 iteration nS nV nN c e values
                (mkBufs (Some sp) im vo (Some nd)) = Ok b') /\
  (c <= Z.of_nat (length sp) < e ->
   distribute 1 iteration nS nV nN c e values
     (mkBufs (Some sp) im vo (Some nd)) = Stop BufferOutOfRange).
Proof.
  intros Hlen Hce Hv. unfold distribute. cbn [Z.eqb Pos.eqb]. split.
  - intros He.
    destruct (store1D_cells iteration c e values sp nd im vo)
      as (sp' & nd' & E & _); [lia | lia | lia | lia |].
    rewrite E. by eexists.
  - intros Hover. set (n := Z.of_nat (length sp)) in *.
    destruct (store1D_cells iteration c n values sp nd im vo)
      as (sp' & nd' & E & Ls & _); [lia | lia | lia | lia |].
    unfold store1D, for_loop in *.
    replace (Z.to_nat (e - c))
      with (Z.to_nat (n - c) + S (Z.to_nat (e - n - 1)))%nat by lia.
    rewrite for_range_app, E. cbn [bind for_range].
    rewrite store1D_body_outside; [reflexivity | lia | lia].
Qed.

(** X14 (witness): buffers for two samples, and a server that reports
    three. *)
Lemma store1D_overruns_spectrum_witness :
  distribute 1 0 2 1 1 0 3 [5; 5; 5]
    (mkBufs (Some [0; 0]) None None (Some [0; 0])) = Stop BufferOutOfRange /\
  stop_of_turn (turn session_overreport) = Some BufferOutOfRange.
Proof.
  split; [| vm_compute; reflexivity].
  apply (store1D_overruns_spectrum 0 2 1 1 0 3 [5; 5; 5] [0; 0] [0; 0]
           None None eq_refl); cbn; lia.
Defined.

(** ** The acquire flag written by a client *)

(** X15.  A write to [ADAcquire] always stores the value and sends nothing.
    Only a change of state does more: a write of 0 while acquiring sets the
    detector status to [Aborted] with the message "Acquisition stopped" and
    fills the stop event; a non-zero write while idle sets the message
    "Acquiring data".  A write that repeats the state leaves status, message
    and stop event as they were. *)
Theorem acquire_write_transitions (value : Z) (d : driver) :
  let acquiring := negb (getIntegerParam d ADAcquire 0 =? 0) in
  let stops := (value =? 0) && acquiring in
  let starts := negb (value =? 0) && negb acquiring in
  let d' := snd (writeInt32 ADAcquire value d) in
  fst (writeInt32 ADAcquire value d) = asynSuccess /\
  ints d' ADAcquire = Some value /\
  sent d' = sent d /\ port d' = port d /\
  stopEvent d' = stopEvent d || stops /\
  ints d' ADStatus = (if stops then Some ADStatusAborted else ints d ADStatus) /\
  strs d' ADStatusMessage
    = (if stops then Some "Acquisition stopped"
       else if starts then Some "Acquiring data"
       else strs d ADStatusMessage).
Proof.
  cbv zeta. unfold writeInt32.
  destruct (decide (ADAcquire = ADAcquire)); [| done].
  destruct (value =? 0), (getIntegerParam d ADAcquire 0 =? 0);
    cbn [negb andb]; repeat split; try reflexivity;
    cbn [snd stopEvent with_stopEvent with_startEvent setIntegerParam
         setStringParam with_ints with_strs];
    by rewrite ?orb_false_r, ?orb_true_r.
Qed.

(** ** The turns of the worker *)

(** What the head of an iteration keeps. *)
Lemma begin_iteration_keeps (k : shape) (s : sess) :
  s_status (begin_iteration k s) = s_status s /\
  s_acquire (begin_iteration k s) = s_acquire s /\
  s_bufs (begin_iteration k s) = s_bufs s.
Proof.
  unfold begin_iteration, sendSimpleCommand, sendStartCommand.
  destruct (commandResponse KREIOS_CMD_CLEAR ∅ (s_drv s)) as [[st1 m1] d1].
  match goal with
  | |- context [commandResponse ?c ∅ d1] =>
      destruct (commandResponse c ∅ d1) as [[st2 m2] d2]
  end.
  by destruct (commandResponse KREIOS_CMD_GET_STATUS (s_data s) d2)
    as [[st3 m3] d3].
Qed.

Section TurnFacts.

Variable stod : string -> option float.
Variable stod_sample : string -> option Z.

(** X16.  An iteration begins with exactly three requests, in this order:
    [ClearSpectrum], [Start] (with [:SafeAfter=false] when the safe-state
    parameter is 0) and [GetAcquisitionStatus].  Their replies do not change
    the status of the session, a refused [Start] included; the count of
    consumed samples and the received vector start empty, and the
    accumulators are as the last iteration left them. *)
Theorem iteration_begins_with_three_requests (k : shape) (s : sess) :
  sent (s_drv (begin_iteration k s))
  = sent (s_drv s)
    ++ [KREIOS_CMD_CLEAR;
        KREIOS_CMD_START
        +:+ (if safeState k =? 0 then ":SafeAfter=false" else "");
        KREIOS_CMD_GET_STATUS] /\
  s_status (begin_iteration k s) = s_status s /\
  s_acquire (begin_iteration k s) = s_acquire s /\
  s_currentDataPoint (begin_iteration k s) = 0 /\
  s_values (begin_iteration k s) = [] /\
  s_bufs (begin_iteration k s) = s_bufs s.
Proof.
  unfold begin_iteration, sendSimpleCommand, sendStartCommand.
  pose proof (commandResponse_sent KREIOS_CMD_CLEAR ∅ (s_drv s)) as H1.
  destruct (commandResponse KREIOS_CMD_CLEAR ∅ (s_drv s)) as [[st1 m1] d1].
  match goal with
  | |- context [commandResponse ?c ∅ d1] =>
      pose proof (commandResponse_sent c ∅ d1) as H2;
      destruct (commandResponse c ∅ d1) as [[st2 m2] d2]
  end.
  pose proof (commandResponse_sent KREIOS_CMD_GET_STATUS (s_data s) d2) as H3.
  destruct (commandResponse KREIOS_CMD_GET_STATUS (s_data s) d2)
    as [[st3 m3] d3].
  cbn [snd s_drv s_status s_acquire s_currentDataPoint s_values s_bufs] in *.
  repeat split. rewrite H3, H2, H1, <- !app_assoc.
  by destruct (safeState k =? 0).
Qed.

(** X17.  When the acquire flag is found at 0 at the end of a turn of the
    polling loop, the worker sends [Abort] once, sets the detector status to
    [Aborted] with the message "Acquisition aborted", and the session ends
    there: the polling loop and the iterations that were still to come
    return at once, with no further request, and the completion step changes
    nothing. *)
Theorem user_stop_ends_requests (k : shape) (iteration : Z) (s : sess)
    (fuel n : nat) (later : Z) :
  getIntegerParam (s_drv s) ADAcquire (s_acquire s) = 0 ->
  let s' := poll_finish k iteration s in
  sent (s_drv s') = sent (s_drv s) ++ [KREIOS_CMD_ABORT] /\
  ints (s_drv s') ADStatus = Some ADStatusAborted /\
  strs (s_drv s') ADStatusMessage = Some "Acquisition aborted" /\
  (do s1 <- pollLoop stod stod_sample fuel k iteration s';
   iterLoop stod stod_sample n k later s1) = Ok s' /\
  complete s' = s_drv s' /\
  s_bufs s' = s_bufs s.
Proof.
  intros Hstop. cbv zeta. unfold poll_finish.
  match goal with
  | |- context [getIntegerParam ?x ADAcquire (s_acquire s)] =>
      replace (getIntegerParam x ADAcquire (s_acquire s)) with 0
        by (rewrite <- Hstop; reflexivity)
  end.
  cbn [Z.eqb]. unfold sendSimpleCommand.
  match goal with
  | |- context [commandResponse KREIOS_CMD_ABORT ∅ ?x] =>
      pose proof (commandResponse_sent KREIOS_CMD_ABORT ∅ x) as Hs;
      destruct (commandResponse KREIOS_CMD_ABORT ∅ x) as [[st m] d1]
  end.
  cbn [snd] in Hs.
  repeat split; try reflexivity.
  - exact Hs.
  - assert (forall x, poll_continue k
              (mkSess (s_status s) 0 (s_data s) (s_currentDataPoint s)
                 (s_numDataPoints s) (s_values s) (s_bufs s) x) = false) as Hc
      by reflexivity.
    destruct fuel; cbn [pollLoop]; rewrite Hc; cbn [bind];
      by destruct n.
Qed.

(** X18.  A controller state [aborted] or [error] in the reply to the
    status request that begins an iteration ends that iteration before any
    data is asked for; the status of the session stays a success, and a
    session of one iteration then completes as a clean one: detector status
    [Idle], message "Acquisition complete", progress 100. *)
Theorem server_abort_reads_as_completion (k : shape) (iteration : Z)
    (s : sess) :
  s_acquire s = 1 -> is_success (s_status s) = true ->
  data_at (s_data (begin_iteration k s)) "ControllerState" = "aborted" \/
  data_at (s_data (begin_iteration k s)) "ControllerState" = "error" ->
  iterLoop stod stod_sample 1 k iteration s = Ok (begin_iteration k s) /\
  ints (complete (begin_iteration k s)) ADStatus = Some ADStatusIdle /\
  strs (complete (begin_iteration k s)) ADStatusMessage
    = Some "Acquisition complete" /\
  ints (complete (begin_iteration k s)) KREIOSPercentComplete_ = Some 100 /\
  s_bufs (begin_iteration k s) = s_bufs s.
Proof.
  intros Hacq Hst Hstate.
  destruct (begin_iteration_keeps k s) as (Hs1 & Ha1 & Hb1).
  assert (poll_continue k (begin_iteration k s) = false) as Hc.
  { unfold poll_continue.
    destruct Hstate as [-> | ->]; cbn; by rewrite ?andb_false_r. }
  repeat split.
  - cbn [iterLoop]. rewrite Hacq. cbn [Z.eqb Pos.eqb].
    unfold poll_fuel. cbn [pollLoop]. by rewrite Hc.
  - unfold complete. rewrite Ha1, Hacq, Hs1, Hst. cbn [Z.eqb negb andb].
    by destruct (getIntegerParam _ NDArrayCallbacks 0 =? 0).
  - unfold complete. rewrite Ha1, Hacq, Hs1, Hst. cbn [Z.eqb negb andb].
    by destruct (getIntegerParam _ NDArrayCallbacks 0 =? 0).
  - unfold complete. rewrite Ha1, Hacq, Hs1, Hst. cbn [Z.eqb negb andb].
    by destruct (getIntegerParam _ NDArrayCallbacks 0 =? 0).
  - exact Hb1.
Qed.

End TurnFacts.

(** X17 (witness): the stop of [polling_stopped], and the whole session of
    [session_user_stop]. *)
Lemma user_stop_ends_requests_witness :
  sent (s_drv (poll_finish (mkShape 2 1 1 1 3 1) 0 polling_stopped))
    = ["Abort"] /\
  (do s1 <- pollLoop stod_whole stoi 5 (mkShape 2 1 1 1 3 1) 0
              (poll_finish (mkShape 2 1 1 1 3 1) 0 polling_stopped);
   iterLoop stod_whole stoi 2 (mkShape 2 1 1 1 3 1) 1 s1)
  = Ok (poll_finish (mkShape 2 1 1 1 3 1) 0 polling_stopped) /\
  final_state (turn session_user_stop)
    = (Some ADStatusAborted, Some "Acquisition aborted") /\
  final_spectrum (turn session_user_stop) = Some [5; 0].
Proof.
  destruct (user_stop_ends_requests stod_whole stoi (mkShape 2 1 1 1 3 1) 0
              polling_stopped 5 2 1 eq_refl) as (Hs & _ & _ & Hrun & _).
  split; [exact Hs |]. split; [exact Hrun |].
  vm_compute. by split.
Defined.

(** X18 (witness): the iteration of [iteration_aborted], and the whole
    session of [session_server_abort]. *)
Lemma server_abort_reads_as_completion_witness :
  iterLoop stod_whole stoi 1 (mkShape 2 1 1 1 1 1) 0 iteration_aborted
    = Ok (begin_iteration (mkShape 2 1 1 1 1 1) iteration_aborted) /\
  final_state (turn session_server_abort)
    = (Some ADStatusIdle, Some "Acquisition complete") /\
  final_spectrum (turn session_server_abort) = Some [0; 0].
Proof.
  destruct (server_abort_reads_as_completion stod_whole stoi
              (mkShape 2 1 1 1 1 1) 0 iteration_aborted eq_refl eq_refl
              (or_introl eq_refl)) as (Hrun & _).
  split; [exact Hrun |]. vm_compute. by split.
Defined.

(** ** A read that fails *)

Section ReadFacts.

Variable stod : string -> option float.
Variable stod_sample : string -> option Z.

(** X19.  The status of the data read is dropped: whatever the reply, the
    status of the session after the read is what it was.  And the received
    vector is replaced only by an accepted reply with a [Data] field: after
    a refused or failed read, or a reply without [Data], the worker goes on
    with the values of the read before. *)
Theorem failed_read_keeps_vector (k : shape) (s : sess) :
  let cmd := KREIOS_CMD_GET_DATA
             +:+ ":FromIndex=" +:+ show_int (s_currentDataPoint s)
             +:+ ":ToIndex="
             +:+ show_int (read_end k (s_currentDataPoint s)
                             (s_numDataPoints s) - 1) in
  s_status (snd (poll_fetch stod stod_sample k s)) = s_status s /\
  fst (poll_fetch stod stod_sample k s)
    = read_end k (s_currentDataPoint s) (s_numDataPoints s) /\
  ((s_currentDataPoint s =? 0) = false ->
   is_success (fst (fst (commandResponse cmd ∅ (s_drv s)))) = false \/
   snd (fst (commandResponse cmd ∅ (s_drv s))) !! "Data" = None ->
   s_values (snd (poll_fetch stod stod_sample k s)) = s_values s /\
   sent (s_drv (snd (poll_fetch stod stod_sample k s)))
     = sent (s_drv s) ++ [cmd]).
Proof.
  cbv zeta. unfold poll_fetch.
  split; [| split].
  - by destruct (readAcquisitionData _ _ _ _ _) as [[? ?] ?].
  - by destruct (readAcquisitionData _ _ _ _ _) as [[? ?] ?].
  - intros Hcur Hfail. rewrite Hcur. unfold readAcquisitionData.
    match goal with
    | |- context [commandResponse ?c ∅ (s_drv s)] =>
        pose proof (commandResponse_sent c ∅ (s_drv s)) as Hs;
        destruct (commandResponse c ∅ (s_drv s)) as [[st data] d1]
    end.
    cbn [fst snd] in *.
    destruct (is_success st); [| by split].
    destruct Hfail as [Hf | Hf]; [discriminate |].
    rewrite Hf. by split.
Qed.

End ReadFacts.

(** X19 (witness): the second sample of [polling_lost_read] is refused and
    the first value stays in the vector; in the session of
    [session_lost_read] it is stored again as the second sample, and the
    session completes. *)
Lemma failed_read_keeps_vector_witness :
  s_values (snd (poll_fetch stod_whole stoi (mkShape 2 1 1 1 1 1)
                   polling_lost_read)) = [5] /\
  final_spectrum (turn session_lost_read) = Some [5; 5] /\
  final_state (turn session_lost_read)
    = (Some ADStatusIdle, Some "Acquisition complete").
Proof.
  destruct (failed_read_keeps_vector stod_whole stoi (mkShape 2 1 1 1 1 1)
              polling_lost_read) as (_ & _ & H).
  destruct (H eq_refl (or_introl eq_refl)) as [Hv _].
  split; [exact Hv |]. vm_compute. by split.
Defined.

(** ** The 2-D store *)








(** ** The buffers of a session *)

(** X21.  "Initialize buffers" on a block of at least [n] cells sets the
    first [n] cells to zero and leaves the others; a null image or volume is
    skipped. *)
Theorem zero_cells_clears (n : Z) (l : list Z) :
  0 <= n <= Z.of_nat (length l) ->
  (exists l',
     zero_cells n (Some l) = Ok (Some l') /\ length l' = length l /\
     forall j, 0 <= j -> peek l' j = if j <? n then 0 else peek l j) /\
  zero_if_set n None = Ok None.
Proof.
  intros Hn. split; [| reflexivity]. unfold zero_cells, for_loop.
  rewrite Z.sub_0_r.
  set (I := fun (x : Z) (b : buffer) =>
       exists l', b = Some l' /\ length l' = length l /\
         forall j, 0 <= j -> peek l' j = if j <? x then 0 else peek l j).
  assert (Hbody : forall x b, 0 <= x < 0 + Z.of_nat (Z.to_nat n) -> I x b ->
            match assign b x 0 with
            | Ok b' => I (x + 1) b'
            | Stop _ => False
            end).
  { intros x b Hx (l0 & -> & Ll & Hk).
    rewrite assign_in_range by lia.
    exists (<[Z.to_nat x := 0]> l0). split; [reflexivity |].
    rewrite length_insert. split; [exact Ll |].
    intros j Hj. rewrite peek_insert by lia. rewrite (Hk j Hj).
    destruct (j =? x) eqn:E.
    - apply Z.eqb_eq in E. subst j. by replace (x <? x + 1) with true by lia.
    - apply Z.eqb_neq in E. by replace (j <? x + 1) with (j <? x) by lia. }
  assert (Hinit : I 0 (Some l)).
  { exists l. split; [reflexivity |]. split; [reflexivity |].
    intros j Hj. by replace (j <? 0) with false by lia. }
  pose proof (for_range_rule (fun _ => False) I (fun x b => assign b x 0)
                (Z.to_nat n) 0 _ Hbody Hinit) as R.
  rewrite Z2Nat.id in R by lia. rewrite Z.add_0_l in R.
  destruct (for_range _ _ _ _) as [b' | why]; [| done].
  destruct R as (l' & -> & H). by exists l'.
Qed.

(** X21 (witness): two cells of three. *)
Lemma zero_cells_clears_witness :
  zero_cells 2 (Some [7; 8; 9]) = Ok (Some [0; 0; 9]) /\
  exists l', zero_cells 2 (Some [7; 8; 9]) = Ok (Some l') /\ peek l' 2 = 9.
Proof.
  split; [reflexivity |].
  destruct (zero_cells_clears 2 [7; 8; 9]) as [(l' & Hrun & _ & Hj) _];
    [cbn; lia |].
  exists l'. split; [exact Hrun |]. by rewrite (Hj 2 ltac:(lia)).
Defined.





(** ** Doubles: the ordinate range and the write handler *)

(** An exchange changes no stored double and no stored string. *)
Lemma commandResponse_stores command data d :
  dbls (snd (commandResponse command data d)) = dbls d /\
  strs (snd (commandResponse command data d)) = strs d.
Proof.
  unfold commandResponse, asynWriteRead. cbn.
  destruct (port d) as [| [st r] rest]; cbn; [done |].
  destruct (is_success st); [destruct (parse_response r) |]; done.
Qed.

Section DoubleFacts.

Variable show_double : float -> string.
Variable stod : string -> option float.

(** X23.  [readSpectrumDataInfo] returns the status of its one exchange,
    [GetSpectrumDataInfo:Name=OrdinateRange].  After an accepted reply the
    three ordinate parameters are all rewritten: a [Min] or [Max] that is
    missing or does not convert is stored as 0, a missing [Units] as the
    empty text, whatever was stored before.  After a refused or failed
    exchange every double and every string is as it was. *)
Theorem readSpectrumDataInfo_fields (d : driver) :
  let cmd := KREIOS_CMD_GET_DATA_INFO +:+ ":Name=OrdinateRange" in
  let st := fst (fst (commandResponse cmd ∅ d)) in
  let reply := snd (fst (commandResponse cmd ∅ d)) in
  let d' := snd (readSpectrumDataInfo stod d) in
  fst (readSpectrumDataInfo stod d) = st /\
  sent d' = sent d ++ [cmd] /\
  (if is_success st then
     dbls d' KREIOSNonEnergyMin_
       = Some (default 0%float (reply !! "Min" ≫= stod)) /\
     dbls d' KREIOSNonEnergyMax_
       = Some (default 0%float (reply !! "Max" ≫= stod)) /\
     strs d' KREIOSNonEnergyUnits_ = Some (default "" (reply !! "Units"))
   else dbls d' = dbls d /\ strs d' = strs d).
Proof.
  cbv zeta. unfold readSpectrumDataInfo.
  pose proof (commandResponse_stores
                (KREIOS_CMD_GET_DATA_INFO +:+ ":Name=OrdinateRange") ∅ d)
    as [Hd Hs].
  pose proof (commandResponse_sent
                (KREIOS_CMD_GET_DATA_INFO +:+ ":Name=OrdinateRange") ∅ d)
    as Hsent.
  destruct (commandResponse
              (KREIOS_CMD_GET_DATA_INFO +:+ ":Name=OrdinateRange") ∅ d)
    as [[st reply] d1].
  cbn [fst snd] in *. destruct (is_success st); cbn [fst snd].
  - repeat split; try exact Hsent.
    + cbn. unfold upd. cbn. unfold readDoubleData.
      destruct (reply !! "Min") as [t |]; cbn; [| reflexivity].
      by destruct (stod t).
    + cbn. unfold upd. cbn. unfold readDoubleData.
      destruct (reply !! "Max") as [t |]; cbn; [| reflexivity].
      by destruct (stod t).
  - by repeat split.
Qed.


End DoubleFacts.

